(** * Semantic validation of rulesets (validate-semantic)

    A shallow embedding of the semantic validator script: the parsed YAML
    documents, the accumulation of errors and warnings while one file is
    walked, the reporter, and the process exit code. *)

From Stdlib Require Import ZArith Ascii Floats.SpecFloat Floats.PrimFloat Floats.FloatOps.
From stdpp Require Import gmap strings list pretty.

#[local] Set Warnings "-register-all".

Open Scope string_scope.
Open Scope Z_scope.
Open Scope list_scope.

(** ** Numbers

    A JavaScript number is an IEEE 754 binary64 value.  It is represented by
    the Standard Library's [spec_float] with a 53 bit mantissa and exponent
    bound 1024; the values a YAML parser returns are the canonical
    representatives of that format. *)

Module Num.

Definition prec : Z := 53.
Definition emax : Z := 1024.

Abbreviation number := spec_float.

Definition NaN : number := S754_nan.

(** The canonical binary64 value nearest to [m * 2 ^ e]. *)
Definition dbl (m e : Z) : number := binary_normalize prec emax m e false.

(** The binary64 value of an integer literal. *)
Definition of_Z (n : Z) : number := dbl n 0.

Definition add (x y : number) : number := SFadd prec emax x y.
Definition sub (x y : number) : number := SFsub prec emax x y.
Definition abs (x : number) : number := SFabs x.
Definition ltb (x y : number) : bool := SFltb x y.
Definition leb (x y : number) : bool := SFleb x y.
Definition gtb (x y : number) : bool := SFltb y x.

(** [Number.isNaN] on a value of number type. *)
Definition isNaN (x : number) : bool :=
  match x with S754_nan => true | _ => false end.

(** The integer a finite number denotes, when it denotes one. *)
Definition intValue (x : number) : option Z :=
  match x with
  | S754_zero _ => Some 0
  | S754_finite s m e =>
      if 0 <=? e then Some (cond_Zopp s (Z.pos m * 2 ^ e))
      else if Z.pos m mod 2 ^ (- e) =? 0
           then Some (cond_Zopp s (Z.pos m / 2 ^ (- e)))
           else None
  | S754_infinity _ | S754_nan => None
  end.

(** [Number.isInteger] on a value of number type. *)
Definition isInteger (x : number) : bool :=
  match intValue x with Some _ => true | None => false end.

(** The literals of the script. *)
Definition zero : number := S754_zero false.
Definition one : number := of_Z 1.
(** [1e-4]: the binary64 value nearest to one ten-thousandth. *)
Definition eps_1e_4 : number := dbl 7378697629483821 (-66).

End Num.

Export Num (number).

(** ** Parsed documents

    What [YAML.parse] returns: null, booleans, numbers, strings, sequences
    and mappings.  A mapping becomes a plain object, read here only through
    property lookups, so it is a finite map from key to value; a property
    that is absent reads as [undefined], which is [None] here. *)

Inductive value : Type :=
  | VNull
  | VBool (b : bool)
  | VNum (x : number)
  | VStr (s : string)
  | VArr (items : list value)
  | VObj (fields : gmap string value).

(** [isObject(x)]: not null, of type object, and not an array. *)
Definition isObject (x : value) : bool :=
  match x with VObj _ => true | _ => false end.

(** [Array.isArray(x)]. *)
Definition isArray (x : option value) : bool :=
  match x with Some (VArr _) => true | _ => false end.

(** ** Host functions

    The parts of the ECMAScript library whose behaviour rests on tables that
    are not part of the script: Unicode case mapping, the shortest decimal
    representation of a number that is not a small integer, and the
    conversion to a number of a value that is not a number, null or a boolean. *)

Class Host : Type := {
  toLowerCase : string -> string;
  toUpperCase : string -> string;
  Number_toString_host : number -> string;
  ToNumber_host : value -> number;
}.

(** ** Strings

    A string is held as the bytes of its UTF-8 encoding, which is how the
    script's own literals and the files it reads are stored.  Equality and
    concatenation of well-formed strings are those of the byte sequences. *)

Module Str.

Definition code (c : ascii) : Z := Z.of_N (N_of_ascii c).

(** White space and line terminators, as [String.prototype.trim] strips
    them: TAB, LF, VT, FF, CR, SP; U+00A0; U+1680, U+2000 to U+200A, U+2028,
    U+2029, U+202F, U+205F, U+3000 and U+FEFF, by the length of their
    encoding. *)
Definition ws1 (a : ascii) : bool :=
  let a := code a in ((9 <=? a) && (a <=? 13)) || (a =? 32).

Definition ws2 (a b : ascii) : bool :=
  (code a =? 194) && (code b =? 160).

Definition ws3 (a b c : ascii) : bool :=
  let a := code a in let b := code b in let c := code c in
  ((a =? 225) && (b =? 154) && (c =? 128))
  || ((a =? 226) && (b =? 128)
      && (((128 <=? c) && (c <=? 138)) || (c =? 168) || (c =? 169) || (c =? 175)))
  || ((a =? 226) && (b =? 129) && (c =? 159))
  || ((a =? 227) && (b =? 128) && (c =? 128))
  || ((a =? 239) && (b =? 187) && (c =? 191)).

Fixpoint trimStart (s : string) : string :=
  match s with
  | String a s1 =>
      if ws1 a then trimStart s1 else
      match s1 with
      | String b s2 =>
          if ws2 a b then trimStart s2 else
          match s2 with
          | String c s3 => if ws3 a b c then trimStart s3 else s
          | EmptyString => s
          end
      | EmptyString => s
      end
  | EmptyString => s
  end.

(** The same on the reversed string: the last byte comes first. *)
Fixpoint trimStart_rev (s : string) : string :=
  match s with
  | String c s1 =>
      if ws1 c then trimStart_rev s1 else
      match s1 with
      | String b s2 =>
          if ws2 b c then trimStart_rev s2 else
          match s2 with
          | String a s3 => if ws3 a b c then trimStart_rev s3 else s
          | EmptyString => s
          end
      | EmptyString => s
      end
  | EmptyString => s
  end.

Definition trimEnd (s : string) : string :=
  String.rev (trimStart_rev (String.rev s)).

(** [s.trim()]. *)
Definition trim (s : string) : string := trimEnd (trimStart s).

(** [s.trim().length === 0]. *)
Definition blank (s : string) : bool :=
  match trim s with EmptyString => true | String _ _ => false end.

Definition is_alpha (c : ascii) : bool :=
  let c := code c in
  ((65 <=? c) && (c <=? 90)) || ((97 <=? c) && (c <=? 122)).

Definition is_digit (c : ascii) : bool :=
  let c := code c in (48 <=? c) && (c <=? 57).

Fixpoint all_chars (p : ascii -> bool) (s : string) : bool :=
  match s with
  | EmptyString => true
  | String c s' => p c && all_chars p s'
  end.

(** [/^[a-z]{2}(-[a-z0-9]+)?$/i.test(s)].  Without the unicode flag the
    case-insensitive classes match the ASCII letters of either case and
    nothing else, and [$] matches at the end of the input only. *)
Definition looks_like_bcp47 (s : string) : bool :=
  match s with
  | String a (String b rest) =>
      is_alpha a && is_alpha b &&
      match rest with
      | EmptyString => true
      | String c tail =>
          (code c =? 45)
          && match tail with EmptyString => false | String _ _ => true end
          && all_chars (fun x => is_alpha x || is_digit x) tail
      end
  | _ => false
  end.

(** [xs.join(sep)]. *)
Definition join (sep : string) (xs : list string) : string :=
  String.concat sep xs.

(** Case mapping restricted to the ASCII letters. *)
Definition ascii_lower (c : ascii) : ascii :=
  let n := code c in
  if (65 <=? n) && (n <=? 90) then ascii_of_N (Z.to_N (n + 32)) else c.

Definition ascii_upper (c : ascii) : ascii :=
  let n := code c in
  if (97 <=? n) && (n <=? 122) then ascii_of_N (Z.to_N (n - 32)) else c.

Fixpoint map_chars (f : ascii -> ascii) (s : string) : string :=
  match s with
  | EmptyString => EmptyString
  | String c s' => String (f c) (map_chars f s')
  end.

End Str.

(** ** Printing numbers *)

(** Whether the decimal integer [d] is read back as the number [v], an
    integer with [2^53 <= v]: [d] lies between the midpoints from [v] to
    its neighbours among the numbers, the midpoints included when the
    significand of [v] is even.  The neighbour above is [2^(b-52)] away,
    [b] the position of the leading bit of [v]; the one below is half as
    far when [v] is a power of two.  Both sides are doubled. *)
Definition rounds_to (v d : Z) : bool :=
  let b := Z.log2 v in
  let up := 2 ^ (b - 52) in
  let down := if v =? 2 ^ b then 2 ^ (b - 53) else up in
  if Z.even (v / 2 ^ (b - 52))
  then (2 * v - down <=? 2 * d) && (2 * d <=? 2 * v + up)
  else (2 * v - down <? 2 * d) && (2 * d <? 2 * v + up).

(** Among the multiples of [u] next to [v] and below [top], one that is read
    back as [v]: the closer one when both are, the one with the even
    multiplier when they are as close. *)
Definition candidate (v u top : Z) : option Z :=
  let lo := v / u * u in
  let hi := lo + u in
  match rounds_to v lo, rounds_to v hi && (hi <? top) with
  | true, true =>
      Some (if v - lo <? hi - v then lo
            else if hi - v <? v - lo then hi
            else if Z.even (lo / u) then lo else hi)
  | true, false => Some lo
  | false, true => Some hi
  | false, false => None
  end.

(** The first candidate met while [u] goes down from the highest power of
    ten in [v] to 1: the one with the fewest digits before its zeros. *)
Fixpoint shortest_from (v top : Z) (fuel : nat) (u : Z) : Z :=
  match fuel with
  | O => v
  | S fuel' =>
      match candidate v u top with
      | Some d => d
      | None => shortest_from v top fuel' (u / 10)
      end
  end.

(** The integer whose decimal digits are printed for the integer [v],
    [0 <= v < 10^21]: [v] itself below [2^53], where the numbers are less
    than 1 apart. *)
Definition shortest (v : Z) : Z :=
  if v <? 2 ^ 53 then v
  else
    let n := String.length (pretty v) in
    shortest_from v (10 ^ Z.of_nat n) n (10 ^ (Z.of_nat n - 1)).

Section Printing.

Context {host : Host}.

(** [String(x)] and the template literal [${x}] on a number: for an integer
    below [10^21] in magnitude the digits of [shortest], the fewest digits
    that read back as [x] followed by zeros; the names of the values that
    are not finite; and the host's shortest representation for the rest. *)
Definition Number_toString (x : number) : string :=
  match x with
  | S754_nan => "NaN"
  | S754_infinity false => "Infinity"
  | S754_infinity true => "-Infinity"
  | _ =>
      match Num.intValue x with
      | Some n => if Z.abs n <? 10 ^ 21 then pretty (Z.sgn n * shortest (Z.abs n))
                  else Number_toString_host x
      | None => Number_toString_host x
      end
  end.

(** The integer [n] for which [n / 10^f] is closest to [m * 2^e], the
    larger one when two are as close. *)
Definition scaled_round (m : positive) (e : Z) (f : nat) : Z :=
  let p := 10 ^ Z.of_nat f in
  if 0 <=? e then Z.pos m * 2 ^ e * p
  else (2 * Z.pos m * p + 2 ^ (- e)) / 2 ^ (- e + 1).

(** The digits of [n] with a point before the last [f] of them, zeros
    added in front so that a digit stands before the point. *)
Definition fixed_digits (n : Z) (f : nat) : string :=
  let m := pretty (Z.to_N n) in
  let k := String.length m in
  let m := if (k <=? f)%nat then String.concat "" (replicate (f + 1 - k) "0") +:+ m else m in
  let k := String.length m in
  if (f =? 0)%nat then m
  else String.substring 0 (k - f) m +:+ "." +:+ String.substring (k - f) f m.

(** [x.toFixed(f)]. *)
Definition toFixed (x : number) (f : nat) : string :=
  match x with
  | S754_nan | S754_infinity _ => Number_toString x
  | S754_zero _ => fixed_digits 0 f
  | S754_finite s m e =>
      let sign := if s then "-" else "" in
      if (0 <=? e) && (10 ^ 21 <=? Z.pos m * 2 ^ e)
      then sign +:+ Number_toString (S754_finite false m e)
      else sign +:+ fixed_digits (scaled_round m e f) f
  end.

End Printing.

(** The host used for evaluating the script on examples: it agrees with
    ECMAScript on strings of ASCII characters; its two numeric functions are
    reached by no example (magnitudes of [10^21] and more, operands of
    [Number] that are strings or objects). *)
Definition ascii_host : Host := {|
  toLowerCase := Str.map_chars Str.ascii_lower;
  toUpperCase := Str.map_chars Str.ascii_upper;
  Number_toString_host := fun _ => "";
  ToNumber_host := fun _ => Num.NaN;
|}.


(** ** Diagnostics and the state of one file's validation *)

(** The object [{ file, path, message }] that [fail] pushes. *)
Record diag : Type := Diag {
  d_file : string;
  d_path : string;
  d_message : string;
}.

(** The mutable objects of one iteration of the file loop: the arrays
    [errors] and [warnings], the set [seenIds], and, as a record of the
    effects on the outside, the paths handed to [fs.access] so far. *)
Record vstate : Type := VState {
  errors : list diag;
  warnings : list string;
  seenIds : gset string;
  probes : list string;
}.

Definition start : vstate := VState [] [] ∅ [].

(** Statements of the script are state transformers. *)
Definition M (A : Type) : Type := vstate -> A * vstate.

Definition ret {A} (a : A) : M A := fun s => (a, s).

Definition bind {A B} (c : M A) (k : A -> M B) : M B :=
  fun s => let (a, s') := c s in k a s'.

Declare Scope js_scope.
Delimit Scope js_scope with js.
Notation "x <- c ;; k" := (bind c (fun x => k))
  (at level 100, c at next level, right associativity) : js_scope.
Notation "c ;; k" := (bind c (fun _ => k))
  (at level 100, right associativity) : js_scope.
Open Scope js_scope.

(** [if (b) { c }]. *)
Definition when (b : bool) (c : M unit) : M unit :=
  if b then c else ret tt.

(** [fail(errors, file, path, message)]. *)
Definition fail (file path message : string) : M unit :=
  fun s => (tt, VState (errors s ++ [Diag file path message]) (warnings s)
                       (seenIds s) (probes s)).

(** [warnings.push(w)]. *)
Definition warn (w : string) : M unit :=
  fun s => (tt, VState (errors s) (warnings s ++ [w]) (seenIds s) (probes s)).

(** [const seenIds = new Set()]. *)
Definition newSeenIds : M unit :=
  fun s => (tt, VState (errors s) (warnings s) ∅ (probes s)).

(** [seenIds.has(id)]. *)
Definition seenIds_has (id : string) : M bool :=
  fun s => (bool_decide (id ∈ seenIds s), s).

(** [seenIds.add(id)]. *)
Definition seenIds_add (id : string) : M unit :=
  fun s => (tt, VState (errors s) (warnings s) ({[ id ]} ∪ seenIds s) (probes s)).

Definition exec {A} (c : M A) (s : vstate) : vstate := snd (c s).

(** ** The tables of the script *)

Definition RULESET_GLOB : string := "rules/**/ruleset.y{a,}ml".
Definition SELECTORS_PATH : string := "schema/selectors.yml".

Definition ALLOWED_OPS : list string := ["count"; "term_density"; "llm"].
Definition ALLOWED_SEVERITIES : list string := ["low"; "medium"; "high"].
Definition ALLOWED_DIMENSIONS : list string :=
  ["structure"; "answerability"; "neutrality"; "topical_focus"; "entity_binding"].
Definition REQUIRED_WEIGHTS : list string :=
  ["structure"; "answerability"; "neutrality"; "topical_focus"; "entity_binding"].

(** ** Tests on a property that was read *)

(** [typeof x === "number"], with the number. *)
Definition typeof_number (x : option value) : option number :=
  match x with Some (VNum n) => Some n | _ => None end.

(** [typeof x === "string" && SET.has(x)] for one of the tables above. *)
Definition allowed_string (allowed : list string) (x : option value) : bool :=
  match x with
  | Some (VStr s) => bool_decide (s ∈ allowed)
  | _ => false
  end.

(** [x === "lit"]. *)
Definition is_string (x : option value) (lit : string) : bool :=
  match x with
  | Some (VStr s) => bool_decide (s = lit)
  | _ => false
  end.

(** [typeof x !== "string" || x.trim().length === 0]. *)
Definition not_nonempty_string (x : option value) : bool :=
  match x with
  | Some (VStr s) => Str.blank s
  | _ => true
  end.

(** [!Number.isInteger(x) || x < bound]. *)
Definition not_integer_or_below (x : option value) (bound : number) : bool :=
  match typeof_number x with
  | Some n => negb (Num.isInteger n) || Num.ltb n bound
  | None => true
  end.

(** [Number.isInteger(x)]. *)
Definition Number_isInteger (x : option value) : bool :=
  match typeof_number x with
  | Some n => Num.isInteger n
  | None => false
  end.

(** [approxEquals(a, b, eps)]. *)
Definition approxEquals (a b eps : number) : bool :=
  Num.leb (Num.abs (Num.sub a b)) eps.

Definition dquote : string := String "034"%char "".
Definition newline : string := String "010"%char "".

(** ** The semantic validator *)

Section Validator.

Context {host : Host}.

(** The state of the file system: whether [fs.access(path)] succeeds. *)
Variable fs_access : string -> bool.

(** [new Set(Object.keys(selectorsDoc.selectors))]. *)
Variable allowedSelectors : gset string.

(** [await fs.access(ref)], true when it does not throw. *)
Definition access (ref : string) : M bool :=
  fun s => (fs_access ref,
            VState (errors s) (warnings s) (seenIds s) (probes s ++ [ref])).

(** [Number(x)]. *)
Definition Number (x : option value) : number :=
  match x with
  | Some (VNum n) => n
  | None => Num.NaN
  | Some VNull => Num.zero
  | Some (VBool b) => if b then Num.one else Num.zero
  | Some v => ToNumber_host v
  end.

(** *** Top-level checks *)

Definition checkLanguage (file : string) (ruleset : gmap string value) : M unit :=
  match ruleset !! "language" with
  | Some (VStr lang) =>
      let normalized := toLowerCase (Str.trim lang) in
      when (bool_decide (lang ≠ normalized)
            && bool_decide (lang ≠ toUpperCase normalized))
        (warn ("WARN " +:+ file +:+ " language: '" +:+ lang
               +:+ "' unusual formatting; consider 'de' or 'en'.")) ;;
      when (negb (Str.looks_like_bcp47 (Str.trim lang)))
        (warn ("WARN " +:+ file +:+ " language: '" +:+ lang
               +:+ "' doesn't look like a BCP-47 code."))
  | Some _ =>
      warn ("WARN " +:+ file +:+ " language: should be a string (e.g., "
            +:+ dquote +:+ "de" +:+ dquote +:+ ").")
  | None => ret tt
  end.

(** [REQUIRED_WEIGHTS.filter((k) => typeof w[k] !== "number")]. *)
Definition missingWeights (w : gmap string value) : list string :=
  List.filter (fun k => match typeof_number (w !! k) with
                        | Some _ => false
                        | None => true
                        end) REQUIRED_WEIGHTS.

(** [REQUIRED_WEIGHTS.reduce((acc, k) => acc + Number(w[k]), 0)]. *)
Definition weightsSum (w : gmap string value) : number :=
  fold_left (fun acc k => Num.add acc (Number (w !! k))) REQUIRED_WEIGHTS Num.zero.

Definition sumWarning (file : string) (sum : number) : string :=
  "WARN " +:+ file +:+ " weights: sum is " +:+ toFixed sum 6
  +:+ ", expected ~1.0 (Â±1e-4).".

Definition checkWeights (file : string) (ruleset : gmap string value) : M unit :=
  match ruleset !! "weights" with
  | None => ret tt
  | Some (VObj w) =>
      let missing := missingWeights w in
      if (0 <? length missing)%nat then
        warn ("WARN " +:+ file +:+ " weights: missing or non-numeric keys: "
              +:+ Str.join ", " missing)
      else
        let sum := weightsSum w in
        when (negb (approxEquals sum Num.one Num.eps_1e_4))
          (warn (sumWarning file sum))
  | Some _ => fail file "weights" "weights must be an object if provided."
  end.

(** *** Per-check checks *)

Definition checkId (file base : string) (c : gmap string value) : M unit :=
  match c !! "id" with
  | Some (VStr id) =>
      if Str.blank id then
        fail file (base +:+ ".id") "id is required and must be a non-empty string."
      else
        dup <- seenIds_has id ;;
        when dup (fail file (base +:+ ".id") ("duplicate id '" +:+ id +:+ "'")) ;;
        seenIds_add id
  | _ => fail file (base +:+ ".id") "id is required and must be a non-empty string."
  end.

Definition checkSeverity (file base : string) (c : gmap string value) : M unit :=
  when (negb (allowed_string ALLOWED_SEVERITIES (c !! "severity")))
    (fail file (base +:+ ".severity")
       ("severity must be one of: " +:+ Str.join ", " ALLOWED_SEVERITIES)).

Definition checkDimension (file base : string) (c : gmap string value) : M unit :=
  when (negb (allowed_string ALLOWED_DIMENSIONS (c !! "dimension")))
    (fail file (base +:+ ".dimension")
       ("dimension must be one of: " +:+ Str.join ", " ALLOWED_DIMENSIONS)).

Definition checkPenalty (file base : string) (c : gmap string value) : M unit :=
  match typeof_number (c !! "penalty") with
  | Some penalty =>
      if Num.isNaN penalty then
        fail file (base +:+ ".penalty") "penalty must be a number."
      else
        when (Num.ltb penalty Num.zero)
          (fail file (base +:+ ".penalty") "penalty must be >= 0.")
  | None => fail file (base +:+ ".penalty") "penalty must be a number."
  end.

Definition checkMessage (file base : string) (c : gmap string value) : M unit :=
  when (not_nonempty_string (c !! "message"))
    (fail file (base +:+ ".message") "message must be a non-empty string.").

(** [op === "count"]. *)
Definition checkCount (file base : string) (rule : gmap string value) : M unit :=
  match rule !! "selector" with
  | Some (VStr selector) =>
      if Str.blank selector then
        fail file (base +:+ ".rule.selector") "selector is required for op=count."
      else
        when (negb (bool_decide (selector ∈ allowedSelectors)))
          (fail file (base +:+ ".rule.selector")
             ("'" +:+ selector +:+ "' is not defined in " +:+ SELECTORS_PATH))
  | _ => fail file (base +:+ ".rule.selector") "selector is required for op=count."
  end ;;
  let min := rule !! "min" in
  let max := rule !! "max" in
  when (not_integer_or_below min Num.zero)
    (fail file (base +:+ ".rule.min") "min must be an integer >= 0.") ;;
  when (not_integer_or_below max Num.zero)
    (fail file (base +:+ ".rule.max") "max must be an integer >= 0.") ;;
  match typeof_number min, typeof_number max with
  | Some lo, Some hi =>
      when (Num.isInteger lo && Num.isInteger hi && Num.gtb lo hi)
        (fail file (base +:+ ".rule")
           ("min (" +:+ Number_toString lo +:+ ") must be <= max ("
            +:+ Number_toString hi +:+ ")."))
  | _, _ => ret tt
  end.

(** [terms.some((t) => typeof t !== "string" || t.trim().length === 0)]. *)
Definition some_bad_term (terms : list value) : bool :=
  existsb (fun t => not_nonempty_string (Some t)) terms.

(** [op === "term_density"]. *)
Definition checkTermDensity (file base : string) (rule : gmap string value) : M unit :=
  let terms := rule !! "terms" in
  let maxDensity := rule !! "maxDensity" in
  when (match terms with
        | Some (VArr ts) => (length ts =? 0)%nat || some_bad_term ts
        | _ => true
        end)
    (fail file (base +:+ ".rule.terms") "terms must be a non-empty array of strings.") ;;
  when (match typeof_number maxDensity with
        | Some d => Num.isNaN d || Num.ltb d Num.zero || Num.gtb d Num.one
        | None => true
        end)
    (fail file (base +:+ ".rule.maxDensity")
       "maxDensity must be a number between 0 and 1.").

(** [op === "llm"]. *)
Definition checkLlm (file base : string) (rule : gmap string value) : M unit :=
  match rule !! "promptRef" with
  | Some (VStr ref) =>
      if Str.blank ref then
        fail file (base +:+ ".rule.promptRef") "promptRef is required for op=llm."
      else
        found <- access ref ;;
        when (negb found)
          (fail file (base +:+ ".rule.promptRef") ("file not found '" +:+ ref +:+ "'"))
  | _ => fail file (base +:+ ".rule.promptRef") "promptRef is required for op=llm."
  end ;;
  match rule !! "introBlocks" with
  | Some ib =>
      when (not_integer_or_below (Some ib) Num.one)
        (fail file (base +:+ ".rule.introBlocks") "introBlocks must be an integer >= 1.")
  | None => ret tt
  end.

(** The part of the loop body after the check of [rule]. *)
Definition checkRule (file base : string) (rule : gmap string value) : M unit :=
  let op := rule !! "op" in
  if negb (allowed_string ALLOWED_OPS op) then
    fail file (base +:+ ".rule.op")
      ("op must be one of: " +:+ Str.join ", " ALLOWED_OPS)
  else
    when (is_string op "count") (checkCount file base rule) ;;
    when (is_string op "term_density") (checkTermDensity file base rule) ;;
    when (is_string op "llm") (checkLlm file base rule).

(** The checks of the fields every entry has, in the order of the loop
    body: id, severity, dimension, penalty, message. *)
Definition checkFields (file base : string) (c : gmap string value) : M unit :=
  checkId file base c ;;
  checkSeverity file base c ;;
  checkDimension file base c ;;
  checkPenalty file base c ;;
  checkMessage file base c.

(** [`checks[${i}]`]. *)
Definition basePath (i : nat) : string := "checks[" +:+ pretty i +:+ "]".

(** The body of [for (let i = 0; i < checks.length; i++)]. *)
Definition checkEntry (file : string) (i : nat) (c : value) : M unit :=
  let base := basePath i in
  match c with
  | VObj c =>
      checkFields file base c ;;
      match c !! "rule" with
      | Some (VObj rule) => checkRule file base rule
      | _ => fail file (base +:+ ".rule") "rule is required and must be an object."
      end
  | _ => fail file base "check must be an object."
  end.

Fixpoint checkLoop (file : string) (i : nat) (checks : list value) : M unit :=
  match checks with
  | [] => ret tt
  | c :: rest => checkEntry file i c ;; checkLoop file (S i) rest
  end.

(** [Array.isArray(ruleset.checks) ? ruleset.checks : []]. *)
Definition checksOf (ruleset : gmap string value) : list value :=
  match ruleset !! "checks" with
  | Some (VArr checks) => checks
  | _ => []
  end.

(** Everything the loop over the files does to [errors] and [warnings]
    once the root of the document is known to be an object. *)
Definition validateRuleset (file : string) (ruleset : gmap string value) : M unit :=
  checkLanguage file ruleset ;;
  checkWeights file ruleset ;;
  when (negb (isArray (ruleset !! "checks")))
    (fail file "checks" "checks must be an array.") ;;
  let checks := checksOf ruleset in
  newSeenIds ;;
  checkLoop file 0 checks.

End Validator.

(** ** The loop over the files, the reporter and the exit code *)

(** The outcome of [fs.readFile] followed by [YAML.parse]: the exception,
    as [String(e)] prints it, or the parsed document. *)
Inductive load : Type :=
  | Threw (e : string)
  | Parsed (v : value).

(** What the script sees of the outside: the files, what the glob matches
    (in the order it returns them), and which paths can be accessed. *)
Record world : Type := World {
  readYaml : string -> load;
  glob : list string;
  fs_access : string -> bool;
}.

Inductive line : Type :=
  | Log (text : string)      (* console.log *)
  | Warn (text : string)     (* console.warn *)
  | Error (text : string).   (* console.error *)

(** [console.error(`FAIL ${e.file} ${e.path}: ${e.message}`)]. *)
Definition failLine (e : diag) : line :=
  Error ("FAIL " +:+ d_file e +:+ " " +:+ d_path e +:+ ": " +:+ d_message e).

(** What the file loop carries from one file to the next: the flag
    [failedAny], and the lines printed so far. *)
Record pstate : Type := PState {
  failedAny : bool;
  console : list line;
}.

(** From [let ruleset = null] to the test of the root's shape. *)
Definition parseRuleset (file : string) (l : load) : M value :=
  ruleset <- match l with
             | Threw e => fail file "(root)" ("YAML parse error: " +:+ e) ;; ret VNull
             | Parsed v => ret v
             end ;;
  match ruleset with
  | VNull => fail file "(root)" "Ruleset is empty (YAML parsed to null)."
  | _ => when (negb (isObject ruleset)) (fail file "(root)" "Ruleset must be an object.")
  end ;;
  ret ruleset.

Section Run.

Context {host : Host}.
Variable w : world.

(** The body of [for (const file of rulesetFiles)].  When no error was
    recorded for the root, the root is an object ([parseRuleset_object]
    below), so the last case is never taken. *)
Definition processFile (allowedSelectors : gset string)
    (p : pstate) (file : string) : pstate :=
  let (ruleset, s) := parseRuleset file (readYaml w file) start in
  if (0 <? length (errors s))%nat then
    PState true (console p ++ map failLine (errors s))
  else
    match ruleset with
    | VObj r =>
        let s := exec (validateRuleset (fs_access w) allowedSelectors file r) s in
        let out := (console p ++ map Warn (warnings s))%list in
        if (0 <? length (errors s))%nat then
          PState true (out ++ map failLine (errors s))
        else
          PState (failedAny p) (out ++ [Log ("OK   semantic " +:+ file)])
    | _ => p
    end.

(** The errors, the warnings and the probes of one file at the point where
    the loop body starts printing. *)
Definition diagnose (allowedSelectors : gset string) (file : string) : vstate :=
  let (ruleset, s) := parseRuleset file (readYaml w file) start in
  if (0 <? length (errors s))%nat then s
  else match ruleset with
       | VObj r => exec (validateRuleset (fs_access w) allowedSelectors file r) s
       | _ => s
       end.

(** The lines the loop body prints for one file. *)
Definition printed (allowedSelectors : gset string) (file : string) : list line :=
  console (processFile allowedSelectors (PState false []) file).

(** The selector table, when the guard after the load lets it through. *)
Definition loadSelectors : option (gmap string value) :=
  let selectorsDoc := match readYaml w SELECTORS_PATH with
                      | Threw _ => VNull
                      | Parsed v => v
                      end in
  match selectorsDoc with
  | VObj doc => match doc !! "selectors" with
                | Some (VObj selectors) => Some selectors
                | _ => None
                end
  | _ => None
  end.

Definition usage : string :=
  "FAIL " +:+ SELECTORS_PATH +:+ ": missing/empty/invalid. Expected:" +:+ newline
  +:+ "version: v1" +:+ newline +:+ "selectors:" +:+ newline
  +:+ "  h1: { kind: heading, level: 1 }" +:+ newline
  +:+ "  p: { kind: paragraph }" +:+ newline.

(** The script: the lines it prints and the code it exits with. *)
Definition main : list line * Z :=
  match loadSelectors with
  | None => ([Error usage], 1)
  | Some selectors =>
      let allowedSelectors := dom selectors in
      let rulesetFiles := glob w in
      if (length rulesetFiles =? 0)%nat then
        ([Log ("OK semantic: no files matched " +:+ RULESET_GLOB)], 0)
      else
        let p := fold_left (processFile allowedSelectors) rulesetFiles
                           (PState false []) in
        (console p, if failedAny p then 1 else 0)
  end.

End Run.

(** * The other scripts

    The linter of YAML syntax, the schema validator and the compiler walk the
    same tree as the semantic validator.  None of them catches what
    [fs.readFile] throws, and the last two do not catch what [YAML.parse]
    throws either: an exception that is not caught ends the script. *)

(** The outcome of [fs.readFile(path, "utf8")]: the exception, as
    [String(e)] prints it, or the text. *)
Inductive read : Type :=
  | ReadError (e : string)
  | Content (raw : string).

(** The tree the scripts run on: the files, the parser (its exception as
    [String(e)] prints it), what each glob pattern matches, and which paths
    can be accessed. *)
Record tree : Type := Tree {
  readFile : string -> read;
  YAML_parse : string -> load;
  glob_of : string -> list string;
  accessible : string -> bool;
}.

(** The [try] block of the semantic validator: read, then parse. *)
Definition readYaml_of (t : tree) (path : string) : load :=
  match readFile t path with
  | ReadError e => Threw e
  | Content raw => YAML_parse t raw
  end.

(** What the semantic validator sees of a tree. *)
Definition world_of (t : tree) : world :=
  World (readYaml_of t) (glob_of t RULESET_GLOB) (accessible t).

(** What ends a script early: a rejected promise or a parser exception, by
    its text; the read of a property of [null]; or the conversion to a
    string of an object that has no primitive value. *)
Inductive thrown : Type :=
  | Rejected (e : string)
  | NullProperty (name : string)
  | NoPrimitive.

(** How a script ends: by [process.exit(code)], or by an exception that is
    not caught; in both cases after the lines it printed. *)
Inductive outcome : Type :=
  | Exited (out : list line) (code : Z)
  | Uncaught (out : list line) (e : thrown).

(** ** lint-yaml *)

Definition LINT_GLOB : string := "rules/**/*.y{a,}ml".

(** The loop [for (const file of files)] of the linter, from the file at the
    head of [files] on. *)
Fixpoint lintLoop (t : tree) (files : list string) (failed : bool) (out : list line)
    : outcome :=
  match files with
  | [] => Exited out (if failed then 1 else 0)
  | file :: rest =>
      match readFile t file with
      | ReadError e => Uncaught out (Rejected e)
      | Content raw =>
          match YAML_parse t raw with
          | Parsed _ => lintLoop t rest failed (out ++ [Log ("OK  " +:+ file)])
          | Threw err =>
              lintLoop t rest true (out ++ [Error ("FAIL " +:+ file); Error err])
          end
      end
  end.

Definition lintYaml (t : tree) : outcome :=
  let files := glob_of t LINT_GLOB in
  if (length files =? 0)%nat then
    Exited [Log "No rules YAML files found under rules/**"] 0
  else lintLoop t files false [].

(** ** The schema validator *)

Definition SCHEMA_PATH : string := "schema/ruleset.schema.json".

(** An error object of the schema library: [instancePath], and [message],
    which the library may leave undefined. *)
Record ajv_error : Type := AjvError {
  instancePath : string;
  message : option string;
}.

(** What [validate(data)] returns, with [validate.errors] when it is false. *)
Inductive verdict : Type :=
  | Valid
  | Invalid (reported : option (list ajv_error)).

(** [JSON.parse(schemaRaw)] followed by [ajv.compile(schema)]: an exception,
    or the function [validate]. *)
Inductive schema_load : Type :=
  | SchemaThrew (e : string)
  | Compiled (validate : value -> verdict).

(** [` - ${path}: ${e.message}`] with [path = e.instancePath || "(root)"]. *)
Definition schemaErrorLine (e : ajv_error) : line :=
  let path := match instancePath e with
              | EmptyString => "(root)"
              | p => p
              end in
  Error (" - " +:+ path +:+ ": "
         +:+ match message e with Some m => m | None => "undefined" end).

Section Schema.

(** The library calls that turn the text of the schema into [validate]. *)
Variable compileSchema : string -> schema_load.

Fixpoint schemaLoop (t : tree) (validate : value -> verdict)
    (files : list string) (failed : bool) (out : list line) : outcome :=
  match files with
  | [] => Exited out (if failed then 1 else 0)
  | file :: rest =>
      match readFile t file with
      | ReadError e => Uncaught out (Rejected e)
      | Content raw =>
          match YAML_parse t raw with
          | Threw e => Uncaught out (Rejected e)
          | Parsed data =>
              match validate data with
              | Invalid reported =>
                  schemaLoop t validate rest true
                    (out ++ Error ("FAIL schema " +:+ file)
                         :: map schemaErrorLine (match reported with
                                                 | Some es => es
                                                 | None => []
                                                 end))
              | Valid =>
                  schemaLoop t validate rest failed
                    (out ++ [Log ("OK   schema " +:+ file)])
              end
          end
      end
  end.

Definition validateSchema (t : tree) : outcome :=
  match readFile t SCHEMA_PATH with
  | ReadError e => Uncaught [] (Rejected e)
  | Content schemaRaw =>
      match compileSchema schemaRaw with
      | SchemaThrew e => Uncaught [] (Rejected e)
      | Compiled validate =>
          let files := glob_of t RULESET_GLOB in
          if (length files =? 0)%nat then
            Exited [Log "No ruleset.yml files found under rules/**"] 0
          else schemaLoop t validate files false []
      end
  end.

End Schema.

(** ** The compiler *)

(** What the compiler meets outside the tree: whether [fs.mkdir] throws,
    whether the [fs.writeFile] of a turn of the loop throws, and the time
    [new Date().toISOString()] returns in that turn. *)
Record disk : Type := Disk {
  mkdir_error : option string;
  write_error : nat -> string -> option string;
  clock : nat -> string;
}.

(** One call of [fs.writeFile] that returned: the path, and the object whose
    JSON text was written.  A document is a finite tree of the values above,
    on which [JSON.stringify] returns. *)
Record write : Type := WriteFile {
  outPath : string;
  payload : gmap string value;
}.

(** How the compiler ends: normally or by an exception that is not caught,
    in both cases after the lines it printed and the files it wrote. *)
Inductive compiled : Type :=
  | Done (out : list line) (writes : list write)
  | Aborted (out : list line) (writes : list write) (e : thrown).

Section Compiler.

Context {host : Host}.

(** [path.join(a, b)]. *)
Variable path_join : string -> string -> string.

(** The own enumerable properties of a string, as the spread syntax copies
    them. *)
Variable string_properties : string -> gmap string value.

(** The conversion to a string of a template literal; [None] when it
    throws.  An object is converted by its method [toString]: the inherited
    one gives [[object Object]], but a key [toString] of the object itself
    hides it, and what a document holds there cannot be called; the
    inherited [valueOf] then returns the object, which is not a primitive
    value, and a key [valueOf] cannot be called either.  An array joins the
    conversions of its elements, [null] counting as the empty string. *)
Fixpoint ToString (v : value) : option string :=
  match v with
  | VNull => Some "null"
  | VBool b => Some (if b then "true" else "false")
  | VNum x => Some (Number_toString x)
  | VStr s => Some s
  | VArr items =>
      let element x := match x with
                       | VNull => Some ""
                       | _ => ToString x
                       end in
      Str.join "," <$>
        (fix elements (xs : list value) : option (list string) :=
           match xs with
           | [] => Some []
           | x :: rest =>
               match element x, elements rest with
               | Some s, Some ss => Some (s :: ss)
               | _, _ => None
               end
           end) items
  | VObj fields =>
      match fields !! "toString" with
      | Some _ => None
      | None => Some "[object Object]"
      end
  end.

(** [`${ruleset.id}.json`]: the read of [id] throws when [ruleset] is null,
    and the conversion of the id can throw. *)
Definition outNameOf (ruleset : value) : thrown + string :=
  match ruleset with
  | VNull => inl (NullProperty "id")
  | VObj fields =>
      match fields !! "id" with
      | Some id =>
          match ToString id with
          | Some text => inr (text +:+ ".json")
          | None => inl NoPrimitive
          end
      | None => inr ("undefined" +:+ ".json")
      end
  | _ => inr ("undefined" +:+ ".json")
  end.

(** The properties [{ ...ruleset }] copies. *)
Definition spread (ruleset : value) : gmap string value :=
  match ruleset with
  | VObj fields => fields
  | VArr items => list_to_map (imap (fun i x => (pretty i, x)) items)
  | VStr s => string_properties s
  | _ => ∅
  end.

(** [{ ...ruleset, createdAt: new Date().toISOString() }]. *)
Definition payloadOf (ruleset : value) (now : string) : gmap string value :=
  <[ "createdAt" := VStr now ]> (spread ruleset).

(** The loop [for (const file of files)] of the compiler, from the file at
    the head of [files] on, in turn [k]. *)
Fixpoint compileLoop (t : tree) (d : disk) (files : list string) (k : nat)
    (out : list line) (writes : list write) : compiled :=
  match files with
  | [] => Done out writes
  | file :: rest =>
      match readFile t file with
      | ReadError e => Aborted out writes (Rejected e)
      | Content raw =>
          match YAML_parse t raw with
          | Threw e => Aborted out writes (Rejected e)
          | Parsed ruleset =>
              match outNameOf ruleset with
              | inl e => Aborted out writes e
              | inr outName =>
                  let outPath := path_join "dist" outName in
                  let payload := payloadOf ruleset (clock d k) in
                  match write_error d k outPath with
                  | Some e => Aborted out writes (Rejected e)
                  | None =>
                      compileLoop t d rest (S k)
                        (out ++ [Log ("Wrote " +:+ outPath)])
                        (writes ++ [WriteFile outPath payload])
                  end
              end
          end
      end
  end.

Definition compile (t : tree) (d : disk) : compiled :=
  match mkdir_error d with
  | Some e => Aborted [] [] (Rejected e)
  | None => compileLoop t d (glob_of t RULESET_GLOB) 0 [] []
  end.

End Compiler.

(** * What the statements add to the state

    The lists of errors, warnings and probes that each part of the loop body
    adds, as functions of what it reads.  The lemmas of the last part relate
    them to the statements above. *)

(** The state after [E] was pushed on [errors]. *)
Definition emit (E : list diag) (s : vstate) : vstate :=
  VState (errors s ++ E) (warnings s) (seenIds s) (probes s).

(** The state after [W] was pushed on [warnings]. *)
Definition note (W : list string) (s : vstate) : vstate :=
  VState (errors s) (warnings s ++ W) (seenIds s) (probes s).

Section BlockErrors.

Context {host : Host}.
Variable fs : string -> bool.
Variable allowedSelectors : gset string.
Variables file base : string.

(** The id of an entry when the check of [id] accepts it. *)
Definition acceptedId (id : option value) : option string :=
  match id with
  | Some (VStr s) => if Str.blank s then None else Some s
  | _ => None
  end.

Definition idErrors (id : option value) (seen : gset string) : list diag :=
  match acceptedId id with
  | Some s =>
      if bool_decide (s ∈ seen)
      then [Diag file (base +:+ ".id") ("duplicate id '" +:+ s +:+ "'")]
      else []
  | None =>
      [Diag file (base +:+ ".id") "id is required and must be a non-empty string."]
  end.

Definition idSeen (id : option value) (seen : gset string) : gset string :=
  match acceptedId id with
  | Some s => {[ s ]} ∪ seen
  | None => seen
  end.

Definition severityErrors (severity : option value) : list diag :=
  if allowed_string ALLOWED_SEVERITIES severity then []
  else [Diag file (base +:+ ".severity") "severity must be one of: low, medium, high"].

Definition dimensionErrors (dimension : option value) : list diag :=
  if allowed_string ALLOWED_DIMENSIONS dimension then []
  else [Diag file (base +:+ ".dimension")
          "dimension must be one of: structure, answerability, neutrality, topical_focus, entity_binding"].

Definition penaltyErrors (penalty : option value) : list diag :=
  match typeof_number penalty with
  | Some p =>
      if Num.isNaN p then [Diag file (base +:+ ".penalty") "penalty must be a number."]
      else if Num.ltb p Num.zero
           then [Diag file (base +:+ ".penalty") "penalty must be >= 0."]
           else []
  | None => [Diag file (base +:+ ".penalty") "penalty must be a number."]
  end.

Definition messageErrors (message : option value) : list diag :=
  if not_nonempty_string message
  then [Diag file (base +:+ ".message") "message must be a non-empty string."]
  else [].

(** What the five checks of [checkFields] push after the one of [id]. *)
Definition plainFieldErrors (c : gmap string value) : list diag :=
  severityErrors (c !! "severity") ++ dimensionErrors (c !! "dimension")
  ++ penaltyErrors (c !! "penalty") ++ messageErrors (c !! "message").

Definition selectorErrors (selector : option value) : list diag :=
  match selector with
  | Some (VStr sel) =>
      if Str.blank sel
      then [Diag file (base +:+ ".rule.selector") "selector is required for op=count."]
      else if bool_decide (sel ∈ allowedSelectors) then []
           else [Diag file (base +:+ ".rule.selector")
                   ("'" +:+ sel +:+ "' is not defined in schema/selectors.yml")]
  | _ => [Diag file (base +:+ ".rule.selector") "selector is required for op=count."]
  end.

Definition minErrors (min : option value) : list diag :=
  if not_integer_or_below min Num.zero
  then [Diag file (base +:+ ".rule.min") "min must be an integer >= 0."]
  else [].

Definition maxErrors (max : option value) : list diag :=
  if not_integer_or_below max Num.zero
  then [Diag file (base +:+ ".rule.max") "max must be an integer >= 0."]
  else [].

Definition rangeErrors (min max : option value) : list diag :=
  match typeof_number min, typeof_number max with
  | Some lo, Some hi =>
      if Num.isInteger lo && Num.isInteger hi && Num.gtb lo hi
      then [Diag file (base +:+ ".rule")
              ("min (" +:+ Number_toString lo +:+ ") must be <= max ("
               +:+ Number_toString hi +:+ ").")]
      else []
  | _, _ => []
  end.

Definition countErrors (rule : gmap string value) : list diag :=
  selectorErrors (rule !! "selector") ++ minErrors (rule !! "min")
  ++ maxErrors (rule !! "max") ++ rangeErrors (rule !! "min") (rule !! "max").

Definition termsErrors (terms : option value) : list diag :=
  if match terms with
     | Some (VArr ts) => (length ts =? 0)%nat || some_bad_term ts
     | _ => true
     end
  then [Diag file (base +:+ ".rule.terms") "terms must be a non-empty array of strings."]
  else [].

Definition maxDensityErrors (maxDensity : option value) : list diag :=
  if match typeof_number maxDensity with
     | Some d => Num.isNaN d || Num.ltb d Num.zero || Num.gtb d Num.one
     | None => true
     end
  then [Diag file (base +:+ ".rule.maxDensity")
          "maxDensity must be a number between 0 and 1."]
  else [].

Definition termDensityErrors (rule : gmap string value) : list diag :=
  termsErrors (rule !! "terms") ++ maxDensityErrors (rule !! "maxDensity").

(** The errors of the check of [promptRef], and the paths it probes. *)
Definition promptRefErrors (promptRef : option value) : list diag :=
  match promptRef with
  | Some (VStr ref) =>
      if Str.blank ref
      then [Diag file (base +:+ ".rule.promptRef") "promptRef is required for op=llm."]
      else if fs ref then []
           else [Diag file (base +:+ ".rule.promptRef")
                   ("file not found '" +:+ ref +:+ "'")]
  | _ => [Diag file (base +:+ ".rule.promptRef") "promptRef is required for op=llm."]
  end.

Definition promptRefProbes (promptRef : option value) : list string :=
  match promptRef with
  | Some (VStr ref) => if Str.blank ref then [] else [ref]
  | _ => []
  end.

Definition introBlocksErrors (introBlocks : option value) : list diag :=
  match introBlocks with
  | Some ib =>
      if not_integer_or_below (Some ib) Num.one
      then [Diag file (base +:+ ".rule.introBlocks")
              "introBlocks must be an integer >= 1."]
      else []
  | None => []
  end.

Definition llmErrors (rule : gmap string value) : list diag :=
  promptRefErrors (rule !! "promptRef") ++ introBlocksErrors (rule !! "introBlocks").

End BlockErrors.

Section EntryErrors.

Context {host : Host}.
Variable fs : string -> bool.
Variable allowedSelectors : gset string.
Variable file : string.

Definition ruleErrors (base : string) (rule : gmap string value) : list diag :=
  let op := rule !! "op" in
  if allowed_string ALLOWED_OPS op then
    (if is_string op "count" then countErrors allowedSelectors file base rule else [])
    ++ (if is_string op "term_density" then termDensityErrors file base rule else [])
    ++ (if is_string op "llm" then llmErrors fs file base rule else [])
  else
    [Diag file (base +:+ ".rule.op") "op must be one of: count, term_density, llm"].

Definition ruleProbes (rule : gmap string value) : list string :=
  if is_string (rule !! "op") "llm" then promptRefProbes (rule !! "promptRef") else [].

Definition entryErrors (i : nat) (c : value) (seen : gset string) : list diag :=
  match c with
  | VObj c =>
      idErrors file (basePath i) (c !! "id") seen
      ++ plainFieldErrors file (basePath i) c
      ++ match c !! "rule" with
         | Some (VObj rule) => ruleErrors (basePath i) rule
         | _ => [Diag file (basePath i +:+ ".rule")
                   "rule is required and must be an object."]
         end
  | _ => [Diag file (basePath i) "check must be an object."]
  end.

Definition entrySeen (c : value) (seen : gset string) : gset string :=
  match c with
  | VObj c => idSeen (c !! "id") seen
  | _ => seen
  end.

Definition entryProbes (c : value) : list string :=
  match c with
  | VObj c => match c !! "rule" with
              | Some (VObj rule) => ruleProbes rule
              | _ => []
              end
  | _ => []
  end.

Fixpoint loopErrors (i : nat) (checks : list value) (seen : gset string) : list diag :=
  match checks with
  | [] => []
  | c :: rest => entryErrors i c seen ++ loopErrors (S i) rest (entrySeen c seen)
  end.

Fixpoint loopSeen (checks : list value) (seen : gset string) : gset string :=
  match checks with
  | [] => seen
  | c :: rest => loopSeen rest (entrySeen c seen)
  end.

Fixpoint loopProbes (checks : list value) : list string :=
  match checks with
  | [] => []
  | c :: rest => entryProbes c ++ loopProbes rest
  end.

End EntryErrors.

Section DocumentErrors.

Context {host : Host}.
Variable fs : string -> bool.
Variable allowedSelectors : gset string.
Variable file : string.

Definition unusualFormatting (lang : string) : string :=
  "WARN " +:+ file +:+ " language: '" +:+ lang
  +:+ "' unusual formatting; consider 'de' or 'en'.".

Definition notBcp47 (lang : string) : string :=
  "WARN " +:+ file +:+ " language: '" +:+ lang
  +:+ "' doesn't look like a BCP-47 code.".

Definition notAString : string :=
  "WARN " +:+ file +:+ " language: should be a string (e.g., "
  +:+ dquote +:+ "de" +:+ dquote +:+ ").".

Definition languageWarnings (language : option value) : list string :=
  match language with
  | Some (VStr lang) =>
      let normalized := toLowerCase (Str.trim lang) in
      (if bool_decide (lang ≠ normalized)
          && bool_decide (lang ≠ toUpperCase normalized)
       then [unusualFormatting lang] else [])
      ++ (if Str.looks_like_bcp47 (Str.trim lang) then [] else [notBcp47 lang])
  | Some _ => [notAString]
  | None => []
  end.

Definition weightsWarnings (weights : option value) : list string :=
  match weights with
  | Some (VObj w) =>
      if (0 <? length (missingWeights w))%nat then
        ["WARN " +:+ file +:+ " weights: missing or non-numeric keys: "
         +:+ Str.join ", " (missingWeights w)]
      else if approxEquals (weightsSum w) Num.one Num.eps_1e_4 then []
           else [sumWarning file (weightsSum w)]
  | _ => []
  end.

Definition weightsErrors (weights : option value) : list diag :=
  match weights with
  | None | Some (VObj _) => []
  | Some _ => [Diag file "weights" "weights must be an object if provided."]
  end.

Definition checksErrors (checks : option value) : list diag :=
  if isArray checks then [] else [Diag file "checks" "checks must be an array."].

(** The errors of a document, in the order in which they are pushed. *)
Definition documentErrors (r : gmap string value) : list diag :=
  weightsErrors (r !! "weights") ++ checksErrors (r !! "checks")
  ++ loopErrors fs allowedSelectors file 0 (checksOf r) ∅.

(** The warnings of a document, in the order in which they are pushed. *)
Definition documentWarnings (r : gmap string value) : list string :=
  languageWarnings (r !! "language") ++ weightsWarnings (r !! "weights").

End DocumentErrors.

(** The errors recorded for the root of a file. *)
Definition rootErrors (file : string) (l : load) : list diag :=
  match l with
  | Threw e =>
      [Diag file "(root)" ("YAML parse error: " +:+ e);
       Diag file "(root)" "Ruleset is empty (YAML parsed to null)."]
  | Parsed VNull => [Diag file "(root)" "Ruleset is empty (YAML parsed to null)."]
  | Parsed (VObj _) => []
  | Parsed _ => [Diag file "(root)" "Ruleset must be an object."]
  end.

Definition rootValue (l : load) : value :=
  match l with Threw _ => VNull | Parsed v => v end.

Definition nonempty {A} (l : list A) : bool := (0 <? length l)%nat.

(** The lines of one file, from its errors and warnings. *)
Definition report (file : string) (s : vstate) : list line :=
  map Warn (warnings s)
  ++ (if nonempty (errors s) then map failLine (errors s)
      else [Log ("OK   semantic " +:+ file)]).

(** The errors of a list that are located at [path]. *)
Definition at_path (path : string) (d : diag) : bool := String.eqb (d_path d) path.

(** Every error of [l] is located at [base] followed by one of [suffixes]. *)
Definition paths_in (base : string) (suffixes : list string) (l : list diag) : Prop :=
  Forall (fun d => exists suffix, suffix ∈ suffixes /\ d_path d = base +:+ suffix) l.

(** The suffixes of the fields other than [penalty]. *)
Definition otherSuffixes : list string :=
  [".id"; ".severity"; ".dimension"; ".message"; ".rule"; ".rule.op";
   ".rule.selector"; ".rule.min"; ".rule.max"; ".rule.terms";
   ".rule.maxDensity"; ".rule.promptRef"; ".rule.introBlocks"].

(** The values that are numbers denoting an integer that is not negative. *)
Definition nonneg_integer (x : option value) : bool :=
  match x with
  | Some (VNum n) =>
      match Num.intValue n with
      | Some z => 0 <=? z
      | None => false
      end
  | _ => false
  end.

(** Whether [s] starts with [p]. *)
Fixpoint starts_with (p s : string) : bool :=
  match p, s with
  | EmptyString, _ => true
  | String a p', String b s' => Ascii.eqb a b && starts_with p' s'
  | String _ _, EmptyString => false
  end.

(** The errors that report a duplicate id. *)
Definition is_duplicate (d : diag) : bool :=
  starts_with "duplicate id '" (d_message d).

Definition duplicateError (file : string) (k : nat) (id : string) : diag :=
  Diag file (basePath k +:+ ".id") ("duplicate id '" +:+ id +:+ "'").

(** The id of an entry, when the entry is an object whose id is accepted: a
    string that is not blank. *)
Definition entryId (c : value) : option string :=
  match c with
  | VObj c => acceptedId (c !! "id")
  | _ => None
  end.

(** The id of entry [k] when it is also the id of an earlier entry. *)
Definition repeatsEarlier (checks : list value) (k : nat) : option string :=
  match checks !! k with
  | Some c =>
      match entryId c with
      | Some id => if bool_decide (Some id ∈ entryId <$> take k checks)
                   then Some id else None
      | None => None
      end
  | None => None
  end.

(** One error for each entry that repeats the id of an earlier one, in the
    order of the entries. *)
Definition expectedDuplicates (file : string) (checks : list value) : list diag :=
  omap (fun k => duplicateError file k <$> repeatsEarlier checks k)
       (seq 0 (length checks)).

(** No error of the list reports a duplicate id. *)
Definition no_duplicate (l : list diag) : Prop :=
  Forall (fun d => is_duplicate d = false) l.

(** * Well-formed documents

    What a document must be for the validator to record no error, stated on
    the document alone. *)

Section WellFormed.

(** Which paths can be accessed, and the selector table. *)
Variable fs : string -> bool.
Variable allowedSelectors : gset string.

(** A string that is not blank. *)
Definition nonblank_string (x : option value) : Prop :=
  exists s, x = Some (VStr s) /\ Str.blank s = false.

Definition valid_count (rule : gmap string value) : Prop :=
  (exists selector,
     rule !! "selector" = Some (VStr selector) /\ Str.blank selector = false
     /\ selector ∈ allowedSelectors)
  /\ exists lo hi,
       rule !! "min" = Some (VNum lo) /\ rule !! "max" = Some (VNum hi)
       /\ (exists a, Num.intValue lo = Some a /\ 0 <= a)
       /\ (exists b, Num.intValue hi = Some b /\ 0 <= b)
       /\ Num.leb lo hi = true.

Definition valid_term_density (rule : gmap string value) : Prop :=
  (exists terms,
     rule !! "terms" = Some (VArr terms) /\ terms ≠ []
     /\ Forall (fun t => nonblank_string (Some t)) terms)
  /\ exists d,
       rule !! "maxDensity" = Some (VNum d)
       /\ Num.leb Num.zero d = true /\ Num.leb d Num.one = true.

Definition valid_llm (rule : gmap string value) : Prop :=
  (exists ref,
     rule !! "promptRef" = Some (VStr ref) /\ Str.blank ref = false /\ fs ref = true)
  /\ (rule !! "introBlocks" = None
      \/ exists n,
           rule !! "introBlocks" = Some (VNum n)
           /\ Num.isInteger n = true /\ Num.leb Num.one n = true).

Definition valid_rule (rule : gmap string value) : Prop :=
  (rule !! "op" = Some (VStr "count") /\ valid_count rule)
  \/ (rule !! "op" = Some (VStr "term_density") /\ valid_term_density rule)
  \/ (rule !! "op" = Some (VStr "llm") /\ valid_llm rule).

Definition valid_entry (c : value) : Prop :=
  exists fields,
    c = VObj fields
    /\ nonblank_string (fields !! "id")
    /\ (exists s, fields !! "severity" = Some (VStr s) /\ s ∈ ["low"; "medium"; "high"])
    /\ (exists d, fields !! "dimension" = Some (VStr d)
                  /\ d ∈ ["structure"; "answerability"; "neutrality";
                          "topical_focus"; "entity_binding"])
    /\ (exists p, fields !! "penalty" = Some (VNum p) /\ Num.leb Num.zero p = true)
    /\ nonblank_string (fields !! "message")
    /\ exists rule, fields !! "rule" = Some (VObj rule) /\ valid_rule rule.

Definition well_formed (ruleset : gmap string value) : Prop :=
  (ruleset !! "weights" = None \/ exists w, ruleset !! "weights" = Some (VObj w))
  /\ exists checks,
       ruleset !! "checks" = Some (VArr checks)
       /\ Forall valid_entry checks
       /\ NoDup (omap entryId checks).

End WellFormed.

(** * What the other scripts print for one file *)

(** Whether a file can be read, and whether it can be read and parsed. *)
Definition readable (t : tree) (file : string) : bool :=
  match readFile t file with Content _ => true | ReadError _ => false end.

Definition loads (t : tree) (file : string) : bool :=
  match readYaml_of t file with Parsed _ => true | Threw _ => false end.

(** The lines of the linter for a file that can be read. *)
Definition lintLines (t : tree) (file : string) : list line :=
  match readFile t file with
  | ReadError _ => []
  | Content raw =>
      match YAML_parse t raw with
      | Parsed _ => [Log ("OK  " +:+ file)]
      | Threw err => [Error ("FAIL " +:+ file); Error err]
      end
  end.

(** The lines of the schema validator for a file that can be read and
    parsed, and whether the file conforms. *)
Definition schemaLines (validate : value -> verdict) (t : tree) (file : string)
    : list line :=
  match readYaml_of t file with
  | Threw _ => []
  | Parsed data =>
      match validate data with
      | Valid => [Log ("OK   schema " +:+ file)]
      | Invalid reported =>
          Error ("FAIL schema " +:+ file)
          :: map schemaErrorLine (match reported with Some es => es | None => [] end)
      end
  end.

Definition conforms (validate : value -> verdict) (t : tree) (file : string) : bool :=
  match readYaml_of t file with
  | Threw _ => false
  | Parsed data => match validate data with Valid => true | Invalid _ => false end
  end.

Section CompilerSteps.

Context {host : Host}.
Variable path_join : string -> string -> string.
Variable string_properties : string -> gmap string value.

(** What turn [k] of the compiler's loop does with [file]: the exception it
    ends with, or the file it writes. *)
Definition compileFile (t : tree) (d : disk) (k : nat) (file : string)
    : thrown + write :=
  match readYaml_of t file with
  | Threw e => inl (Rejected e)
  | Parsed ruleset =>
      match outNameOf ruleset with
      | inl e => inl e
      | inr outName =>
          match write_error d k (path_join "dist" outName) with
          | Some e => inl (Rejected e)
          | None => inr (WriteFile (path_join "dist" outName)
                           (payloadOf string_properties ruleset (clock d k)))
          end
      end
  end.

(** The writes of the turns [k], [k + 1], ... on [files], up to the first
    turn that throws, with what it throws. *)
Fixpoint compileSteps (t : tree) (d : disk) (k : nat) (files : list string)
    : list write * option thrown :=
  match files with
  | [] => ([], None)
  | file :: rest =>
      match compileFile t d k file with
      | inl e => ([], Some e)
      | inr w => let (ws, e) := compileSteps t d (S k) rest in (w :: ws, e)
      end
  end.

End CompilerSteps.

(** * What the compiler must do, said of the documents

    The name of the output comes from the top-level [id] of the document:
    its conversion to a string, or [undefined] when the document has no such
    property; a document that is null has no name. *)

Section CompilerSpec.

Context {host : Host}.
Variable path_join : string -> string -> string.

Definition id_text (ruleset : value) (text : string) : Prop :=
  match ruleset with
  | VNull => False
  | VObj r =>
      match r !! "id" with
      | Some id => ToString id = Some text
      | None => text = "undefined"
      end
  | _ => text = "undefined"
  end.

(** [w] is the write of turn [k]: the file of that turn parses to a document
    with a name, the path is the directory joined with the name and
    [.json], the write does not throw, and the object written holds the time
    of the turn at [createdAt]; for a document that is an object it is the
    document with [createdAt] put in or replaced. *)
Definition write_of (t : tree) (d : disk) (k : nat) (w : write) : Prop :=
  exists file ruleset text,
    glob_of t RULESET_GLOB !! k = Some file
    /\ readYaml_of t file = Parsed ruleset
    /\ id_text ruleset text
    /\ outPath w = path_join "dist" (text +:+ ".json")
    /\ write_error d k (outPath w) = None
    /\ payload w !! "createdAt" = Some (VStr (clock d k))
    /\ forall r, ruleset = VObj r ->
                 payload w = <[ "createdAt" := VStr (clock d k) ]> r.

(** Turn [k] ends the compiler by [thrown]: the file of that turn cannot be
    read or parsed; or its document is null; or the id of the document cannot
    be converted to a string; or the write throws. *)
Definition abort_of (t : tree) (d : disk) (k : nat) (thrown : thrown) : Prop :=
  exists file,
    glob_of t RULESET_GLOB !! k = Some file
    /\ ((exists e, readYaml_of t file = Threw e /\ thrown = Rejected e)
        \/ (readYaml_of t file = Parsed VNull /\ thrown = NullProperty "id")
        \/ (exists r id,
               readYaml_of t file = Parsed (VObj r) /\ r !! "id" = Some id
               /\ ToString id = None /\ thrown = NoPrimitive)
        \/ (exists ruleset text e,
               readYaml_of t file = Parsed ruleset /\ id_text ruleset text
               /\ write_error d k (path_join "dist" (text +:+ ".json")) = Some e
               /\ thrown = Rejected e)).

End CompilerSpec.

(** The line the compiler prints after a write. *)
Definition wroteLine (w : write) : line := Log ("Wrote " +:+ outPath w).

(** * Where the errors are located *)

(** The suffixes of the paths at which an entry can get an error, in the
    order in which the checks of an entry record them. *)
Definition fieldSuffixes : list string :=
  [".severity"; ".dimension"; ".penalty"; ".message"].

Definition countSuffixes : list string :=
  [".rule.selector"; ".rule.min"; ".rule.max"; ".rule"].

Definition termDensitySuffixes : list string := [".rule.terms"; ".rule.maxDensity"].

Definition llmSuffixes : list string := [".rule.promptRef"; ".rule.introBlocks"].

Definition ruleSuffixes : list string :=
  [".rule.op"] ++ countSuffixes ++ termDensitySuffixes ++ llmSuffixes.

Definition entrySuffixes : list string :=
  [""] ++ [".id"] ++ fieldSuffixes ++ ruleSuffixes.

(** The errors of [l] belong to [file] and are located at [base] followed by
    some of the suffixes of [master], each used at most once, in the order of
    [master]. *)
Definition located (file base : string) (master : list string) (l : list diag) : Prop :=
  exists suffixes,
    sublist suffixes master
    /\ (fun d => (d_file d, d_path d)) <$> l = (fun s => (file, base +:+ s)) <$> suffixes.

(** The location of an error of a document: [weights], [checks], or a
    suffix of [entrySuffixes] after the path of an entry of [checks]. *)
Definition document_location (checks : list value) (path : string) : Prop :=
  path = "weights" \/ path = "checks"
  \/ exists i suffix,
       (i < length checks)%nat /\ suffix ∈ entrySuffixes
       /\ path = basePath i +:+ suffix.

(** * What the validator reads of a document

    Two documents are alike when they agree on everything the checks read:
    [language], [weights] and [checks] at the top; in an entry that is an
    object the six fields; in a rule that is an object [op] and the fields of
    that operator. *)

Definition same_rule (a b : gmap string value) : Prop :=
  a !! "op" = b !! "op"
  /\ (is_string (a !! "op") "count" = true ->
      a !! "selector" = b !! "selector" /\ a !! "min" = b !! "min"
      /\ a !! "max" = b !! "max")
  /\ (is_string (a !! "op") "term_density" = true ->
      a !! "terms" = b !! "terms" /\ a !! "maxDensity" = b !! "maxDensity")
  /\ (is_string (a !! "op") "llm" = true ->
      a !! "promptRef" = b !! "promptRef" /\ a !! "introBlocks" = b !! "introBlocks").

Definition same_rule_field (x y : option value) : Prop :=
  match x, y with
  | Some (VObj a), Some (VObj b) => same_rule a b
  | Some (VObj _), _ | _, Some (VObj _) => False
  | _, _ => True
  end.

Definition same_entry (c c' : value) : Prop :=
  match c, c' with
  | VObj a, VObj b =>
      a !! "id" = b !! "id" /\ a !! "severity" = b !! "severity"
      /\ a !! "dimension" = b !! "dimension" /\ a !! "penalty" = b !! "penalty"
      /\ a !! "message" = b !! "message"
      /\ same_rule_field (a !! "rule") (b !! "rule")
  | VObj _, _ | _, VObj _ => False
  | _, _ => True
  end.

Definition same_checks (x y : option value) : Prop :=
  match x, y with
  | Some (VArr cs), Some (VArr cs') => Forall2 same_entry cs cs'
  | Some (VArr _), _ | _, Some (VArr _) => False
  | _, _ => True
  end.

Definition same_document (r r' : gmap string value) : Prop :=
  r !! "language" = r' !! "language" /\ r !! "weights" = r' !! "weights"
  /\ same_checks (r !! "checks") (r' !! "checks").

(** * Inputs of the examples *)

(** An object literal. *)
Definition obj (fields : list (string * value)) : value := VObj (list_to_map fields).

(** A ruleset without checks: [checks: []]. *)
Definition emptyRuleset : value := VObj {[ "checks" := VArr [] ]}.

(** A tree with one ruleset and no selector table. *)
Definition world_without_selectors : world :=
  World (fun path => if bool_decide (path = "rules/a/ruleset.yml")
                     then Parsed emptyRuleset else Threw "ENOENT")
        ["rules/a/ruleset.yml"] (fun _ => false).

(** A run over three files, the second of which is empty. *)
Definition world_with_empty_file : world :=
  World (fun path =>
           if bool_decide (path = SELECTORS_PATH)
           then Parsed (VObj {[ "selectors" := VObj {[ "h1" := VNull ]} ]})
           else if bool_decide (path = "rules/b/ruleset.yml") then Parsed VNull
           else Parsed emptyRuleset)
        ["rules/a/ruleset.yml"; "rules/b/ruleset.yml"; "rules/c/ruleset.yml"]
        (fun _ => false).

(** A ruleset with one check that refers to a prompt. *)
Definition rulesetWithPrompt : value :=
  obj [("language", VStr "de");
       ("checks", VArr [obj [("id", VStr "intro"); ("severity", VStr "low");
                             ("dimension", VStr "structure");
                             ("penalty", VNum (Num.of_Z 1)); ("message", VStr "m");
                             ("rule", obj [("op", VStr "llm");
                                           ("promptRef", VStr "prompts/x.md")])]])].

Definition world_one : world :=
  World (fun path => if bool_decide (path = "rules/a/ruleset.yml")
                     then Parsed rulesetWithPrompt else Threw "ENOENT")
        ["rules/a/ruleset.yml"]
        (fun path => bool_decide (path = "prompts/y.md")).

Definition world_two : world :=
  World (fun path => if bool_decide (path = "rules/a/ruleset.yml")
                     then Parsed rulesetWithPrompt else Parsed VNull)
        ["rules/0/ruleset.yml"; "rules/a/ruleset.yml"]
        (fun path => bool_decide (path = "prompts/z.md")).

(** An entry whose penalty is NaN, and is in order otherwise. *)
Definition entryWithNaNPenalty : gmap string value :=
  list_to_map [("id", VStr "a"); ("severity", VStr "low"); ("dimension", VStr "structure");
               ("penalty", VNum Num.NaN); ("message", VStr "m");
               ("rule", obj [("op", VStr "term_density");
                             ("terms", VArr [VStr "x"]);
                             ("maxDensity", VNum (Num.dbl 1 (-1)))])].

(** An entry with the operator [count], [min = 5] and [max = 3]. *)
Definition countRule53 : gmap string value :=
  list_to_map [("op", VStr "count"); ("selector", VStr "h1");
               ("min", VNum (Num.of_Z 5)); ("max", VNum (Num.of_Z 3))].

Definition entryCount53 : gmap string value :=
  list_to_map [("id", VStr "a"); ("severity", VStr "low"); ("dimension", VStr "structure");
               ("penalty", VNum (Num.of_Z 1)); ("message", VStr "m");
               ("rule", VObj countRule53)].

(** An entry with the operator [llm] whose [promptRef] is a single space. *)
Definition llmRuleSpace : gmap string value :=
  list_to_map [("op", VStr "llm"); ("promptRef", VStr " ")].

Definition entryLlmSpace : gmap string value :=
  list_to_map [("id", VStr "a"); ("severity", VStr "low"); ("dimension", VStr "structure");
               ("penalty", VNum (Num.of_Z 1)); ("message", VStr "m");
               ("rule", VObj llmRuleSpace)].

(** An entry with the operator [term_density] and no terms. *)
Definition ruleWithNoTerms : gmap string value :=
  list_to_map [("op", VStr "term_density"); ("terms", VArr []);
               ("maxDensity", VNum (Num.dbl 1 (-1)))].

Definition entryWithNoTerms : gmap string value :=
  list_to_map [("id", VStr "a"); ("severity", VStr "low"); ("dimension", VStr "structure");
               ("penalty", VNum (Num.of_Z 1)); ("message", VStr "m");
               ("rule", VObj ruleWithNoTerms)].

(** An entry in good order but for its id. *)
Definition entryWithId (id : string) : value :=
  obj [("id", VStr id); ("severity", VStr "low"); ("dimension", VStr "structure");
       ("penalty", VNum (Num.of_Z 1)); ("message", VStr "m");
       ("rule", obj [("op", VStr "term_density"); ("terms", VArr [VStr "x"]);
                     ("maxDensity", VNum (Num.dbl 1 (-1)))])].

Definition rulesetWithIds (ids : list string) : gmap string value :=
  {[ "checks" := VArr (entryWithId <$> ids) ]}.

(** The binary64 values nearest to 0.2 and to 0.2002. *)
Definition dbl_0_2 : number := Num.dbl 7205759403792794 (-55).
Definition dbl_0_2002 : number := Num.dbl 7212965163196586 (-55).

Definition weightsOf (x1 x2 x3 x4 x5 : number) : gmap string value :=
  list_to_map [("structure", VNum x1); ("answerability", VNum x2);
               ("neutrality", VNum x3); ("topical_focus", VNum x4);
               ("entity_binding", VNum x5)].

Definition rulesetWithWeights (x1 x2 x3 x4 x5 : number) : gmap string value :=
  list_to_map [("weights", VObj (weightsOf x1 x2 x3 x4 x5)); ("checks", VArr [])].

Definition rulesetWithLanguage (language : value) : gmap string value :=
  list_to_map [("language", language); ("checks", VArr [])].

(** A tree with one ruleset, which every script can read and parse, and a
    disk on which every write succeeds. *)
Definition tree_one : tree :=
  Tree (fun path => if bool_decide (path = "rules/a/ruleset.yml")
                    then Content "checks: []" else ReadError "ENOENT")
       (fun raw => if bool_decide (raw = "checks: []")
                   then Parsed emptyRuleset else Threw "YAMLParseError")
       (fun _ => ["rules/a/ruleset.yml"])
       (fun _ => false).

Definition disk_one : disk :=
  Disk None (fun _ _ => None) (fun _ => "2024-01-01T00:00:00.000Z").

(** The tree of [world_one] with every path accessible. *)
Definition world_all_prompts : world :=
  World (readYaml world_one) (glob world_one) (fun _ => true).

(** A tree with the selector table and one ruleset that names itself. *)
Definition namedRuleset : gmap string value :=
  {[ "id" := VStr "core"; "checks" := VArr [] ]}.

Definition tree_two : tree :=
  Tree (fun path => if bool_decide (path = "rules/a/ruleset.yml") then Content "ruleset"
                    else if bool_decide (path = SELECTORS_PATH) then Content "selectors"
                    else ReadError "ENOENT")
       (fun raw => if bool_decide (raw = "ruleset") then Parsed (VObj namedRuleset)
                   else if bool_decide (raw = "selectors")
                        then Parsed (obj [("selectors", obj [("h1", VNull)])])
                        else Threw "YAMLParseError")
       (fun _ => ["rules/a/ruleset.yml"])
       (fun _ => false).

(** [path.join] on two relative paths that need no normalisation. *)
Definition join_paths (a b : string) : string := a +:+ "/" +:+ b.

(** A document in which every entry is in order: one entry for each
    operator. *)
Definition entryOf (id : string) (rule : value) : value :=
  obj [("id", VStr id); ("severity", VStr "low"); ("dimension", VStr "structure");
       ("penalty", VNum Num.one); ("message", VStr "m"); ("rule", rule)].

Definition wellFormedRuleset : gmap string value :=
  {[ "checks" :=
       VArr [entryOf "a" (obj [("op", VStr "count"); ("selector", VStr "h1");
                               ("min", VNum Num.zero); ("max", VNum Num.one)]);
             entryOf "b" (obj [("op", VStr "term_density");
                               ("terms", VArr [VStr "x"]);
                               ("maxDensity", VNum Num.one)]);
             entryOf "c" (obj [("op", VStr "llm"); ("promptRef", VStr "prompts/x.md")])] ]}.

(** A ruleset the semantic validator has nothing to say about, whose
    top-level id is a mapping with a key [toString], and a tree that holds
    it. *)
Definition rulesetWithOddId : gmap string value :=
  {[ "id" := obj [("toString", VNum Num.one)]; "checks" := VArr [] ]}.

Definition tree_odd_id : tree :=
  Tree (fun path => if bool_decide (path = "rules/a/ruleset.yml") then Content "ruleset"
                    else if bool_decide (path = SELECTORS_PATH) then Content "selectors"
                    else ReadError "ENOENT")
       (fun raw => if bool_decide (raw = "ruleset") then Parsed (VObj rulesetWithOddId)
                   else if bool_decide (raw = "selectors")
                        then Parsed (obj [("selectors", obj [("h1", VNull)])])
                        else Threw "YAMLParseError")
       (fun _ => ["rules/a/ruleset.yml"])
       (fun _ => false).

(** * Properties *)

(** ** The numeric literals *)

#[local] Set Warnings "-inexact-float".

(** The constants of the model are the binary64 values of the decimal
    literals they stand for. *)
Example literals_are_binary64 :
  Prim2SF 1e-4%float = Num.eps_1e_4
  /\ Prim2SF 1.0%float = Num.one
  /\ Prim2SF 0%float = Num.zero
  /\ Prim2SF 0.2%float = dbl_0_2
  /\ Prim2SF 0.2002%float = dbl_0_2002.
Proof. repeat split; vm_compute; reflexivity. Qed.

(** ** How statements act on the state *)

Lemma emit_nil s : emit [] s = s.
Proof. destruct s; unfold emit; simpl. by rewrite app_nil_r. Qed.

Lemma emit_emit E1 E2 s : emit E2 (emit E1 s) = emit (E1 ++ E2) s.
Proof. unfold emit; simpl. by rewrite app_assoc. Qed.

Lemma exec_ret {A} (a : A) s : exec (ret a) s = s.
Proof. reflexivity. Qed.


Lemma exec_seq {A} (c : M unit) (k : M A) s :
  exec (c ;; k) s = exec k (exec c s).
Proof. unfold exec, bind. by destruct (c s). Qed.

Lemma exec_when b c s : exec (when b c) s = if b then exec c s else s.
Proof. by destruct b. Qed.

Lemma exec_fail file path message s :
  exec (fail file path message) s = emit [Diag file path message] s.
Proof. reflexivity. Qed.

Lemma exec_when_fail b file path message s :
  exec (when b (fail file path message)) s
  = emit (if b then [Diag file path message] else []) s.
Proof. destruct b; [reflexivity | by rewrite emit_nil]. Qed.

Section BlockLemmas.

Context {host : Host}.
Variable fs : string -> bool.
Variable allowedSelectors : gset string.
Variables file base : string.

(** *** The fields of an entry *)

Lemma checkId_exec c s :
  exec (checkId file base c) s
  = VState (errors s ++ idErrors file base (c !! "id") (seenIds s)) (warnings s)
           (idSeen (c !! "id") (seenIds s)) (probes s).
Proof.
  unfold checkId, idErrors, idSeen, acceptedId.
  destruct (c !! "id") as [[| | |id| |]|]; try reflexivity.
  destruct (Str.blank id); [reflexivity|].
  unfold exec, bind, seenIds_has, seenIds_add, when, fail, ret; simpl.
  destruct (bool_decide _); simpl; [reflexivity|].
  by rewrite app_nil_r.
Qed.

Lemma checkSeverity_exec c s :
  exec (checkSeverity file base c) s = emit (severityErrors file base (c !! "severity")) s.
Proof.
  unfold checkSeverity, severityErrors. rewrite exec_when_fail.
  by destruct (allowed_string _ _).
Qed.

Lemma checkDimension_exec c s :
  exec (checkDimension file base c) s = emit (dimensionErrors file base (c !! "dimension")) s.
Proof.
  unfold checkDimension, dimensionErrors. rewrite exec_when_fail.
  by destruct (allowed_string _ _).
Qed.

Lemma checkPenalty_exec c s :
  exec (checkPenalty file base c) s = emit (penaltyErrors file base (c !! "penalty")) s.
Proof.
  unfold checkPenalty, penaltyErrors.
  destruct (typeof_number _) as [p|]; [|reflexivity].
  destruct (Num.isNaN p); [reflexivity|].
  by rewrite exec_when_fail.
Qed.

Lemma checkMessage_exec c s :
  exec (checkMessage file base c) s = emit (messageErrors file base (c !! "message")) s.
Proof. unfold checkMessage. by rewrite exec_when_fail. Qed.

Lemma checkFields_exec c s :
  exec (checkFields file base c) s
  = VState (errors s ++ idErrors file base (c !! "id") (seenIds s) ++ plainFieldErrors file base c)
           (warnings s) (idSeen (c !! "id") (seenIds s)) (probes s).
Proof.
  unfold checkFields, plainFieldErrors.
  rewrite !exec_seq, checkId_exec, checkSeverity_exec, checkDimension_exec,
    checkPenalty_exec, checkMessage_exec.
  unfold emit; simpl. by rewrite <- !app_assoc.
Qed.

(** *** The three operators *)

Lemma checkCount_exec rule s :
  exec (checkCount allowedSelectors file base rule) s = emit (countErrors allowedSelectors file base rule) s.
Proof.
  unfold checkCount, countErrors. rewrite !exec_seq, !exec_when_fail.
  fold (minErrors file base (rule !! "min")) (maxErrors file base (rule !! "max")).
  rewrite !emit_emit.
  assert (Hsel : forall s0,
    exec match rule !! "selector" with
         | Some (VStr selector) =>
             if Str.blank selector
             then fail file (base +:+ ".rule.selector") "selector is required for op=count."
             else when (negb (bool_decide (selector ∈ allowedSelectors)))
                    (fail file (base +:+ ".rule.selector")
                       ("'" +:+ selector +:+ "' is not defined in " +:+ SELECTORS_PATH))
         | _ => fail file (base +:+ ".rule.selector") "selector is required for op=count."
         end s0 = emit (selectorErrors allowedSelectors file base (rule !! "selector")) s0).
  { intros s0. unfold selectorErrors.
    destruct (rule !! "selector") as [[| | |sel| |]|]; try reflexivity.
    destruct (Str.blank sel); [reflexivity|].
    rewrite exec_when_fail. by destruct (bool_decide _). }
  rewrite Hsel, emit_emit. unfold rangeErrors.
  destruct (typeof_number (rule !! "min")) as [lo|],
           (typeof_number (rule !! "max")) as [hi|];
    rewrite ?exec_when_fail, ?exec_ret, ?emit_emit, ?app_nil_r, <- ?app_assoc;
    reflexivity.
Qed.

Lemma checkTermDensity_exec rule s :
  exec (checkTermDensity file base rule) s = emit (termDensityErrors file base rule) s.
Proof.
  unfold checkTermDensity, termDensityErrors.
  by rewrite exec_seq, !exec_when_fail, emit_emit.
Qed.

Lemma checkLlm_exec rule s :
  exec (checkLlm fs file base rule) s
  = VState (errors s ++ llmErrors fs file base rule) (warnings s) (seenIds s)
           (probes s ++ promptRefProbes (rule !! "promptRef")).
Proof.
  unfold checkLlm, llmErrors, promptRefErrors, promptRefProbes, introBlocksErrors.
  rewrite exec_seq.
  destruct s as [E W I P].
  destruct (rule !! "promptRef") as [[| | |ref| |]|];
    try (destruct (Str.blank ref); [|destruct (fs ref) eqn:Hfs]);
    destruct (rule !! "introBlocks") as [ib|];
    try destruct (not_integer_or_below (Some ib) Num.one) eqn:Hib;
    unfold exec, bind, access, when, fail, ret; simpl;
    rewrite ?Hfs, ?Hib; simpl; rewrite ?app_nil_r, <- ?app_assoc; reflexivity.
Qed.

End BlockLemmas.

Section EntryLemmas.

Context {host : Host}.
Variable fs : string -> bool.
Variable allowedSelectors : gset string.
Variable file : string.

(** *** The rule of an entry *)

Lemma is_string_allowed op lit :
  lit ∈ ALLOWED_OPS -> is_string op lit = true -> allowed_string ALLOWED_OPS op = true.
Proof.
  destruct op as [[| | |o| |]|]; simpl; try discriminate.
  intros Hin Heq. apply bool_decide_eq_true in Heq. subst o.
  by apply bool_decide_eq_true.
Qed.

Lemma checkRule_exec base rule s :
  exec (checkRule fs allowedSelectors file base rule) s
  = VState (errors s ++ ruleErrors fs allowedSelectors file base rule) (warnings s) (seenIds s)
           (probes s ++ ruleProbes rule).
Proof.
  unfold checkRule, ruleErrors, ruleProbes.
  destruct (allowed_string ALLOWED_OPS (rule !! "op")) eqn:Hop; simpl.
  - rewrite !exec_seq, !exec_when.
    destruct s as [E W I P].
    destruct (is_string _ "count"), (is_string _ "term_density"), (is_string _ "llm");
      rewrite ?checkLlm_exec, ?checkTermDensity_exec, ?checkCount_exec;
      unfold emit; simpl; rewrite ?app_nil_r, <- ?app_assoc; reflexivity.
  - destruct (is_string (rule !! "op") "llm") eqn:Hllm.
    + rewrite (is_string_allowed _ "llm") in Hop; [discriminate| |done].
      unfold ALLOWED_OPS. set_solver.
    + rewrite exec_fail. unfold emit. by rewrite app_nil_r.
Qed.

(** *** One entry of [checks] *)

Lemma checkEntry_exec i c s :
  exec (checkEntry fs allowedSelectors file i c) s
  = VState (errors s ++ entryErrors fs allowedSelectors file i c (seenIds s)) (warnings s)
           (entrySeen c (seenIds s)) (probes s ++ entryProbes c).
Proof.
  unfold checkEntry, entryErrors, entrySeen, entryProbes.
  destruct c as [| | | | |c];
    try (rewrite exec_fail; unfold emit; by rewrite app_nil_r).
  rewrite exec_seq, checkFields_exec.
  destruct (c !! "rule") as [[| | | | |rule]|];
    rewrite ?checkRule_exec, ?exec_fail; unfold emit; simpl;
    rewrite ?app_nil_r, <- ?app_assoc; reflexivity.
Qed.

(** *** The loop over [checks] *)

Lemma checkLoop_exec checks : forall i s,
  exec (checkLoop fs allowedSelectors file i checks) s
  = VState (errors s ++ loopErrors fs allowedSelectors file i checks (seenIds s)) (warnings s)
           (loopSeen checks (seenIds s)) (probes s ++ loopProbes checks).
Proof.
  induction checks as [|c rest IH]; intros i s; simpl.
  - destruct s; rewrite exec_ret; simpl. by rewrite !app_nil_r.
  - rewrite exec_seq, checkEntry_exec, IH; simpl.
    by rewrite <- !app_assoc.
Qed.

End EntryLemmas.

Section DocumentLemmas.

Context {host : Host}.
Variable fs : string -> bool.
Variable allowedSelectors : gset string.
Variable file : string.

Lemma note_nil s : note [] s = s.
Proof. destruct s; unfold note; simpl. by rewrite app_nil_r. Qed.

Lemma exec_when_warn b w s :
  exec (when b (warn w)) s = note (if b then [w] else []) s.
Proof. destruct b; [reflexivity | by rewrite note_nil]. Qed.

(** *** [language] *)

Lemma checkLanguage_exec r s :
  exec (checkLanguage file r) s = note (languageWarnings file (r !! "language")) s.
Proof.
  unfold checkLanguage, languageWarnings.
  destruct (r !! "language") as [[| | |lang| |]|];
    try reflexivity; [|by rewrite exec_ret, note_nil].
  rewrite exec_seq, !exec_when_warn.
  unfold note; simpl. rewrite <- app_assoc.
  by destruct (Str.looks_like_bcp47 _).
Qed.

(** *** [weights] *)

Lemma checkWeights_exec r s :
  exec (checkWeights file r) s
  = VState (errors s ++ weightsErrors file (r !! "weights"))
           (warnings s ++ weightsWarnings file (r !! "weights")) (seenIds s) (probes s).
Proof.
  unfold checkWeights, weightsErrors, weightsWarnings.
  destruct s as [E W I P].
  destruct (r !! "weights") as [[| | | | |w]|];
    try (unfold exec, fail, ret; simpl; by rewrite ?app_nil_r).
  destruct (0 <? length (missingWeights w))%nat.
  - unfold exec, warn; simpl. by rewrite app_nil_r.
  - rewrite exec_when_warn. unfold note; simpl. rewrite app_nil_r.
    by destruct (approxEquals _ _ _).
Qed.

(** *** The whole document *)

Lemma validateRuleset_exec r s :
  exec (validateRuleset fs allowedSelectors file r) s
  = VState (errors s ++ documentErrors fs allowedSelectors file r) (warnings s ++ documentWarnings file r)
           (loopSeen (checksOf r) ∅) (probes s ++ loopProbes (checksOf r)).
Proof.
  unfold validateRuleset, documentErrors, documentWarnings, checksErrors.
  rewrite !exec_seq, checkLanguage_exec, checkWeights_exec, exec_when_fail.
  replace (exec newSeenIds) with
    (fun s0 => VState (errors s0) (warnings s0) ∅ (probes s0)) by reflexivity.
  rewrite checkLoop_exec. unfold emit, note; simpl.
  rewrite <- !app_assoc.
  by destruct (isArray _).
Qed.

End DocumentLemmas.

(** ** The file loop *)

Lemma parseRuleset_start file l :
  parseRuleset file l start = (rootValue l, VState (rootErrors file l) [] ∅ []).
Proof. by destruct l as [e|[| | | | |]]. Qed.

(** When no error is recorded for the root, the root is an object. *)
Lemma parseRuleset_object file l v s :
  parseRuleset file l start = (v, s) -> errors s = [] -> exists r, v = VObj r.
Proof.
  rewrite parseRuleset_start. intros [= <- <-]; simpl.
  destruct l as [e|[| | | | |r]]; simpl; try discriminate. eauto.
Qed.

Lemma nonempty_false {A} (l : list A) : nonempty l = false <-> l = [].
Proof. by destruct l. Qed.

Lemma nonempty_true {A} (l : list A) : nonempty l = true <-> l ≠ [].
Proof. by destruct l. Qed.

Section RunLemmas.

Context {host : Host}.
Variable w : world.
Variable allowedSelectors : gset string.

Lemma diagnose_eq file :
  diagnose w allowedSelectors file
  = match readYaml w file with
    | Parsed (VObj r) =>
        VState (documentErrors (fs_access w) allowedSelectors file r)
               (documentWarnings file r) (loopSeen (checksOf r) ∅)
               (loopProbes (checksOf r))
    | l => VState (rootErrors file l) [] ∅ []
    end.
Proof.
  unfold diagnose. rewrite parseRuleset_start.
  destruct (readYaml w file) as [e|[| | | | |r]]; try reflexivity.
  simpl. by rewrite validateRuleset_exec.
Qed.

Lemma processFile_eq p file :
  processFile w allowedSelectors p file
  = PState (failedAny p || nonempty (errors (diagnose w allowedSelectors file)))
           (console p ++ report file (diagnose w allowedSelectors file)).
Proof.
  rewrite diagnose_eq. unfold processFile, report. rewrite parseRuleset_start.
  destruct p as [f out].
  destruct (readYaml w file) as [e|[| | | | |r]]; simpl;
    rewrite ?orb_true_r; try reflexivity.
  rewrite validateRuleset_exec; simpl.
  fold (nonempty (documentErrors (fs_access w) allowedSelectors file r)).
  destruct (nonempty _); simpl; rewrite ?orb_true_r, ?orb_false_r, <- ?app_assoc;
    reflexivity.
Qed.

Lemma printed_eq file :
  printed w allowedSelectors file = report file (diagnose w allowedSelectors file).
Proof. unfold printed. by rewrite processFile_eq. Qed.

Lemma fold_processFile files : forall p,
  fold_left (processFile w allowedSelectors) files p
  = PState (failedAny p
            || existsb (fun f => nonempty (errors (diagnose w allowedSelectors f))) files)
           (console p ++ flat_map (printed w allowedSelectors) files).
Proof.
  induction files as [|f files IH]; intros [failed out]; simpl.
  - by rewrite orb_false_r, app_nil_r.
  - rewrite IH, processFile_eq, printed_eq; simpl.
    by rewrite orb_assoc, <- app_assoc.
Qed.

Lemma main_eq selectors :
  loadSelectors w = Some selectors -> allowedSelectors = dom selectors ->
  main w
  = if (length (glob w) =? 0)%nat
    then ([Log ("OK semantic: no files matched " +:+ RULESET_GLOB)], 0)
    else (flat_map (printed w allowedSelectors) (glob w),
          if existsb (fun f => nonempty (errors (diagnose w allowedSelectors f))) (glob w)
          then 1 else 0).
Proof.
  intros Hsel Hdom. unfold main. rewrite Hsel, <- Hdom.
  destruct (length (glob w) =? 0)%nat; [reflexivity|].
  by rewrite fold_processFile.
Qed.

End RunLemmas.

(** ** The file system is read only through the probes *)

Section Agreement.

Context {host : Host}.
Variables fs1 fs2 : string -> bool.
Variable allowedSelectors : gset string.
Variable file : string.

Lemma promptRefErrors_agree base promptRef :
  (forall p, p ∈ promptRefProbes promptRef -> fs1 p = fs2 p) ->
  promptRefErrors fs1 file base promptRef = promptRefErrors fs2 file base promptRef.
Proof.
  unfold promptRefErrors, promptRefProbes.
  destruct promptRef as [[| | |ref| |]|]; try reflexivity.
  destruct (Str.blank ref); [reflexivity|].
  intros Hagree. rewrite (Hagree ref); [reflexivity|].
  by apply list_elem_of_singleton.
Qed.

Lemma ruleErrors_agree base rule :
  (forall p, p ∈ ruleProbes rule -> fs1 p = fs2 p) ->
  ruleErrors fs1 allowedSelectors file base rule
  = ruleErrors fs2 allowedSelectors file base rule.
Proof.
  unfold ruleErrors, ruleProbes, llmErrors. intros Hagree.
  destruct (allowed_string _ _); [|reflexivity].
  destruct (is_string (rule !! "op") "llm"); [|reflexivity].
  by rewrite (promptRefErrors_agree base _ Hagree).
Qed.

Lemma entryErrors_agree i c seen :
  (forall p, p ∈ entryProbes c -> fs1 p = fs2 p) ->
  entryErrors fs1 allowedSelectors file i c seen
  = entryErrors fs2 allowedSelectors file i c seen.
Proof.
  unfold entryErrors, entryProbes. intros Hagree.
  destruct c as [| | | | |c]; try reflexivity.
  destruct (c !! "rule") as [[| | | | |rule]|]; try reflexivity.
  by rewrite (ruleErrors_agree _ _ Hagree).
Qed.

Lemma loopErrors_agree checks : forall i seen,
  (forall p, p ∈ loopProbes checks -> fs1 p = fs2 p) ->
  loopErrors fs1 allowedSelectors file i checks seen
  = loopErrors fs2 allowedSelectors file i checks seen.
Proof.
  induction checks as [|c rest IH]; intros i seen Hagree; simpl; [reflexivity|].
  rewrite entryErrors_agree, IH; [reflexivity| |];
    intros p Hp; apply Hagree; simpl; apply elem_of_app; auto.
Qed.

Lemma documentErrors_agree r :
  (forall p, p ∈ loopProbes (checksOf r) -> fs1 p = fs2 p) ->
  documentErrors fs1 allowedSelectors file r
  = documentErrors fs2 allowedSelectors file r.
Proof.
  intros Hagree. unfold documentErrors. by rewrite (loopErrors_agree _ _ _ Hagree).
Qed.

End Agreement.

(** ** The verdict and the exit code *)

Lemma existsb_nonempty_false {A B} (f : A -> list B) (l : list A) :
  existsb (fun x => nonempty (f x)) l = false <-> Forall (fun x => f x = []) l.
Proof.
  induction l as [|x l IH]; simpl.
  - split; [constructor | reflexivity].
  - rewrite orb_false_iff, IH, nonempty_false, Forall_cons. reflexivity.
Qed.

Lemma existsb_nonempty_true {A B} (f : A -> list B) (l : list A) :
  existsb (fun x => nonempty (f x)) l = true <-> Exists (fun x => f x ≠ []) l.
Proof.
  induction l as [|x l IH]; simpl.
  - split; [discriminate | intros Hex; inversion Hex].
  - rewrite orb_true_iff, IH, nonempty_true, Exists_cons. reflexivity.
Qed.

(** C1 (amended).  When the selector table cannot be loaded the script prints
    the usage text and exits with code 1 before any file is looked at.
    Otherwise, for every file of the run: the file is reported failed (its
    FAIL lines are printed and the failure flag is raised) exactly when its
    list of errors is not empty, and it is reported passed (the OK line is
    printed, the flag is left as it was) exactly when that list is empty,
    whatever its warnings are; the exit code is 0 exactly when every file has
    no error, which includes the run in which no file was matched, and 1
    exactly when some file has an error. *)
Theorem exit_code_reflects_errors {host : Host} (w : world) :
  match loadSelectors w with
  | None => main w = ([Error usage], 1)
  | Some selectors =>
      let allowed := dom selectors in
      (forall p file,
          let s := diagnose w allowed file in
          let p' := processFile w allowed p file in
          (errors s ≠ [] ->
             failedAny p' = true
             /\ console p' = console p ++ map Warn (warnings s) ++ map failLine (errors s))
          /\ (errors s = [] ->
             failedAny p' = failedAny p
             /\ console p' = console p ++ map Warn (warnings s)
                                       ++ [Log ("OK   semantic " +:+ file)]))
      /\ (glob w = [] -> snd (main w) = 0)
      /\ (snd (main w) = 0 <-> Forall (fun f => errors (diagnose w allowed f) = []) (glob w))
      /\ (snd (main w) = 1 <-> Exists (fun f => errors (diagnose w allowed f) ≠ []) (glob w))
  end.
Proof.
  destruct (loadSelectors w) as [selectors|] eqn:Hsel.
  2: { unfold main. by rewrite Hsel. }
  intros allowed. split; [|split; [|split]].
  - intros p file s p'. subst s p'. rewrite processFile_eq. unfold report.
    split; intros Herr.
    + apply nonempty_true in Herr. rewrite Herr, orb_true_r. done.
    + assert (Hne := Herr). apply nonempty_false in Hne.
      rewrite Hne, orb_false_r. done.
  - intros Hglob. rewrite (main_eq w allowed selectors Hsel eq_refl), Hglob. done.
  - rewrite (main_eq w allowed selectors Hsel eq_refl).
    destruct (glob w) as [|f files] eqn:Hglob; simpl.
    { split; [constructor | reflexivity]. }
    rewrite <- (existsb_nonempty_false (fun f => errors (diagnose w allowed f)) (f :: files)).
    simpl. destruct (_ || _); simpl; split; done.
  - rewrite (main_eq w allowed selectors Hsel eq_refl).
    destruct (glob w) as [|f files] eqn:Hglob; simpl.
    { split; [discriminate | intros Hex; inversion Hex]. }
    rewrite <- (existsb_nonempty_true (fun f => errors (diagnose w allowed f)) (f :: files)).
    simpl. destruct (_ || _); simpl; split; done.
Qed.

(** C1 (counterexample).  With [schema/selectors.yml] missing and one ruleset
    that has no error at all, no file is processed, so every processed file
    had zero errors, and yet the exit code is 1 and not 0. *)
Lemma selectors_missing_exit_1 :
  Forall (fun f => errors (diagnose (host := ascii_host) world_without_selectors ∅ f) = [])
         (glob world_without_selectors)
  /\ main (host := ascii_host) world_without_selectors = ([Error usage], 1).
Proof. split; [repeat constructor | reflexivity]. Qed.

(** ** A root that is not an object *)

(** C8.  When a file parses to null or to a value that is not an object,
    exactly one error is recorded, at the root; no warning is recorded and
    nothing is probed; the only line printed for the file is the FAIL line
    of that error and the failure flag is raised, so that a run over a loaded
    selector table that contains the file exits with 1; and the lines of the
    files before and after it are those of the run without it. *)
Theorem broken_root_skips_validation {host : Host}
    (w : world) (allowed : gset string) (file : string) (v : value) :
  readYaml w file = Parsed v ->
  isObject v = false ->
  let message := match v with
                 | VNull => "Ruleset is empty (YAML parsed to null)."
                 | _ => "Ruleset must be an object."
                 end in
  let failure := Error ("FAIL " +:+ file +:+ " (root): " +:+ message) in
  diagnose w allowed file = VState [Diag file "(root)" message] [] ∅ []
  /\ (forall p, processFile w allowed p file = PState true (console p ++ [failure]))
  /\ (forall pre post p,
        console (fold_left (processFile w allowed) (pre ++ file :: post) p)
        = console (fold_left (processFile w allowed) pre p)
          ++ failure :: flat_map (printed w allowed) post
        /\ console (fold_left (processFile w allowed) (pre ++ post) p)
           = console (fold_left (processFile w allowed) pre p)
             ++ flat_map (printed w allowed) post)
  /\ (forall selectors,
        loadSelectors w = Some selectors -> allowed = dom selectors ->
        file ∈ glob w -> snd (main w) = 1).
Proof.
  intros Hread Hobj message failure.
  assert (Hdiag : diagnose w allowed file = VState [Diag file "(root)" message] [] ∅ []).
  { rewrite diagnose_eq, Hread. subst message. by destruct v. }
  assert (Hprint : printed w allowed file = [failure]).
  { rewrite printed_eq, Hdiag. reflexivity. }
  split; [exact Hdiag|]. split; [|split].
  - intros p. rewrite processFile_eq, Hdiag. simpl. by rewrite orb_true_r.
  - intros pre post p. rewrite !fold_processFile; simpl.
    rewrite !flat_map_app; simpl. rewrite Hprint, <- !app_assoc. done.
  - intros selectors Hsel Hallowed Hin.
    rewrite (main_eq w allowed selectors Hsel Hallowed).
    destruct (glob w) as [|f files] eqn:Hglob; [by apply elem_of_nil in Hin|].
    change (length (f :: files) =? 0)%nat with false. cbv iota.
    assert (Hex : existsb (fun f => nonempty (errors (diagnose w allowed f))) (f :: files) = true).
    { apply existsb_exists. exists file. split; [by apply list_elem_of_In|].
      by rewrite Hdiag. }
    by rewrite Hex.
Qed.

Lemma broken_root_skips_validation_witness :
  diagnose (host := ascii_host) world_with_empty_file {[ "h1" ]} "rules/b/ruleset.yml"
  = VState [Diag "rules/b/ruleset.yml" "(root)" "Ruleset is empty (YAML parsed to null)."]
           [] ∅ []
  /\ main (host := ascii_host) world_with_empty_file
     = ([Log "OK   semantic rules/a/ruleset.yml";
         Error "FAIL rules/b/ruleset.yml (root): Ruleset is empty (YAML parsed to null).";
         Log "OK   semantic rules/c/ruleset.yml"], 1).
Proof.
  split; [|reflexivity].
  exact (proj1 (broken_root_skips_validation (host := ascii_host)
                  world_with_empty_file {[ "h1" ]} "rules/b/ruleset.yml" VNull
                  eq_refl eq_refl)).
Defined.

(** ** Two runs on the same input *)

(** C9.  The errors, the warnings and the printed lines of a file are the
    same in two runs in which the file has the same content, the selector
    table is the same, and the paths the validator probes are accessible in
    the one exactly when they are in the other: neither the other files of
    the run, nor what was printed or flagged before, nor the rest of the file
    system has any influence. *)
Theorem validation_deterministic {host : Host}
    (w1 w2 : world) (allowed : gset string) (file : string) (p1 p2 : pstate) :
  readYaml w1 file = readYaml w2 file ->
  (forall path, path ∈ probes (diagnose w1 allowed file) ->
                fs_access w1 path = fs_access w2 path) ->
  diagnose w1 allowed file = diagnose w2 allowed file
  /\ printed w1 allowed file = printed w2 allowed file
  /\ console (processFile w1 allowed p1 file) = console p1 ++ printed w1 allowed file
  /\ console (processFile w2 allowed p2 file) = console p2 ++ printed w1 allowed file.
Proof.
  intros Hread Hfs.
  assert (Hdiag : diagnose w1 allowed file = diagnose w2 allowed file).
  { rewrite diagnose_eq in Hfs. rewrite !diagnose_eq, <- Hread.
    destruct (readYaml w1 file) as [e|[| | | | |r]]; try reflexivity.
    simpl in Hfs. by rewrite (documentErrors_agree _ _ _ _ _ Hfs). }
  assert (Hprint : printed w1 allowed file = printed w2 allowed file).
  { by rewrite !printed_eq, Hdiag. }
  repeat split; try done.
  - by rewrite processFile_eq, printed_eq.
  - by rewrite processFile_eq, Hprint, printed_eq.
Qed.

Lemma validation_deterministic_witness :
  diagnose (host := ascii_host) world_one {[ "h1" ]} "rules/a/ruleset.yml"
  = diagnose (host := ascii_host) world_two {[ "h1" ]} "rules/a/ruleset.yml"
  /\ printed (host := ascii_host) world_one {[ "h1" ]} "rules/a/ruleset.yml"
     = [Error "FAIL rules/a/ruleset.yml checks[0].rule.promptRef: file not found 'prompts/x.md'"].
Proof.
  split; [|reflexivity].
  refine (proj1 (validation_deterministic (host := ascii_host) world_one world_two
                   {[ "h1" ]} "rules/a/ruleset.yml"
                   (PState false [])
                   (PState true [Error "FAIL rules/0/ruleset.yml (root): Ruleset is empty (YAML parsed to null)."])
                   eq_refl _)).
  intros path Hin. vm_compute in Hin.
  apply list_elem_of_singleton in Hin. subst path. reflexivity.
Defined.

(** ** Where the errors of an entry are located *)

Lemma eqb_app_prefix base a b :
  String.eqb (base +:+ a) (base +:+ b) = String.eqb a b.
Proof.
  induction base as [|x base IH]; simpl; [reflexivity|].
  by rewrite Ascii.eqb_refl.
Qed.

Lemma paths_in_app base suffixes l1 l2 :
  paths_in base suffixes l1 -> paths_in base suffixes l2 ->
  paths_in base suffixes (l1 ++ l2).
Proof. intros H1 H2. apply Forall_app. by split. Qed.


Lemma paths_in_nil base suffixes : paths_in base suffixes [].
Proof. constructor. Qed.

Lemma paths_in_one base suffixes file suffix message :
  suffix ∈ suffixes -> paths_in base suffixes [Diag file (base +:+ suffix) message].
Proof. intros Hin. repeat constructor. eauto. Qed.

Lemma filter_at_path_other base suffixes suffix l :
  paths_in base suffixes l -> suffix ∉ suffixes ->
  List.filter (at_path (base +:+ suffix)) l = [].
Proof.
  intros Hl Hnot. induction Hl as [|d l (suffix' & Hin & Hpath) _ IH]; simpl; [reflexivity|].
  unfold at_path at 1. rewrite Hpath, eqb_app_prefix.
  destruct (String.eqb_spec suffix' suffix) as [->|_]; [contradiction | exact IH].
Qed.

Lemma filter_at_path_same base suffix l :
  paths_in base [suffix] l -> List.filter (at_path (base +:+ suffix)) l = l.
Proof.
  intros Hl. induction Hl as [|d l (suffix' & Hin & Hpath) _ IH]; simpl; [reflexivity|].
  apply list_elem_of_singleton in Hin. subst suffix'.
  unfold at_path at 1. by rewrite Hpath, String.eqb_refl, IH.
Qed.

(** Membership of a literal in a list of literals, by evaluation. *)
Ltac closed_membership := apply (bool_decide_unpack _); by vm_compute.

Ltac paths :=
  repeat (case_match; simpl);
  repeat apply paths_in_app;
  first [ apply paths_in_nil | apply paths_in_one; closed_membership ].

Section Paths.

Context {host : Host}.
Variable fs : string -> bool.
Variable allowedSelectors : gset string.
Variables file base : string.

Lemma idErrors_paths id seen : paths_in base [".id"] (idErrors file base id seen).
Proof. unfold idErrors. paths. Qed.

Lemma penaltyErrors_paths penalty :
  paths_in base [".penalty"] (penaltyErrors file base penalty).
Proof. unfold penaltyErrors. paths. Qed.

Lemma severityErrors_paths x : paths_in base otherSuffixes (severityErrors file base x).
Proof. unfold severityErrors, otherSuffixes. paths. Qed.

Lemma dimensionErrors_paths x : paths_in base otherSuffixes (dimensionErrors file base x).
Proof. unfold dimensionErrors, otherSuffixes. paths. Qed.

Lemma messageErrors_paths x : paths_in base otherSuffixes (messageErrors file base x).
Proof. unfold messageErrors, otherSuffixes. paths. Qed.

Lemma countErrors_paths rule :
  paths_in base otherSuffixes (countErrors allowedSelectors file base rule).
Proof.
  unfold countErrors, otherSuffixes. repeat apply paths_in_app.
  - unfold selectorErrors. paths.
  - unfold minErrors. paths.
  - unfold maxErrors. paths.
  - unfold rangeErrors. paths.
Qed.

Lemma termDensityErrors_paths rule :
  paths_in base otherSuffixes (termDensityErrors file base rule).
Proof.
  unfold termDensityErrors, otherSuffixes. apply paths_in_app.
  - unfold termsErrors. paths.
  - unfold maxDensityErrors. paths.
Qed.

Lemma llmErrors_paths rule : paths_in base otherSuffixes (llmErrors fs file base rule).
Proof.
  unfold llmErrors, otherSuffixes. apply paths_in_app.
  - unfold promptRefErrors. paths.
  - unfold introBlocksErrors. paths.
Qed.

Lemma ruleErrors_paths rule :
  paths_in base otherSuffixes (ruleErrors fs allowedSelectors file base rule).
Proof.
  unfold ruleErrors.
  destruct (allowed_string _ _); [|apply paths_in_one; closed_membership].
  repeat apply paths_in_app; case_match;
    auto using paths_in_nil, countErrors_paths, termDensityErrors_paths, llmErrors_paths.
Qed.

End Paths.

(** ** The check of [penalty] *)

(** C6 (amended).  For every entry that is an object, the errors located at
    its [penalty] are: the error "penalty must be a number." when the value
    is not of number type or is NaN; otherwise, the error "penalty must be
    >= 0." when the number is below zero; otherwise none.  The second test is
    made only when the first one passes, so there is at most one such error. *)
Theorem penalty_checked_in_sequence {host : Host}
    (fs : string -> bool) (allowed : gset string) (file : string)
    (i : nat) (c : gmap string value) (s : vstate) :
  let base := basePath i in
  let expected :=
    match typeof_number (c !! "penalty") with
    | Some penalty =>
        if Num.isNaN penalty
        then [Diag file (base +:+ ".penalty") "penalty must be a number."]
        else if Num.ltb penalty Num.zero
             then [Diag file (base +:+ ".penalty") "penalty must be >= 0."]
             else []
    | None => [Diag file (base +:+ ".penalty") "penalty must be a number."]
    end in
  List.filter (at_path (base +:+ ".penalty"))
              (errors (exec (checkEntry fs allowed file i (VObj c)) s))
  = List.filter (at_path (base +:+ ".penalty")) (errors s) ++ expected
  /\ (length expected <= 1)%nat.
Proof.
  intros base expected.
  change expected with (penaltyErrors file base (c !! "penalty")).
  split.
  - rewrite checkEntry_exec; simpl. fold base.
    unfold plainFieldErrors. rewrite !List.filter_app.
    rewrite (filter_at_path_other base [".id"] ".penalty" (idErrors _ _ _ _));
      [|apply idErrors_paths|closed_membership].
    rewrite (filter_at_path_other base otherSuffixes ".penalty" (severityErrors _ _ _));
      [|apply severityErrors_paths|closed_membership].
    rewrite (filter_at_path_other base otherSuffixes ".penalty" (dimensionErrors _ _ _));
      [|apply dimensionErrors_paths|closed_membership].
    rewrite (filter_at_path_other base otherSuffixes ".penalty" (messageErrors _ _ _));
      [|apply messageErrors_paths|closed_membership].
    rewrite (filter_at_path_same base ".penalty" (penaltyErrors _ _ _));
      [|apply penaltyErrors_paths].
    assert (Hrule : List.filter (at_path (base +:+ ".penalty"))
              match c !! "rule" with
              | Some (VObj rule) => ruleErrors fs allowed file base rule
              | _ => [Diag file (base +:+ ".rule") "rule is required and must be an object."]
              end = []).
    { apply (filter_at_path_other base otherSuffixes); [|closed_membership].
      destruct (c !! "rule") as [[| | | | |rule]|];
        try (apply paths_in_one; closed_membership).
      apply ruleErrors_paths. }
    rewrite Hrule. simpl. by rewrite !app_nil_r.
  - unfold penaltyErrors. repeat case_match; simpl; lia.
Qed.

(** C6 (counterexample).  A penalty that is NaN violates both conditions: it
    is NaN, and it is not greater than or equal to zero.  The entry gets one
    error for it, not two. *)
Lemma nan_penalty_one_error :
  Num.isNaN Num.NaN = true
  /\ Num.leb Num.zero Num.NaN = false
  /\ errors (exec (checkEntry (host := ascii_host) (fun _ => false) ∅ "f.yml" 0
                     (VObj entryWithNaNPenalty)) start)
     = [Diag "f.yml" "checks[0].penalty" "penalty must be a number."].
Proof. repeat split. Qed.

(** ** The operator [count] *)

(** On numbers that are not NaN, [x > y] is the negation of [x <= y]. *)
Lemma gtb_not_leb (x y : number) :
  Num.isNaN x = false -> Num.isNaN y = false -> Num.gtb x y = negb (Num.leb x y).
Proof.
  unfold Num.gtb, Num.leb, SFltb, SFleb.
  destruct x as [sx|sx| |sx mx ex], y as [sy|sy| |sy my ey]; simpl; try discriminate;
    intros _ _; try (destruct sx; try destruct sy; reflexivity);
    try (destruct sy; reflexivity).
  change (Pos.compare_cont Eq my mx) with (Pos.compare my mx).
  change (Pos.compare_cont Eq mx my) with (Pos.compare mx my).
  rewrite (Z.compare_antisym ex ey), (Pos.compare_antisym mx my).
  destruct sx, sy; try reflexivity;
    destruct (ex ?= ey); simpl; try reflexivity;
    destruct (mx ?= my)%positive; reflexivity.
Qed.

Lemma isInteger_not_NaN (x : number) : Num.isInteger x = true -> Num.isNaN x = false.
Proof. by destruct x. Qed.

(** A number that denotes an integer is below zero exactly when that integer
    is negative. *)
Lemma ltb_zero_intValue (n : number) (z : Z) :
  Num.intValue n = Some z -> (Num.ltb n Num.zero = true <-> z < 0).
Proof.
  destruct n as [sg|sg| |sg m e]; simpl; try discriminate.
  - intros [= <-]. split; [discriminate | lia].
  - assert (Hsign : forall q, 0 < q -> (Num.ltb (S754_finite sg m e) Num.zero = true
                                         <-> cond_Zopp sg q < 0)).
    { intros q Hq. destruct sg; unfold Num.ltb, SFltb; simpl; split; try done; lia. }
    destruct (0 <=? e) eqn:He.
    + intros [= <-]. apply Hsign. apply Z.leb_le in He.
      apply Z.mul_pos_pos; [lia | by apply Z.pow_pos_nonneg].
    + destruct (Z.pos m mod 2 ^ (- e) =? 0) eqn:Hmod; [|discriminate].
      intros [= <-]. apply Hsign.
      apply Z.leb_gt in He. apply Z.eqb_eq in Hmod.
      assert (Hpow : 0 < 2 ^ (- e)) by (apply Z.pow_pos_nonneg; lia).
      assert (Hm := Z.div_mod (Z.pos m) (2 ^ (- e)) ltac:(lia)).
      rewrite Hmod in Hm. nia.
Qed.

(** The check of [min] (and likewise of [max]) rejects exactly the values
    that are not such numbers. *)
Lemma not_integer_or_below_zero (x : option value) :
  not_integer_or_below x Num.zero = negb (nonneg_integer x).
Proof.
  unfold not_integer_or_below, nonneg_integer, typeof_number, Num.isInteger.
  destruct x as [[| |n| | |]|]; try reflexivity.
  destruct (Num.intValue n) as [z|] eqn:Hint; simpl; [|reflexivity].
  pose proof (ltb_zero_intValue n z Hint) as Hlt.
  destruct (Num.ltb n Num.zero), (Z.leb_spec 0 z); try reflexivity.
  - assert (z < 0) by by apply Hlt. lia.
  - assert (false = true) by (apply Hlt; lia). discriminate.
Qed.

(** C3.  For an entry whose rule has the operator [count], what the entry
    adds to the errors after the checks of its own fields is the sum of four
    lists, each decided by its own part of the rule alone: the error of the
    selector; one error for [min] unless it is an integer that is not
    negative; one error for [max] under the same condition; and, whenever
    both are integers, of any sign, one error for the range unless
    [min <= max].  With [min = 5], [max = 3] and a selector of the table, the
    range error is the only one. *)
Theorem count_checks_are_additive {host : Host}
    (fs : string -> bool) (allowed : gset string) (file : string)
    (i : nat) (c rule : gmap string value) (s : vstate) :
  c !! "rule" = Some (VObj rule) ->
  rule !! "op" = Some (VStr "count") ->
  let base := basePath i in
  let min := rule !! "min" in
  let max := rule !! "max" in
  let after_fields := exec (checkFields file base c) s in
  let result := exec (checkEntry fs allowed file i (VObj c)) s in
  let min_error := Diag file (base +:+ ".rule.min") "min must be an integer >= 0." in
  let max_error := Diag file (base +:+ ".rule.max") "max must be an integer >= 0." in
  result = emit (selectorErrors allowed file base (rule !! "selector")
                 ++ minErrors file base min ++ maxErrors file base max
                 ++ rangeErrors file base min max) after_fields
  /\ minErrors file base min = (if nonneg_integer min then [] else [min_error])
  /\ maxErrors file base max = (if nonneg_integer max then [] else [max_error])
  /\ (forall lo hi,
        min = Some (VNum lo) -> max = Some (VNum hi) ->
        Num.isInteger lo = true -> Num.isInteger hi = true ->
        rangeErrors file base min max
        = if Num.leb lo hi then []
          else [Diag file (base +:+ ".rule")
                  ("min (" +:+ Number_toString lo +:+ ") must be <= max ("
                   +:+ Number_toString hi +:+ ").")])
  /\ (Number_isInteger min && Number_isInteger max = false ->
      rangeErrors file base min max = [])
  /\ (forall selector,
        rule !! "selector" = Some (VStr selector) -> Str.blank selector = false ->
        selector ∈ allowed ->
        min = Some (VNum (Num.of_Z 5)) -> max = Some (VNum (Num.of_Z 3)) ->
        result = emit [Diag file (base +:+ ".rule") "min (5) must be <= max (3)."]
                      after_fields).
Proof.
  intros Hrule Hop base min max after_fields result min_error max_error.
  assert (Hresult : result
    = emit (countErrors allowed file base rule) after_fields).
  { subst result after_fields. rewrite checkEntry_exec, checkFields_exec.
    unfold entryErrors, entryProbes. rewrite Hrule. fold base.
    unfold ruleErrors, ruleProbes. rewrite Hop. simpl.
    unfold emit; simpl. by rewrite !app_nil_r, <- !app_assoc. }
  split; [exact Hresult|]. split; [|split; [|split; [|split]]].
  - unfold minErrors. rewrite not_integer_or_below_zero.
    by destruct (nonneg_integer min).
  - unfold maxErrors. rewrite not_integer_or_below_zero.
    by destruct (nonneg_integer max).
  - intros lo hi Hlo Hhi Hilo Hihi. unfold rangeErrors.
    rewrite Hlo, Hhi; simpl. rewrite Hilo, Hihi; simpl.
    rewrite gtb_not_leb by by apply isInteger_not_NaN.
    by destruct (Num.leb lo hi).
  - unfold rangeErrors, Number_isInteger.
    destruct (typeof_number min) as [lo|], (typeof_number max) as [hi|]; try done.
    intros ->. done.
  - intros selector Hselector Hblank Hin Hmin Hmax. rewrite Hresult.
    unfold countErrors, selectorErrors. fold min max.
    rewrite Hselector, Hblank, bool_decide_eq_true_2 by done.
    rewrite Hmin, Hmax. reflexivity.
Qed.

Lemma count_checks_are_additive_witness :
  errors (exec (checkEntry (host := ascii_host) (fun _ => false) {[ "h1" ]} "f.yml" 0
                  (VObj entryCount53)) start)
  = [Diag "f.yml" "checks[0].rule" "min (5) must be <= max (3)."].
Proof.
  pose proof (count_checks_are_additive (host := ascii_host) (fun _ => false) {[ "h1" ]}
                "f.yml" 0 entryCount53 countRule53 start eq_refl eq_refl)
    as (_ & _ & _ & _ & _ & Honly).
  rewrite (Honly "h1" eq_refl eq_refl ltac:(by apply elem_of_singleton) eq_refl eq_refl).
  reflexivity.
Defined.

(** ** The operator [llm] *)

(** C7 (amended).  For an entry whose rule has the operator [llm]: when
    [promptRef] is missing, is not a string, or is blank (empty once white
    space is trimmed), the error "promptRef is required for op=llm." is
    recorded and the file system is not probed; when it is a string that is
    not blank, its path is probed once, nothing is read, and the error "file
    not found" is recorded exactly when the probe fails; [introBlocks] gets
    no error when it is absent, and when it is present it gets one unless it
    is an integer that is not below 1.  These are all the errors the entry
    adds after the checks of its own fields. *)
Theorem llm_checks {host : Host}
    (fs : string -> bool) (allowed : gset string) (file : string)
    (i : nat) (c rule : gmap string value) (s : vstate) :
  c !! "rule" = Some (VObj rule) ->
  rule !! "op" = Some (VStr "llm") ->
  let base := basePath i in
  let after_fields := exec (checkFields file base c) s in
  let result := exec (checkEntry fs allowed file i (VObj c)) s in
  let required :=
    Diag file (base +:+ ".rule.promptRef") "promptRef is required for op=llm." in
  let not_found ref :=
    Diag file (base +:+ ".rule.promptRef") ("file not found '" +:+ ref +:+ "'") in
  let intro_error :=
    Diag file (base +:+ ".rule.introBlocks") "introBlocks must be an integer >= 1." in
  let intro_errors :=
    match rule !! "introBlocks" with
    | None => []
    | Some (VNum n) =>
        if Num.isInteger n && negb (Num.ltb n Num.one) then [] else [intro_error]
    | Some _ => [intro_error]
    end in
  (not_nonempty_string (rule !! "promptRef") = true ->
     errors result = errors after_fields ++ [required] ++ intro_errors
     /\ probes result = probes s)
  /\ (forall ref,
        rule !! "promptRef" = Some (VStr ref) -> Str.blank ref = false ->
        errors result
        = errors after_fields ++ (if fs ref then [] else [not_found ref]) ++ intro_errors
        /\ probes result = probes s ++ [ref])
  /\ warnings result = warnings s.
Proof.
  intros Hrule Hop base after_fields result required not_found intro_error intro_errors.
  assert (Hintro : introBlocksErrors file base (rule !! "introBlocks") = intro_errors).
  { unfold introBlocksErrors, intro_errors, not_integer_or_below.
    destruct (rule !! "introBlocks") as [[| |n| | |]|]; simpl; try reflexivity.
    by destruct (Num.isInteger n), (Num.ltb n Num.one). }
  assert (Hresult : result
    = VState (errors after_fields ++ llmErrors fs file base rule) (warnings s)
             (seenIds after_fields) (probes s ++ promptRefProbes (rule !! "promptRef"))).
  { subst result after_fields. rewrite checkEntry_exec, checkFields_exec.
    unfold entryErrors, entryProbes. rewrite Hrule. fold base.
    unfold ruleErrors, ruleProbes. rewrite Hop. simpl.
    by rewrite <- !app_assoc. }
  rewrite Hresult; simpl. unfold llmErrors. rewrite Hintro.
  split; [|split; [|reflexivity]].
  - unfold not_nonempty_string, promptRefErrors, promptRefProbes.
    destruct (rule !! "promptRef") as [[| | |ref| |]|]; try discriminate;
      try (intros _; by rewrite app_nil_r).
    intros ->. by rewrite app_nil_r.
  - intros ref Href Hblank. unfold promptRefErrors, promptRefProbes.
    by rewrite Href, Hblank.
Qed.

(** C7 (counterexample).  A [promptRef] of one space is a string that is
    not empty, and no such path exists; the entry gets the "required" error,
    not the "file not found" one, and nothing is probed. *)
Lemma blank_promptRef_is_required :
  String.length " " = 1%nat
  /\ (let result := exec (checkEntry (host := ascii_host) (fun _ => false) ∅ "f.yml" 0
                         (VObj entryLlmSpace)) start in
      errors result
      = [Diag "f.yml" "checks[0].rule.promptRef" "promptRef is required for op=llm."]
      /\ probes result = []).
Proof. repeat split. Qed.

Lemma llm_checks_witness :
  errors (exec (checkEntry (host := ascii_host) (fun _ => false) ∅ "f.yml" 0
                  (VObj entryLlmSpace)) start)
  = [Diag "f.yml" "checks[0].rule.promptRef" "promptRef is required for op=llm."].
Proof.
  pose proof (llm_checks (host := ascii_host) (fun _ => false) ∅ "f.yml" 0
                entryLlmSpace llmRuleSpace start eq_refl eq_refl) as (Hrequired & _).
  exact (proj1 (Hrequired eq_refl)).
Defined.

(** ** Duplicate ids *)

Lemma filter_no_duplicate l : no_duplicate l -> List.filter is_duplicate l = [].
Proof.
  intros Hl. induction Hl as [|d l Hd _ IH]; simpl; [reflexivity|]. by rewrite Hd.
Qed.

Lemma filter_others_no_duplicate l :
  no_duplicate l -> List.filter (fun d => negb (is_duplicate d)) l = l.
Proof.
  intros Hl. induction Hl as [|d l Hd _ IH]; simpl; [reflexivity|]. by rewrite Hd, IH.
Qed.

Lemma no_duplicate_app l1 l2 : no_duplicate l1 -> no_duplicate l2 -> no_duplicate (l1 ++ l2).
Proof. intros H1 H2. apply Forall_app. by split. Qed.

Ltac no_dup :=
  repeat (case_match; simpl);
  repeat apply no_duplicate_app;
  repeat constructor.

Lemma omap_cons_match {A B} (f : A -> option B) (a : A) (l : list A) :
  omap f (a :: l) = match f a with Some b => b :: omap f l | None => omap f l end.
Proof. reflexivity. Qed.

Section Duplicates.

Context {host : Host}.
Variable fs : string -> bool.
Variable allowedSelectors : gset string.
Variable file : string.

Lemma plainFieldErrors_no_duplicate base c :
  no_duplicate (plainFieldErrors file base c).
Proof.
  unfold plainFieldErrors, severityErrors, dimensionErrors, penaltyErrors, messageErrors.
  repeat apply no_duplicate_app; no_dup.
Qed.

Lemma ruleErrors_no_duplicate base rule :
  no_duplicate (ruleErrors fs allowedSelectors file base rule).
Proof.
  unfold ruleErrors. destruct (allowed_string _ _); [|no_dup].
  repeat apply no_duplicate_app; case_match; try (by constructor).
  - unfold countErrors, selectorErrors, minErrors, maxErrors, rangeErrors.
    repeat apply no_duplicate_app; no_dup.
  - unfold termDensityErrors, termsErrors, maxDensityErrors.
    repeat apply no_duplicate_app; no_dup.
  - unfold llmErrors, promptRefErrors, introBlocksErrors.
    repeat apply no_duplicate_app; no_dup.
Qed.

(** What an entry adds besides the error of a duplicate id. *)
Lemma entryErrors_split i c :
  exists rest,
    no_duplicate rest
    /\ forall seen,
         entryErrors fs allowedSelectors file i c seen
         = match entryId c with
           | Some id => if bool_decide (id ∈ seen) then [duplicateError file i id] else []
           | None => []
           end ++ rest.
Proof.
  destruct c as [| | | | |c];
    try (eexists; split; [|intros; simpl; reflexivity]; no_dup).
  destruct (acceptedId (c !! "id")) as [id|] eqn:Hid.
  - eexists. split; [|intros seen'; simpl; unfold idErrors; rewrite Hid; reflexivity].
    apply no_duplicate_app; [apply plainFieldErrors_no_duplicate|].
    destruct (c !! "rule") as [[| | | | |rule]|]; try no_dup.
    apply ruleErrors_no_duplicate.
  - eexists. split.
    2: { intros seen'; simpl; unfold idErrors; rewrite Hid.
         rewrite <- app_comm_cons. simpl. reflexivity. }
    constructor; [reflexivity|].
    apply no_duplicate_app; [apply plainFieldErrors_no_duplicate|].
    destruct (c !! "rule") as [[| | | | |rule]|]; try no_dup.
    apply ruleErrors_no_duplicate.
Qed.


Lemma entryErrors_duplicates i c seen :
  List.filter is_duplicate (entryErrors fs allowedSelectors file i c seen)
  = match entryId c with
    | Some id => if bool_decide (id ∈ seen) then [duplicateError file i id] else []
    | None => []
    end.
Proof.
  destruct (entryErrors_split i c) as (rest & Hrest & Heq). rewrite Heq.
  rewrite List.filter_app, (filter_no_duplicate rest Hrest), app_nil_r.
  destruct (entryId c) as [id|]; [|reflexivity].
  destruct (bool_decide _); reflexivity.
Qed.

Lemma entryErrors_others i c seen :
  List.filter (fun d => negb (is_duplicate d))
              (entryErrors fs allowedSelectors file i c seen)
  = entryErrors fs allowedSelectors file i c ∅.
Proof.
  destruct (entryErrors_split i c) as (rest & Hrest & Heq).
  rewrite (Heq seen), (Heq ∅), List.filter_app, (filter_others_no_duplicate rest Hrest).
  destruct (entryId c) as [id|]; [|reflexivity].
  rewrite (bool_decide_eq_false_2 (id ∈ (∅ : gset string))) by set_solver.
  destruct (bool_decide _); reflexivity.
Qed.

Lemma entrySeen_entryId c seen :
  entrySeen c seen = match entryId c with
                     | Some id => {[ id ]} ∪ seen
                     | None => seen
                     end.
Proof. destruct c; reflexivity. Qed.

Lemma loopErrors_duplicates post : forall pre seen,
  (forall id, id ∈ seen <-> Some id ∈ entryId <$> pre) ->
  List.filter is_duplicate (loopErrors fs allowedSelectors file (length pre) post seen)
  = omap (fun k => duplicateError file k <$> repeatsEarlier (pre ++ post) k)
         (seq (length pre) (length post)).
Proof.
  induction post as [|c rest IH]; intros pre seen Hseen; [reflexivity|].
  cbn [loopErrors length seq].
  rewrite List.filter_app, entryErrors_duplicates.
  specialize (IH (pre ++ [c]) (entrySeen c seen)).
  rewrite length_app, Nat.add_1_r, <- app_assoc in IH. cbn [app] in IH.
  rewrite IH.
  2: { intros id. rewrite entrySeen_entryId, fmap_app, elem_of_app. cbn [fmap list_fmap].
       rewrite list_elem_of_singleton, <- Hseen.
       destruct (entryId c) as [id'|].
       - rewrite elem_of_union, elem_of_singleton.
         split; [intros [->|H]; [by right | by left]
               | intros [H|[= ->]]; [by right | by left]].
       - split; [auto | intros [H|H]; [done | discriminate]]. }
  assert (Hhead : repeatsEarlier (pre ++ c :: rest) (length pre)
                  = match entryId c with
                    | Some id => if bool_decide (id ∈ seen) then Some id else None
                    | None => None
                    end).
  { unfold repeatsEarlier.
    rewrite list_lookup_middle by reflexivity. rewrite take_app_length.
    destruct (entryId c) as [id|]; [|reflexivity].
    by rewrite (bool_decide_ext _ _ (Hseen id)). }
  rewrite omap_cons_match, Hhead.
  destruct (entryId c) as [id|]; [|reflexivity].
  destruct (bool_decide _); reflexivity.
Qed.

Lemma documentErrors_duplicates r :
  List.filter is_duplicate (documentErrors fs allowedSelectors file r)
  = expectedDuplicates file (checksOf r).
Proof.
  unfold documentErrors, expectedDuplicates. rewrite !List.filter_app.
  rewrite (filter_no_duplicate (weightsErrors _ _)), (filter_no_duplicate (checksErrors _ _));
    [|unfold checksErrors; no_dup|unfold weightsErrors; no_dup].
  apply (loopErrors_duplicates (checksOf r) [] ∅).
  intros id. cbn [fmap list_fmap]. rewrite elem_of_nil.
  split; [apply not_elem_of_empty | done].
Qed.

End Duplicates.

Lemma append_assoc (a b c : string) : (a +:+ b) +:+ c = a +:+ b +:+ c.
Proof.
  induction a as [|x a IH]; [reflexivity|].
  change (String x ((a +:+ b) +:+ c) = String x (a +:+ b +:+ c)). by rewrite IH.
Qed.

(** The path of the id of entry [k]. *)
Lemma duplicateError_path file k id :
  duplicateError file k id
  = Diag file ("checks[" +:+ pretty k +:+ "].id") ("duplicate id '" +:+ id +:+ "'").
Proof.
  unfold duplicateError, basePath. by rewrite !append_assoc.
Qed.

Lemma omap_all_None {A B} (f : A -> option B) (l : list A) :
  (forall a, a ∈ l -> f a = None) -> omap f l = [].
Proof.
  induction l as [|a l IH]; intros Hnone; [reflexivity|].
  rewrite omap_cons_match, (Hnone a) by apply list_elem_of_here.
  apply IH. intros b Hb. apply Hnone. by apply list_elem_of_further.
Qed.

Lemma omap_seq_single {B} (f : nat -> option B) (n k : nat) (b : B) :
  (k < n)%nat -> f k = Some b ->
  (forall m, (m < n)%nat -> m ≠ k -> f m = None) ->
  omap f (seq 0 n) = [b].
Proof.
  intros Hk Hfk Hother.
  replace n with (k + S (n - S k))%nat by lia.
  rewrite seq_app, omap_app. change (0 + k)%nat with k.
  cbn [seq]. rewrite omap_cons_match, Hfk.
  rewrite !omap_all_None; [reflexivity| |].
  - intros m Hm. apply list_elem_of_In, in_seq in Hm. apply Hother; lia.
  - intros m Hm. apply list_elem_of_In, in_seq in Hm. apply Hother; lia.
Qed.

(** C2 (amended).  The errors that report a duplicate id are, in the order
    of the entries, one for each entry whose id is accepted (a string that
    is not blank) and is the id of an earlier entry: an id that occurs
    several times gets the error on its second and on every later
    occurrence.  In particular, when the entries [j < k] are the only two
    that share an accepted id, there is exactly one such error, located at
    the id of entry [k].  The check of an entry goes on after that error:
    its other errors are those it has when validated on its own. *)
Theorem duplicate_ids {host : Host}
    (fs : string -> bool) (allowed : gset string) (file : string)
    (r : gmap string value) (s : vstate) :
  let checks := checksOf r in
  let result := exec (validateRuleset fs allowed file r) s in
  let duplicates := List.filter is_duplicate (errors result) in
  duplicates = List.filter is_duplicate (errors s) ++ expectedDuplicates file checks
  /\ (forall j k cj ck id,
        (j < k)%nat ->
        checks !! j = Some cj -> entryId cj = Some id ->
        checks !! k = Some ck -> entryId ck = Some id ->
        (forall a b ca cb id',
           (a < b)%nat ->
           checks !! a = Some ca -> entryId ca = Some id' ->
           checks !! b = Some cb -> entryId cb = Some id' ->
           a = j /\ b = k) ->
        duplicates
        = List.filter is_duplicate (errors s)
          ++ [Diag file ("checks[" +:+ pretty k +:+ "].id") ("duplicate id '" +:+ id +:+ "'")])
  /\ (forall i c s',
        List.filter (fun d => negb (is_duplicate d))
                    (errors (exec (checkEntry fs allowed file i c) s'))
        = List.filter (fun d => negb (is_duplicate d)) (errors s')
          ++ errors (exec (checkEntry fs allowed file i c) start)).
Proof.
  intros checks result duplicates.
  assert (Hall : duplicates
                 = List.filter is_duplicate (errors s) ++ expectedDuplicates file checks).
  { subst duplicates result. rewrite validateRuleset_exec; simpl.
    by rewrite List.filter_app, documentErrors_duplicates. }
  split; [exact Hall|]. split.
  - intros j k cj ck id Hjk Hj Hidj Hk Hidk Honly.
    rewrite Hall. f_equal. unfold expectedDuplicates.
    rewrite <- duplicateError_path.
    apply (omap_seq_single _ _ k).
    + by apply lookup_lt_Some in Hk.
    + unfold repeatsEarlier. rewrite Hk, Hidk.
      rewrite bool_decide_eq_true_2; [reflexivity|].
      apply list_elem_of_lookup. exists j.
      by rewrite list_lookup_fmap, lookup_take_lt, Hj by lia; simpl; rewrite Hidj.
    + intros m Hm Hne. unfold repeatsEarlier.
      destruct (checks !! m) as [cm|] eqn:Hcm; [|reflexivity].
      destruct (entryId cm) as [idm|] eqn:Hidm; [|reflexivity].
      rewrite bool_decide_eq_false_2; [reflexivity|].
      intros Hin. apply list_elem_of_lookup in Hin as [a Ha].
      rewrite list_lookup_fmap in Ha.
      destruct (take m checks !! a) as [ca|] eqn:Hca; [|discriminate].
      apply lookup_take_Some in Hca as [Hca Ham].
      simpl in Ha. injection Ha as Ha.
      destruct (Honly a m ca cm idm Ham Hca Ha Hcm Hidm) as [_ ->]. done.
  - intros i c s'. rewrite !checkEntry_exec; simpl.
    by rewrite List.filter_app, entryErrors_others.
Qed.

(** C2 (counterexample).  Two entries whose ids are the same string of one
    space, which is not empty: no duplicate is reported; each entry gets the
    error of a missing id. *)
Lemma blank_ids_are_not_duplicates :
  String.length " " = 1%nat
  /\ (let result := exec (validateRuleset (host := ascii_host) (fun _ => false) ∅ "f.yml"
                         (rulesetWithIds [" "; " "])) start in
      List.filter is_duplicate (errors result) = []
      /\ errors result
         = [Diag "f.yml" "checks[0].id" "id is required and must be a non-empty string.";
            Diag "f.yml" "checks[1].id" "id is required and must be a non-empty string."]).
Proof. repeat split. Qed.

Example duplicate_ids_example :
  errors (exec (validateRuleset (host := ascii_host) (fun _ => false) ∅ "f.yml"
                  (rulesetWithIds ["a"; "b"; "a"; "a"])) start)
  = [Diag "f.yml" "checks[2].id" "duplicate id 'a'";
     Diag "f.yml" "checks[3].id" "duplicate id 'a'"].
Proof. reflexivity. Qed.

(** ** The top-level fields *)

Section TopLevel.

Context {host : Host}.
Variable fs : string -> bool.
Variable allowed : gset string.
Variable file : string.

(** What a document has without its [weights]. *)
Lemma validateRuleset_without_weights r s :
  let result := exec (validateRuleset fs allowed file r) s in
  let without := exec (validateRuleset fs allowed file (delete "weights" r)) s in
  errors result
  = errors s ++ weightsErrors file (r !! "weights")
    ++ drop (length (errors s)) (errors without)
  /\ warnings result = warnings without ++ weightsWarnings file (r !! "weights").
Proof.
  intros result without. subst result without.
  rewrite !validateRuleset_exec; simpl.
  unfold documentErrors, documentWarnings, checksOf.
  rewrite lookup_delete_eq, !lookup_delete_ne by done. simpl.
  rewrite drop_app_length, app_nil_r. split; [reflexivity|].
  by rewrite app_assoc.
Qed.

Lemma validateRuleset_warnings r s :
  warnings (exec (validateRuleset fs allowed file r) s)
  = warnings s ++ languageWarnings file (r !! "language")
    ++ warnings (exec (checkWeights file r) start).
Proof.
  rewrite validateRuleset_exec, checkWeights_exec; simpl.
  reflexivity.
Qed.

Lemma five_numbers w x1 x2 x3 x4 x5 :
  w !! "structure" = Some (VNum x1) ->
  w !! "answerability" = Some (VNum x2) ->
  w !! "neutrality" = Some (VNum x3) ->
  w !! "topical_focus" = Some (VNum x4) ->
  w !! "entity_binding" = Some (VNum x5) ->
  missingWeights w = []
  /\ weightsSum w
     = Num.add (Num.add (Num.add (Num.add (Num.add Num.zero x1) x2) x3) x4) x5.
Proof.
  intros H1 H2 H3 H4 H5. unfold missingWeights, weightsSum, REQUIRED_WEIGHTS.
  cbn [List.filter fold_left]. rewrite H1, H2, H3, H4, H5. split; reflexivity.
Qed.

End TopLevel.

Lemma add_NaN_r x : Num.add x Num.NaN = Num.NaN.
Proof. by destruct x. Qed.

Lemma add_NaN_l x : Num.add Num.NaN x = Num.NaN.
Proof. by destruct x. Qed.

Lemma isNaN_eq x : Num.isNaN x = true -> x = Num.NaN.
Proof. by destruct x. Qed.

(** C4.  For a document whose [weights] is an object in which the five
    required keys hold numbers, with [sum] the binary64 sum of the five in
    the order of the table, starting from zero: the field adds no error; when
    the distance of [sum] to 1.0 is at most 1e-4 it adds no warning either;
    otherwise it adds exactly one warning, which carries [sum.toFixed(6)]. *)
Theorem weights_sum_tolerance {host : Host}
    (fs : string -> bool) (allowed : gset string) (file : string)
    (r w : gmap string value) (x1 x2 x3 x4 x5 : number) (s : vstate) :
  r !! "weights" = Some (VObj w) ->
  w !! "structure" = Some (VNum x1) ->
  w !! "answerability" = Some (VNum x2) ->
  w !! "neutrality" = Some (VNum x3) ->
  w !! "topical_focus" = Some (VNum x4) ->
  w !! "entity_binding" = Some (VNum x5) ->
  let sum := Num.add (Num.add (Num.add (Num.add (Num.add Num.zero x1) x2) x3) x4) x5 in
  let within_tolerance := Num.leb (Num.abs (Num.sub sum Num.one)) Num.eps_1e_4 in
  let result := exec (validateRuleset fs allowed file r) s in
  let without := exec (validateRuleset fs allowed file (delete "weights" r)) s in
  errors result = errors without
  /\ warnings result
     = warnings without
       ++ (if within_tolerance then []
           else ["WARN " +:+ file +:+ " weights: sum is " +:+ toFixed sum 6
                 +:+ ", expected ~1.0 (Â±1e-4)."]).
Proof.
  intros Hw H1 H2 H3 H4 H5 sum within_tolerance result without.
  destruct (validateRuleset_without_weights fs allowed file r s) as [Herr Hwarn].
  destruct (five_numbers w x1 x2 x3 x4 x5 H1 H2 H3 H4 H5) as [Hmissing Hsum].
  fold result without in Herr, Hwarn. rewrite Hw in Herr, Hwarn.
  split.
  - rewrite Herr. cbn [weightsErrors app].
    subst without. rewrite validateRuleset_exec; simpl.
    by rewrite drop_app_length.
  - rewrite Hwarn. unfold weightsWarnings. rewrite Hmissing, Hsum. reflexivity.
Qed.

Lemma weights_sum_tolerance_witness :
  let result := exec (validateRuleset (host := ascii_host) (fun _ => false) ∅ "f.yml"
                        (rulesetWithWeights dbl_0_2002 dbl_0_2 dbl_0_2 dbl_0_2 dbl_0_2))
                     start in
  errors result = []
  /\ warnings result = ["WARN f.yml weights: sum is 1.000200, expected ~1.0 (Â±1e-4)."].
Proof.
  exact (weights_sum_tolerance (host := ascii_host) (fun _ => false) ∅ "f.yml"
           (rulesetWithWeights dbl_0_2002 dbl_0_2 dbl_0_2 dbl_0_2 dbl_0_2)
           (weightsOf dbl_0_2002 dbl_0_2 dbl_0_2 dbl_0_2 dbl_0_2)
           dbl_0_2002 dbl_0_2 dbl_0_2 dbl_0_2 dbl_0_2 start
           eq_refl eq_refl eq_refl eq_refl eq_refl eq_refl).
Defined.

Example weights_within_tolerance :
  let result := exec (validateRuleset (host := ascii_host) (fun _ => false) ∅ "f.yml"
                        (rulesetWithWeights dbl_0_2 dbl_0_2 dbl_0_2 dbl_0_2 dbl_0_2))
                     start in
  errors result = [] /\ warnings result = [].
Proof. split; reflexivity. Qed.

(** C10.  For a document whose [weights] is an object in which the five
    required keys hold values of number type, one of them NaN: no key counts
    as missing or non-numeric, the sum is NaN, and the field adds exactly one
    warning, the one of the sum, which reads "sum is NaN"; it adds no error. *)
Theorem weights_with_NaN {host : Host}
    (fs : string -> bool) (allowed : gset string) (file : string)
    (r w : gmap string value) (x1 x2 x3 x4 x5 : number) (s : vstate) :
  r !! "weights" = Some (VObj w) ->
  w !! "structure" = Some (VNum x1) ->
  w !! "answerability" = Some (VNum x2) ->
  w !! "neutrality" = Some (VNum x3) ->
  w !! "topical_focus" = Some (VNum x4) ->
  w !! "entity_binding" = Some (VNum x5) ->
  Num.isNaN x1 || Num.isNaN x2 || Num.isNaN x3 || Num.isNaN x4 || Num.isNaN x5 = true ->
  let result := exec (validateRuleset fs allowed file r) s in
  let without := exec (validateRuleset fs allowed file (delete "weights" r)) s in
  missingWeights w = []
  /\ weightsSum w = Num.NaN
  /\ approxEquals (weightsSum w) Num.one Num.eps_1e_4 = false
  /\ warnings result
     = warnings without ++ ["WARN " +:+ file +:+ " weights: sum is NaN, expected ~1.0 (Â±1e-4)."]
  /\ errors result = errors without.
Proof.
  intros Hw H1 H2 H3 H4 H5 Hnan result without.
  destruct (validateRuleset_without_weights fs allowed file r s) as [Herr Hwarn].
  destruct (five_numbers w x1 x2 x3 x4 x5 H1 H2 H3 H4 H5) as [Hmissing Hsum].
  fold result without in Herr, Hwarn. rewrite Hw in Herr, Hwarn.
  assert (Hsum' : weightsSum w = Num.NaN).
  { rewrite Hsum.
    repeat (apply orb_true_iff in Hnan as [Hnan|Hnan]);
      apply isNaN_eq in Hnan; subst; by rewrite ?add_NaN_r, ?add_NaN_l. }
  split; [exact Hmissing|]. split; [exact Hsum'|]. split; [by rewrite Hsum'|]. split.
  - rewrite Hwarn. unfold weightsWarnings. rewrite Hmissing, Hsum'. reflexivity.
  - rewrite Herr. cbn [weightsErrors app].
    subst without. rewrite validateRuleset_exec; simpl.
    by rewrite drop_app_length.
Qed.

Lemma weights_with_NaN_witness :
  warnings (exec (validateRuleset (host := ascii_host) (fun _ => false) ∅ "f.yml"
                    (rulesetWithWeights dbl_0_2 dbl_0_2 Num.NaN dbl_0_2 dbl_0_2)) start)
  = ["WARN f.yml weights: sum is NaN, expected ~1.0 (Â±1e-4)."].
Proof.
  pose proof (weights_with_NaN (host := ascii_host) (fun _ => false) ∅ "f.yml"
                (rulesetWithWeights dbl_0_2 dbl_0_2 Num.NaN dbl_0_2 dbl_0_2)
                (weightsOf dbl_0_2 dbl_0_2 Num.NaN dbl_0_2 dbl_0_2)
                dbl_0_2 dbl_0_2 Num.NaN dbl_0_2 dbl_0_2 start
                eq_refl eq_refl eq_refl eq_refl eq_refl eq_refl eq_refl)
    as (_ & _ & _ & Hwarn & _).
  exact Hwarn.
Defined.

(** ** The field [language] *)

(** C5 (amended).  The warnings of a document are those of [language]
    followed by those of [weights].  For a [language] that is a string, with
    [normalized] its trimmed and lower-cased form: the warning of unusual
    formatting is emitted exactly when the value differs both from
    [normalized] and from [normalized] in upper case; independently, the
    warning of not looking like a BCP-47 code is emitted exactly when the
    trimmed value fails the pattern of two letters and an optional subtag,
    letters of either case.  For a [language] that is present and not a
    string there is the one warning that it should be a string; when it is
    absent there is none. *)
Theorem language_warnings {host : Host}
    (fs : string -> bool) (allowed : gset string) (file : string)
    (r : gmap string value) (s : vstate) :
  let from_language :=
    match r !! "language" with
    | Some (VStr lang) =>
        let trimmed := Str.trim lang in
        let normalized := toLowerCase trimmed in
        (if bool_decide (lang ≠ normalized /\ lang ≠ toUpperCase normalized)
         then ["WARN " +:+ file +:+ " language: '" +:+ lang
               +:+ "' unusual formatting; consider 'de' or 'en'."]
         else [])
        ++ (if Str.looks_like_bcp47 trimmed then []
            else ["WARN " +:+ file +:+ " language: '" +:+ lang
                  +:+ "' doesn't look like a BCP-47 code."])
    | Some _ =>
        ["WARN " +:+ file +:+ " language: should be a string (e.g., "
         +:+ dquote +:+ "de" +:+ dquote +:+ ")."]
    | None => []
    end in
  warnings (exec (validateRuleset fs allowed file r) s)
  = warnings s ++ from_language ++ warnings (exec (checkWeights file r) start).
Proof.
  intros from_language. rewrite validateRuleset_warnings. do 2 f_equal.
  unfold from_language, languageWarnings.
  destruct (r !! "language") as [[| | |lang| |]|]; try reflexivity.
  cbv zeta. f_equal.
  destruct (bool_decide (lang ≠ _)) eqn:H1, (bool_decide (lang ≠ toUpperCase _)) eqn:H2;
    simpl.
  - apply bool_decide_eq_true in H1, H2. by rewrite bool_decide_eq_true_2.
  - apply bool_decide_eq_false in H2. rewrite bool_decide_eq_false_2; [done|tauto].
  - apply bool_decide_eq_false in H1. rewrite bool_decide_eq_false_2; [done|tauto].
  - apply bool_decide_eq_false in H1. rewrite bool_decide_eq_false_2; [done|tauto].
Qed.

(** C5 (counterexample).  For the language "DE" the trimmed and lower-cased
    form "de" differs from the value and from the value in upper case, and
    no warning is emitted. *)
Lemma upper_case_language_is_accepted :
  let lang := "DE" in
  let normalized := toLowerCase (Host := ascii_host) (Str.trim lang) in
  normalized ≠ lang
  /\ normalized ≠ toUpperCase (Host := ascii_host) lang
  /\ warnings (exec (validateRuleset (host := ascii_host) (fun _ => false) ∅ "f.yml"
                       (rulesetWithLanguage (VStr "DE"))) start) = [].
Proof. repeat split; discriminate. Qed.

(** The pattern is tried on the trimmed value: a leading space is reported
    as unusual formatting only. *)
Example language_with_leading_space :
  Str.looks_like_bcp47 " de" = false
  /\ warnings (exec (validateRuleset (host := ascii_host) (fun _ => false) ∅ "f.yml"
                       (rulesetWithLanguage (VStr " de"))) start)
     = ["WARN f.yml language: ' de' unusual formatting; consider 'de' or 'en'."].
Proof. split; reflexivity. Qed.

Example language_not_a_string :
  warnings (exec (validateRuleset (host := ascii_host) (fun _ => false) ∅ "f.yml"
                    (rulesetWithLanguage VNull)) start)
  = ["WARN f.yml language: should be a string (e.g., " +:+ dquote +:+ "de" +:+ dquote +:+ ")."].
Proof. reflexivity. Qed.


(** ** Further properties of the file loop *)

(** X1.  A file whose read or parse throws gets two errors at the root: the one of
    the exception and, the document still being null, the one of an empty
    ruleset.  Both are printed and the file fails. *)
Theorem read_exception_two_root_errors {host : Host}
    (w : world) (allowed : gset string) (file e : string) (p : pstate) :
  readYaml w file = Threw e ->
  processFile w allowed p file
  = PState true
      (console p
       ++ [Error ("FAIL " +:+ file +:+ " (root): YAML parse error: " +:+ e);
           Error ("FAIL " +:+ file +:+ " (root): Ruleset is empty (YAML parsed to null).")]).
Proof.
  intros Hread. rewrite processFile_eq, diagnose_eq, Hread. simpl.
  by rewrite orb_true_r.
Qed.

Lemma read_exception_two_root_errors_witness :
  processFile (host := ascii_host) world_without_selectors ∅ (PState false [])
              "rules/missing/ruleset.yml"
  = PState true
      [Error "FAIL rules/missing/ruleset.yml (root): YAML parse error: ENOENT";
       Error "FAIL rules/missing/ruleset.yml (root): Ruleset is empty (YAML parsed to null)."].
Proof.
  exact (read_exception_two_root_errors (host := ascii_host) world_without_selectors ∅
           "rules/missing/ruleset.yml" "ENOENT" (PState false []) eq_refl).
Defined.

(** X2.  A document with an empty list of checks, no [weights] and no [language]
    has no error and no warning, and passes. *)
Theorem empty_checks_pass {host : Host}
    (w : world) (allowed : gset string) (file : string)
    (r : gmap string value) (p : pstate) :
  readYaml w file = Parsed (VObj r) ->
  r !! "language" = None ->
  r !! "weights" = None ->
  r !! "checks" = Some (VArr []) ->
  diagnose w allowed file = VState [] [] ∅ []
  /\ processFile w allowed p file
     = PState (failedAny p) (console p ++ [Log ("OK   semantic " +:+ file)]).
Proof.
  intros Hread Hlanguage Hweights Hchecks.
  assert (Hdiag : diagnose w allowed file = VState [] [] ∅ []).
  { rewrite diagnose_eq, Hread.
    unfold documentErrors, documentWarnings, checksOf.
    by rewrite Hlanguage, Hweights, Hchecks. }
  split; [exact Hdiag|].
  rewrite processFile_eq, Hdiag. simpl. by rewrite orb_false_r.
Qed.

Lemma empty_checks_pass_witness :
  processFile (host := ascii_host) world_with_empty_file {[ "h1" ]} (PState false [])
              "rules/a/ruleset.yml"
  = PState false [Log "OK   semantic rules/a/ruleset.yml"].
Proof.
  exact (proj2 (empty_checks_pass (host := ascii_host) world_with_empty_file {[ "h1" ]}
                  "rules/a/ruleset.yml" {[ "checks" := VArr [] ]} (PState false [])
                  eq_refl eq_refl eq_refl eq_refl)).
Defined.

(** X3.  For an entry whose rule has the operator [term_density] and an empty
    list of terms, the field [terms] gets its one error; the entry adds it,
    followed by the error of [maxDensity] if any, after the checks of its own
    fields. *)
Theorem empty_terms_one_error {host : Host}
    (fs : string -> bool) (allowed : gset string) (file : string)
    (i : nat) (c rule : gmap string value) (s : vstate) :
  c !! "rule" = Some (VObj rule) ->
  rule !! "op" = Some (VStr "term_density") ->
  rule !! "terms" = Some (VArr []) ->
  let base := basePath i in
  exec (checkEntry fs allowed file i (VObj c)) s
  = emit (Diag file (base +:+ ".rule.terms") "terms must be a non-empty array of strings."
          :: maxDensityErrors file base (rule !! "maxDensity"))
         (exec (checkFields file base c) s).
Proof.
  intros Hrule Hop Hterms base.
  rewrite checkEntry_exec, checkFields_exec.
  unfold entryErrors, entryProbes. rewrite Hrule. fold base.
  unfold ruleErrors, ruleProbes. rewrite Hop. simpl.
  unfold termDensityErrors, termsErrors. rewrite Hterms. simpl.
  unfold emit; simpl. by rewrite !app_nil_r, <- !app_assoc.
Qed.

Lemma empty_terms_one_error_witness :
  errors (exec (checkEntry (host := ascii_host) (fun _ => false) ∅ "f.yml" 0
                  (VObj entryWithNoTerms)) start)
  = [Diag "f.yml" "checks[0].rule.terms" "terms must be a non-empty array of strings."].
Proof.
  rewrite (empty_terms_one_error (host := ascii_host) (fun _ => false) ∅ "f.yml" 0
             entryWithNoTerms ruleWithNoTerms start eq_refl eq_refl eq_refl).
  reflexivity.
Defined.

(** * Further properties *)

(** ** Comparisons of numbers *)

Lemma leb_not_NaN_r x y : Num.leb x y = true -> Num.isNaN y = false.
Proof. destruct x, y; try done; by destruct s. Qed.

Lemma ltb_not_leb x y :
  Num.isNaN x = false -> Num.isNaN y = false -> Num.ltb x y = negb (Num.leb y x).
Proof. intros Hx Hy. by apply (gtb_not_leb y x). Qed.

(** [x] is a number, not NaN, and not below [bound]. *)
Lemma not_below_iff x bound :
  Num.isNaN bound = false ->
  Num.isNaN x = false /\ Num.ltb x bound = false <-> Num.leb bound x = true.
Proof.
  intros Hbound. split.
  - intros [Hx Hlt]. rewrite ltb_not_leb in Hlt by done.
    by destruct (Num.leb bound x).
  - intros Hle. assert (Hx := leb_not_NaN_r _ _ Hle).
    split; [done|]. rewrite ltb_not_leb by done. by rewrite Hle.
Qed.

Lemma and_iff_both (A B C D : Prop) : (A <-> B) -> (C <-> D) -> (A /\ C <-> B /\ D).
Proof. tauto. Qed.

(** ** A document passes exactly when it is well formed *)

Section PassIff.

Context {host : Host}.
Variable fs : string -> bool.
Variable allowed : gset string.
Variables file base : string.

Lemma nonblank_string_iff x :
  not_nonempty_string x = false <-> nonblank_string x.
Proof.
  unfold not_nonempty_string, nonblank_string. split.
  - destruct x as [[| | |s| |]|]; try discriminate. eauto.
  - by intros (s & -> & ->).
Qed.

Lemma acceptedId_iff x id :
  acceptedId x = Some id <-> x = Some (VStr id) /\ Str.blank id = false.
Proof.
  unfold acceptedId. split.
  - destruct x as [[| | |s| |]|]; try discriminate.
    destruct (Str.blank s) eqn:Hs; [discriminate|]. by intros [= ->].
  - by intros [-> ->].
Qed.

Lemma idErrors_nil x seen :
  idErrors file base x seen = []
  <-> exists id, acceptedId x = Some id /\ id ∉ seen.
Proof.
  unfold idErrors. destruct (acceptedId x) as [id|].
  - destruct (decide (id ∈ seen)) as [Hin|Hout].
    + rewrite bool_decide_eq_true_2 by done. split; [discriminate|].
      intros (id' & [= <-] & Hnot). contradiction.
    + rewrite bool_decide_eq_false_2 by done. split; [eauto | done].
  - split; [discriminate | by intros (? & [=] & _)].
Qed.

Lemma allowed_string_iff (table : list string) x :
  allowed_string table x = true <-> exists s, x = Some (VStr s) /\ s ∈ table.
Proof.
  unfold allowed_string. split.
  - destruct x as [[| | |s| |]|]; try discriminate.
    intros Hs. apply bool_decide_eq_true in Hs. eauto.
  - intros (s & -> & Hs). by apply bool_decide_eq_true.
Qed.

Lemma severityErrors_nil x :
  severityErrors file base x = []
  <-> exists s, x = Some (VStr s) /\ s ∈ ["low"; "medium"; "high"].
Proof.
  unfold severityErrors. rewrite <- (allowed_string_iff ALLOWED_SEVERITIES).
  by destruct (allowed_string _ _).
Qed.

Lemma dimensionErrors_nil x :
  dimensionErrors file base x = []
  <-> exists d, x = Some (VStr d)
                /\ d ∈ ["structure"; "answerability"; "neutrality";
                        "topical_focus"; "entity_binding"].
Proof.
  unfold dimensionErrors. rewrite <- (allowed_string_iff ALLOWED_DIMENSIONS).
  by destruct (allowed_string _ _).
Qed.

Lemma penaltyErrors_nil x :
  penaltyErrors file base x = []
  <-> exists p, x = Some (VNum p) /\ Num.leb Num.zero p = true.
Proof.
  unfold penaltyErrors, typeof_number.
  destruct x as [[| |p| | |]|]; try (split; [discriminate | by intros (? & [=] & _)]).
  pose proof (not_below_iff p Num.zero eq_refl) as Hiff.
  destruct (Num.isNaN p) eqn:Hnan.
  - split; [discriminate|]. intros (p' & [= <-] & Hle).
    apply Hiff in Hle as [? _]. congruence.
  - destruct (Num.ltb p Num.zero) eqn:Hlt.
    + split; [discriminate|]. intros (p' & [= <-] & Hle).
      apply Hiff in Hle as [_ ?]. congruence.
    + split; [|done]. intros _. exists p. split; [done|]. by apply Hiff.
Qed.

Lemma messageErrors_nil x :
  messageErrors file base x = [] <-> nonblank_string x.
Proof.
  unfold messageErrors. rewrite <- nonblank_string_iff.
  by destruct (not_nonempty_string x).
Qed.

Lemma selectorErrors_nil x :
  selectorErrors allowed file base x = []
  <-> exists selector,
        x = Some (VStr selector) /\ Str.blank selector = false /\ selector ∈ allowed.
Proof.
  unfold selectorErrors.
  destruct x as [[| | |sel| |]|];
    try (split; [discriminate | by intros (? & [=] & _)]).
  destruct (Str.blank sel) eqn:Hblank.
  - split; [discriminate|]. intros (? & [= <-] & ? & _). congruence.
  - destruct (decide (sel ∈ allowed)) as [Hin|Hout].
    + rewrite bool_decide_eq_true_2 by done. split; [eauto | done].
    + rewrite bool_decide_eq_false_2 by done. split; [discriminate|].
      intros (? & [= <-] & _ & ?). contradiction.
Qed.

Lemma nonneg_integer_iff x :
  nonneg_integer x = true
  <-> exists n a, x = Some (VNum n) /\ Num.intValue n = Some a /\ 0 <= a.
Proof.
  unfold nonneg_integer. split.
  - destruct x as [[| |n| | |]|]; try discriminate.
    destruct (Num.intValue n) as [a|] eqn:Hn; [|discriminate].
    intros Ha. apply Z.leb_le in Ha. by exists n, a.
  - intros (n & a & -> & -> & Ha). by apply Z.leb_le.
Qed.

Lemma countErrors_nil rule :
  countErrors allowed file base rule = [] <-> valid_count allowed rule.
Proof.
  unfold countErrors, valid_count.
  rewrite !app_nil, selectorErrors_nil.
  unfold minErrors, maxErrors. rewrite !not_integer_or_below_zero.
  split.
  - intros (Hsel & Hmin & Hmax & Hrange). split; [done|].
    destruct (nonneg_integer (rule !! "min")) eqn:Hlo; [|discriminate].
    destruct (nonneg_integer (rule !! "max")) eqn:Hhi; [|discriminate].
    apply nonneg_integer_iff in Hlo as (lo & a & Hlo & Ha & Ha0).
    apply nonneg_integer_iff in Hhi as (hi & b & Hhi & Hb & Hb0).
    exists lo, hi. repeat split; eauto.
    unfold rangeErrors, Num.isInteger in Hrange.
    rewrite Hlo, Hhi in Hrange; simpl in Hrange. rewrite Ha, Hb in Hrange.
    simpl in Hrange.
    rewrite gtb_not_leb in Hrange
      by (apply isInteger_not_NaN; unfold Num.isInteger; by rewrite ?Ha, ?Hb).
    by destruct (Num.leb lo hi).
  - intros (Hsel & lo & hi & Hlo & Hhi & (a & Ha & Ha0) & (b & Hb & Hb0) & Hle).
    split; [done|].
    assert (Hnlo : nonneg_integer (rule !! "min") = true)
      by (apply nonneg_integer_iff; eauto 6).
    assert (Hnhi : nonneg_integer (rule !! "max") = true)
      by (apply nonneg_integer_iff; eauto 6).
    rewrite Hnlo, Hnhi. repeat split.
    unfold rangeErrors, Num.isInteger. rewrite Hlo, Hhi; simpl. rewrite Ha, Hb; simpl.
    rewrite gtb_not_leb
      by (apply isInteger_not_NaN; unfold Num.isInteger; by rewrite ?Ha, ?Hb).
    by rewrite Hle.
Qed.

Lemma some_bad_term_false terms :
  some_bad_term terms = false <-> Forall (fun t => nonblank_string (Some t)) terms.
Proof.
  unfold some_bad_term. induction terms as [|t terms IH]; cbn [existsb].
  - split; [constructor | done].
  - rewrite orb_false_iff, IH, Forall_cons, nonblank_string_iff. reflexivity.
Qed.

Lemma termDensityErrors_nil rule :
  termDensityErrors file base rule = [] <-> valid_term_density rule.
Proof.
  unfold termDensityErrors, valid_term_density. rewrite app_nil.
  apply and_iff_both.
  - unfold termsErrors.
    destruct (rule !! "terms") as [[| | | |terms|]|];
      try (split; [discriminate | by intros (? & [=] & _)]).
    destruct terms as [|t terms].
    { split; [discriminate | by intros (? & [= <-] & ? & _)]. }
    change (length (t :: terms) =? 0)%nat with false. cbn [orb].
    destruct (some_bad_term (t :: terms)) eqn:Hbad.
    + split; [discriminate|]. intros (? & [= <-] & _ & Hall).
      apply some_bad_term_false in Hall. congruence.
    + split; [|done]. intros _. exists (t :: terms).
      split; [done|]. split; [done|]. by apply some_bad_term_false.
  - unfold maxDensityErrors, typeof_number.
    destruct (rule !! "maxDensity") as [[| |d| | |]|];
      try (split; [discriminate | by intros (? & [=] & _)]).
    pose proof (not_below_iff d Num.zero eq_refl) as Hzero.
    destruct (Num.isNaN d) eqn:Hnan; simpl.
    { split; [discriminate|]. intros (? & [= <-] & Hle & _).
      apply Hzero in Hle as [? _]. congruence. }
    destruct (Num.ltb d Num.zero) eqn:Hlt; simpl.
    { split; [discriminate|]. intros (? & [= <-] & Hle & _).
      apply Hzero in Hle as [_ ?]. congruence. }
    rewrite gtb_not_leb by done.
    destruct (Num.leb d Num.one) eqn:Hle; simpl.
    + split; [|done]. intros _. exists d. split; [done|]. split; [|done].
      by apply Hzero.
    + split; [discriminate|]. intros (? & [= <-] & _ & ?). congruence.
Qed.

Lemma llmErrors_nil rule :
  llmErrors fs file base rule = [] <-> valid_llm fs rule.
Proof.
  unfold llmErrors, valid_llm. rewrite app_nil.
  apply and_iff_both.
  - unfold promptRefErrors.
    destruct (rule !! "promptRef") as [[| | |ref| |]|];
      try (split; [discriminate | by intros (? & [=] & _)]).
    destruct (Str.blank ref) eqn:Hblank.
    { split; [discriminate|]. intros (? & [= <-] & ? & _). congruence. }
    destruct (fs ref) eqn:Hfs.
    + split; [eauto | done].
    + split; [discriminate|]. intros (? & [= <-] & _ & ?). congruence.
  - unfold introBlocksErrors, not_integer_or_below, typeof_number.
    destruct (rule !! "introBlocks") as [[| |n| | |]|];
      try (split; [discriminate | by intros [[=]|(? & [=] & _)]]).
    2: { split; [by left | done]. }
    destruct (Num.isInteger n) eqn:Hint; simpl.
    2: { split; [discriminate|]. intros [[=]|(? & [= <-] & ? & _)]. congruence. }
    pose proof (not_below_iff n Num.one eq_refl) as Hone.
    destruct (Num.ltb n Num.one) eqn:Hlt.
    + split; [discriminate|]. intros [[=]|(? & [= <-] & _ & Hle)].
      apply Hone in Hle as [_ ?]. congruence.
    + split; [|done]. intros _. right. exists n. split; [done|]. split; [done|].
      apply Hone. split; [by apply isInteger_not_NaN | done].
Qed.

Lemma ruleErrors_nil rule :
  ruleErrors fs allowed file base rule = [] <-> valid_rule fs allowed rule.
Proof.
  unfold ruleErrors, valid_rule.
  rewrite <- countErrors_nil, <- termDensityErrors_nil, <- llmErrors_nil.
  destruct (rule !! "op") as [[| | |op| |]|] eqn:Hop;
    try (cbn; split; [discriminate | by intros [[[=] _]|[[[=] _]|[[=] _]]]]).
  unfold allowed_string, is_string, ALLOWED_OPS.
  destruct (decide (op = "count")) as [->|Hcount].
  { cbn. rewrite app_nil_r. split; [by left|].
    by intros [[_ ?]|[[[=] _]|[[=] _]]]. }
  destruct (decide (op = "term_density")) as [->|Hterm].
  { cbn. rewrite app_nil_r. split; [by right; left|].
    by intros [[[=] _]|[[_ ?]|[[=] _]]]. }
  destruct (decide (op = "llm")) as [->|Hllm].
  { cbn. split; [by right; right|].
    by intros [[[=] _]|[[[=] _]|[_ ?]]]. }
  rewrite bool_decide_eq_false_2.
  - split; [discriminate|]. intros [[[=] _]|[[[=] _]|[[=] _]]]; congruence.
  - rewrite !elem_of_cons, elem_of_nil. tauto.
Qed.

End PassIff.

Section PassIffDocument.

Context {host : Host}.
Variable fs : string -> bool.
Variable allowed : gset string.
Variable file : string.

Lemma valid_entry_id c :
  valid_entry fs allowed c -> exists id, entryId c = Some id.
Proof.
  intros (fields & -> & (id & Hid & Hblank) & _). exists id.
  by apply acceptedId_iff.
Qed.

Lemma entryErrors_nil i c seen :
  entryErrors fs allowed file i c seen = []
  <-> valid_entry fs allowed c /\ exists id, entryId c = Some id /\ id ∉ seen.
Proof.
  destruct c as [| | | | |fields];
    try (split; [discriminate | by intros [(? & [=] & _) _]]).
  unfold entryErrors, plainFieldErrors, valid_entry, entryId.
  rewrite !app_nil, idErrors_nil, severityErrors_nil, dimensionErrors_nil,
    penaltyErrors_nil, messageErrors_nil.
  split.
  - intros ((id & Hid & Hseen) & (Hsev & Hdim & Hpen & Hmsg) & Hrule).
    split; [|eauto].
    exists fields. split; [done|].
    split. { apply acceptedId_iff in Hid as [-> ?]. by exists id. }
    do 4 (split; [done|]).
    destruct (fields !! "rule") as [[| | | | |rule]|]; try discriminate.
    exists rule. split; [done|]. by apply (ruleErrors_nil fs allowed file (basePath i)).
  - intros [(fields' & [= <-] & _ & Hsev & Hdim & Hpen & Hmsg & rule & Hrule & Hvalid) Hid].
    split; [done|]. split; [done|].
    rewrite Hrule. by apply ruleErrors_nil.
Qed.

Lemma loopErrors_nil checks : forall i seen,
  loopErrors fs allowed file i checks seen = []
  <-> Forall (valid_entry fs allowed) checks
      /\ NoDup (omap entryId checks)
      /\ forall id, id ∈ omap entryId checks -> id ∉ seen.
Proof.
  induction checks as [|c rest IH]; intros i seen.
  - cbn. split; [|done]. intros _. split; [constructor|]. split; [constructor|].
    intros id Hid. by apply elem_of_nil in Hid.
  - cbn [loopErrors]. rewrite app_nil, entryErrors_nil, IH, Forall_cons.
    split.
    + intros [[Hc (id & Hid & Hseen)] (Hrest & Hnodup & Hfresh)].
      split; [done|]. rewrite (omap_cons_match entryId c rest), Hid.
      assert (Hs : entrySeen c seen = {[ id ]} ∪ seen).
      { destruct c as [| | | | |fields]; try discriminate.
        cbn in Hid |- *. unfold idSeen. by rewrite Hid. }
      rewrite Hs in Hfresh. split.
      * apply NoDup_cons. split; [|done]. intros Hin.
        apply (Hfresh id Hin). apply elem_of_union. left. by apply elem_of_singleton.
      * intros id' [->|Hin]%elem_of_cons; [done|].
        intros Hin'. apply (Hfresh id' Hin). apply elem_of_union. by right.
    + intros [[Hc Hrest] [Hnodup Hfresh]].
      destruct (valid_entry_id c Hc) as [id Hid].
      rewrite (omap_cons_match entryId c rest), Hid in Hnodup, Hfresh.
      apply NoDup_cons in Hnodup as [Hnotin Hnodup].
      assert (Hs : entrySeen c seen = {[ id ]} ∪ seen).
      { destruct c as [| | | | |fields]; try discriminate.
        cbn in Hid |- *. unfold idSeen. by rewrite Hid. }
      split.
      * split; [done|]. exists id. split; [done|]. apply Hfresh, list_elem_of_here.
      * split; [done|]. split; [done|]. rewrite Hs. intros id' Hin.
        intros [Heq%elem_of_singleton|Hin']%elem_of_union.
        -- by subst.
        -- by apply (Hfresh id'); [apply list_elem_of_further|].
Qed.

Lemma documentErrors_nil r :
  documentErrors fs allowed file r = [] <-> well_formed fs allowed r.
Proof.
  unfold documentErrors, well_formed. rewrite !app_nil.
  apply and_iff_both.
  - unfold weightsErrors.
    destruct (r !! "weights") as [[| | | | |w]|].
    all: try (split; [discriminate | by intros [[=]|(? & [=])]]).
    + split; [right; eauto | done].
    + split; [by left | done].
  - unfold checksErrors, checksOf, isArray.
    destruct (r !! "checks") as [[| | | |checks|]|].
    all: try (split; [by intros [[=] _] | by intros (? & [=] & _)]).
    rewrite loopErrors_nil. split.
    + intros [_ (Hall & Hnodup & _)]. by exists checks.
    + intros (checks' & [= <-] & Hall & Hnodup). split; [done|].
      split; [done|]. split; [done|]. intros id _. apply not_elem_of_empty.
Qed.

End PassIffDocument.

Lemma diagnose_nil_iff {host : Host} (w : world) allowed file :
  errors (diagnose w allowed file) = []
  <-> exists r, readYaml w file = Parsed (VObj r)
                /\ well_formed (fs_access w) allowed r.
Proof.
  rewrite diagnose_eq.
  destruct (readYaml w file) as [e|[| | | | |r]]; cbn [errors rootErrors].
  all: try (split; [discriminate | by intros (? & [=] & _)]).
  rewrite documentErrors_nil. split; [eauto|]. by intros (? & [= <-] & ?).
Qed.

Lemma main_exit_0_iff {host : Host} (w : world) :
  snd (main w) = 0
  <-> exists selectors,
        loadSelectors w = Some selectors
        /\ Forall (fun file => errors (diagnose w (dom selectors) file) = []) (glob w).
Proof.
  destruct (loadSelectors w) as [selectors|] eqn:Hsel.
  2: { unfold main. rewrite Hsel. split; [discriminate | by intros (? & [=] & _)]. }
  rewrite (main_eq w (dom selectors) selectors Hsel eq_refl).
  destruct (glob w) as [|f files] eqn:Hglob.
  - cbn. split; [|done]. intros _. exists selectors. split; [done|]. constructor.
  - change (length (f :: files) =? 0)%nat with false. cbv iota. cbn [snd].
    destruct (existsb _ (f :: files)) eqn:Hex.
    + split; [discriminate|]. intros (selectors' & [= <-] & Hforall).
      apply existsb_nonempty_false in Hforall. congruence.
    + split; [|done]. intros _. exists selectors. split; [done|].
      by apply existsb_nonempty_false.
Qed.

(** X4.  A run of the semantic validator ends with exit code 0 exactly when
    the selector table can be loaded and every matched file parses to an
    object that is well formed: [weights] is absent or an object, [checks]
    is an array, every entry is an object with a non-blank string id, a
    severity and a dimension from the tables, a number penalty that is at
    least 0, a non-blank string message and a rule that is valid for its
    op, and no two entries carry the same id.  File by file, the list of
    errors is empty exactly in that case. *)
Theorem exit_0_iff_well_formed {host : Host} (w : world) :
  (forall allowed file,
      errors (diagnose w allowed file) = []
      <-> exists r, readYaml w file = Parsed (VObj r)
                    /\ well_formed (fs_access w) allowed r)
  /\ (snd (main w) = 0
      <-> exists selectors,
            loadSelectors w = Some selectors
            /\ Forall (fun file =>
                         exists r, readYaml w file = Parsed (VObj r)
                                   /\ well_formed (fs_access w) (dom selectors) r)
                      (glob w)).
Proof.
  split; [apply diagnose_nil_iff|].
  rewrite main_exit_0_iff. split.
  - intros (selectors & Hsel & Hall). exists selectors. split; [done|].
    eapply Forall_impl; [exact Hall|]. intros f. apply diagnose_nil_iff.
  - intros (selectors & Hsel & Hall). exists selectors. split; [done|].
    eapply Forall_impl; [exact Hall|]. intros f. apply diagnose_nil_iff.
Qed.

(** ** The other scripts *)

(** A list either satisfies a test everywhere or has a first element that
    fails it. *)
Lemma first_failure {A} (p : A -> bool) (l : list A) :
  Forall (fun x => p x = true) l
  \/ exists done x rest,
       l = done ++ x :: rest /\ Forall (fun x => p x = true) done /\ p x = false.
Proof.
  induction l as [|a l IH]; [left; constructor|].
  destruct (p a) eqn:Ha.
  - destruct IH as [Hall|(done & x & rest & -> & Hdone & Hx)].
    + left. by constructor.
    + right. exists (a :: done), x, rest. split; [done|]. split; [by constructor | done].
  - right. exists [], a, l. split; [done|]. split; [constructor | done].
Qed.

Lemma readable_true t file :
  readable t file = true <-> exists raw, readFile t file = Content raw.
Proof.
  unfold readable. destruct (readFile t file); split; try done; eauto.
  by intros [? [=]].
Qed.

Lemma readable_false t file :
  readable t file = false <-> exists e, readFile t file = ReadError e.
Proof.
  unfold readable. destruct (readFile t file); split; try done; eauto.
  by intros [? [=]].
Qed.

Lemma loads_true t file :
  loads t file = true <-> exists v, readYaml_of t file = Parsed v.
Proof.
  unfold loads. destruct (readYaml_of t file); split; try done; eauto.
  by intros [? [=]].
Qed.

Lemma loads_false t file :
  loads t file = false <-> exists e, readYaml_of t file = Threw e.
Proof.
  unfold loads. destruct (readYaml_of t file); split; try done; eauto.
  by intros [? [=]].
Qed.

(** *** lint-yaml *)

Lemma lintLoop_readable t files : forall failed out,
  Forall (fun f => readable t f = true) files ->
  lintLoop t files failed out
  = Exited (out ++ flat_map (lintLines t) files)
           (if failed || negb (forallb (loads t) files) then 1 else 0).
Proof.
  induction files as [|file rest IH]; intros failed out Hall.
  - cbn. by rewrite app_nil_r, orb_false_r.
  - apply Forall_cons in Hall as [Hfile Hrest].
    apply readable_true in Hfile as [raw Hraw].
    cbn [lintLoop flat_map forallb]. unfold lintLines at 1, loads at 1, readYaml_of.
    rewrite Hraw. destruct (YAML_parse t raw) as [err|v].
    + rewrite IH by done. cbn [andb negb]. by rewrite orb_true_r, <- app_assoc.
    + rewrite IH by done. cbn [andb]. by rewrite <- app_assoc.
Qed.

Lemma lintLoop_unreadable t done file rest e : forall failed out,
  Forall (fun f => readable t f = true) done ->
  readFile t file = ReadError e ->
  lintLoop t (done ++ file :: rest) failed out
  = Uncaught (out ++ flat_map (lintLines t) done) (Rejected e).
Proof.
  induction done as [|f done IH]; intros failed out Hall Hfile.
  - cbn. by rewrite Hfile, app_nil_r.
  - apply Forall_cons in Hall as [Hf Hdone].
    apply readable_true in Hf as [raw Hraw].
    cbn [app lintLoop flat_map]. unfold lintLines at 1. rewrite Hraw.
    destruct (YAML_parse t raw) as [err|v]; rewrite IH by done; by rewrite <- app_assoc.
Qed.

(** X5.  The linter of YAML syntax.  When it exits, either nothing matched
    the pattern, one line says so and the code is 0; or every matched file
    could be read, the output is, file by file and in the order of the
    match, an OK line for a file that parses and a FAIL line followed by
    the text of the exception for one that does not, and the code is 0
    exactly when every file parses.  It ends by an exception that is not
    caught exactly when some matched file cannot be read: at the first such
    file, after the lines of the files before it, and without an exit code
    of its own. *)
Theorem lintYaml_outcome (t : tree) :
  let files := glob_of t LINT_GLOB in
  match lintYaml t with
  | Exited out code =>
      (files = [] /\ out = [Log "No rules YAML files found under rules/**"] /\ code = 0)
      \/ (files ≠ []
          /\ Forall (fun f => readable t f = true) files
          /\ out = flat_map (lintLines t) files
          /\ (code = 0 \/ code = 1)
          /\ (code = 0 <-> Forall (fun f => loads t f = true) files))
  | Uncaught out thrown =>
      exists done file rest e,
        files = done ++ file :: rest
        /\ Forall (fun f => readable t f = true) done
        /\ readFile t file = ReadError e
        /\ thrown = Rejected e
        /\ out = flat_map (lintLines t) done
  end.
Proof.
  intros files. unfold lintYaml. fold files.
  destruct files as [|f files'] eqn:Hfiles; [by left|].
  change (length (f :: files') =? 0)%nat with false. cbv iota.
  destruct (first_failure (readable t) (f :: files'))
    as [Hall|(done & file & rest & Heq & Hdone & Hfile)].
  - rewrite lintLoop_readable by done. right.
    split; [done|]. split; [done|]. split; [done|].
    cbn [orb]. destruct (forallb (loads t) (f :: files')) eqn:Hloads.
    + split; [by left|]. split; [|done]. intros _.
      apply Forall_forall. intros x Hx. rewrite forallb_forall in Hloads.
      apply Hloads. by apply list_elem_of_In.
    + split; [by right|]. split; [done|]. intros Hforall.
      assert (forallb (loads t) (f :: files') = true); [|congruence].
      apply forallb_forall. intros x Hx. rewrite Forall_forall in Hforall.
      apply Hforall. by apply list_elem_of_In.
  - apply readable_false in Hfile as [e He].
    rewrite Heq, (lintLoop_unreadable t done file rest e) by done.
    by exists done, file, rest, e.
Qed.

(** *** The schema validator *)

Lemma schemaLoop_loads t validate files : forall failed out,
  Forall (fun f => loads t f = true) files ->
  schemaLoop t validate files failed out
  = Exited (out ++ flat_map (schemaLines validate t) files)
           (if failed || negb (forallb (conforms validate t) files) then 1 else 0).
Proof.
  induction files as [|file rest IH]; intros failed out Hall.
  - cbn. by rewrite app_nil_r, orb_false_r.
  - apply Forall_cons in Hall as [Hfile Hrest].
    apply loads_true in Hfile as [data Hdata].
    cbn [schemaLoop flat_map forallb].
    unfold schemaLines at 1, conforms at 1. rewrite Hdata.
    unfold readYaml_of in Hdata.
    destruct (readFile t file) as [e|raw]; [discriminate|]. rewrite Hdata.
    destruct (validate data) as [|reported].
    + rewrite IH by done. cbn [andb]. by rewrite <- app_assoc.
    + rewrite IH by done. cbn [andb negb]. by rewrite orb_true_r, <- app_assoc.
Qed.

Lemma schemaLoop_throws t validate done file rest e : forall failed out,
  Forall (fun f => loads t f = true) done ->
  readYaml_of t file = Threw e ->
  schemaLoop t validate (done ++ file :: rest) failed out
  = Uncaught (out ++ flat_map (schemaLines validate t) done) (Rejected e).
Proof.
  induction done as [|f done IH]; intros failed out Hall Hfile.
  - cbn. unfold readYaml_of in Hfile. rewrite app_nil_r.
    destruct (readFile t file) as [e'|raw]; [by injection Hfile as ->|].
    by rewrite Hfile.
  - apply Forall_cons in Hall as [Hf Hdone].
    apply loads_true in Hf as [data Hdata].
    cbn [app schemaLoop flat_map]. unfold schemaLines at 1. rewrite Hdata.
    unfold readYaml_of in Hdata.
    destruct (readFile t f) as [e'|raw]; [discriminate|]. rewrite Hdata.
    destruct (validate data); rewrite IH by done; by rewrite <- app_assoc.
Qed.

(** X6.  The schema validator.  It ends by an exception that is not caught,
    with nothing printed, when the schema cannot be read or compiled, and
    only then looks for rulesets.  With a compiled schema: when it exits,
    either nothing matched, one line says so and the code is 0; or every
    matched file could be read and parsed, the output is, file by file, an
    OK line for a file that conforms and a FAIL line followed by one line
    for each reported error for one that does not (its location, or
    (root) when the location is empty), and the code is 0 exactly when
    every file conforms.  It ends by an exception exactly when some matched
    file cannot be read or parsed, at the first such file. *)
Theorem validateSchema_outcome (compileSchema : string -> schema_load) (t : tree) :
  let files := glob_of t RULESET_GLOB in
  match readFile t SCHEMA_PATH with
  | ReadError e => validateSchema compileSchema t = Uncaught [] (Rejected e)
  | Content schemaRaw =>
      match compileSchema schemaRaw with
      | SchemaThrew e => validateSchema compileSchema t = Uncaught [] (Rejected e)
      | Compiled validate =>
          match validateSchema compileSchema t with
          | Exited out code =>
              (files = []
               /\ out = [Log "No ruleset.yml files found under rules/**"] /\ code = 0)
              \/ (files ≠ []
                  /\ Forall (fun f => loads t f = true) files
                  /\ out = flat_map (schemaLines validate t) files
                  /\ (code = 0 \/ code = 1)
                  /\ (code = 0 <-> Forall (fun f => conforms validate t f = true) files))
          | Uncaught out thrown =>
              exists done file rest e,
                files = done ++ file :: rest
                /\ Forall (fun f => loads t f = true) done
                /\ readYaml_of t file = Threw e
                /\ thrown = Rejected e
                /\ out = flat_map (schemaLines validate t) done
          end
      end
  end.
Proof.
  intros files. unfold validateSchema. fold files.
  destruct (readFile t SCHEMA_PATH) as [e|schemaRaw]; [done|].
  destruct (compileSchema schemaRaw) as [e|validate]; [done|].
  destruct files as [|f files'] eqn:Hfiles; [by left|].
  change (length (f :: files') =? 0)%nat with false. cbv iota.
  destruct (first_failure (loads t) (f :: files'))
    as [Hall|(done & file & rest & Heq & Hdone & Hfile)].
  - rewrite schemaLoop_loads by done. right.
    split; [done|]. split; [done|]. split; [done|].
    cbn [orb]. destruct (forallb (conforms validate t) (f :: files')) eqn:Hconf.
    + split; [by left|]. split; [|done]. intros _.
      apply Forall_forall. intros x Hx. rewrite forallb_forall in Hconf.
      apply Hconf. by apply list_elem_of_In.
    + split; [by right|]. split; [done|]. intros Hforall.
      assert (forallb (conforms validate t) (f :: files') = true); [|congruence].
      apply forallb_forall. intros x Hx. rewrite Forall_forall in Hforall.
      apply Hforall. by apply list_elem_of_In.
  - apply loads_false in Hfile as [e He].
    rewrite Heq, (schemaLoop_throws t validate done file rest e) by done.
    by exists done, file, rest, e.
Qed.

(** *** The compiler *)

Section CompilerLemmas.

Context {host : Host}.
Variable path_join : string -> string -> string.
Variable string_properties : string -> gmap string value.

Lemma compileLoop_steps t d files : forall k out writes,
  compileLoop path_join string_properties t d files k out writes
  = let (ws, e) := compileSteps path_join string_properties t d k files in
    match e with
    | None => Done (out ++ map wroteLine ws) (writes ++ ws)
    | Some e => Aborted (out ++ map wroteLine ws) (writes ++ ws) e
    end.
Proof.
  induction files as [|file rest IH]; intros k out writes.
  - cbn. by rewrite !app_nil_r.
  - cbn [compileLoop compileSteps]. unfold compileFile, readYaml_of.
    destruct (readFile t file) as [e|raw]; [cbn; by rewrite !app_nil_r|].
    destruct (YAML_parse t raw) as [e|ruleset]; [cbn; by rewrite !app_nil_r|].
    destruct (outNameOf ruleset) as [e|outName]; [cbn; by rewrite !app_nil_r|].
    destruct (write_error d k (path_join "dist" outName)) as [e|];
      [cbn; by rewrite !app_nil_r|].
    rewrite IH.
    destruct (compileSteps path_join string_properties t d (S k) rest) as [ws [e|]];
      cbn; by rewrite <- !app_assoc.
Qed.

(** The turns of [compileSteps] that wrote are the first turns of the loop,
    and the turn after them is the one that threw. *)
Lemma compileSteps_spec t d files : forall k ws e,
  compileSteps path_join string_properties t d k files = (ws, e) ->
  match e with
  | None =>
      imap (fun i => compileFile path_join string_properties t d (k + i)) files
      = map inr ws
  | Some e =>
      exists done file rest,
        files = done ++ file :: rest
        /\ imap (fun i => compileFile path_join string_properties t d (k + i)) done
           = map inr ws
        /\ compileFile path_join string_properties t d (k + length done) file = inl e
  end.
Proof.
  induction files as [|file rest IH]; intros k ws e Hsteps.
  - cbn in Hsteps. by injection Hsteps as <- <-.
  - cbn [compileSteps] in Hsteps.
    destruct (compileFile path_join string_properties t d k file) as [e'|w] eqn:Hfile.
    + injection Hsteps as <- <-. exists [], file, rest. cbn.
      by rewrite Nat.add_0_r.
    + destruct (compileSteps path_join string_properties t d (S k) rest)
        as [ws' e'] eqn:Hrest.
      injection Hsteps as <- <-. specialize (IH (S k) ws' e' Hrest).
      destruct e' as [e'|].
      * destruct IH as (done & file' & rest' & -> & Hdone & Hfile').
        exists (file :: done), file', rest'. split; [done|]. split.
        -- cbn [imap map]. rewrite Nat.add_0_r, Hfile. f_equal.
           rewrite <- Hdone. apply imap_ext. intros i x _. cbn. f_equal. lia.
        -- rewrite <- Hfile'. cbn [length]. f_equal. lia.
      * cbn [imap map]. rewrite Nat.add_0_r, Hfile. f_equal.
        rewrite <- IH. apply imap_ext. intros i x _. cbn. f_equal. lia.
Qed.

(** The script in one piece: the writes of the turns up to the first one
    that throws, and a line for each. *)
Lemma compile_eq t d :
  compile path_join string_properties t d
  = match mkdir_error d with
    | Some e => Aborted [] [] (Rejected e)
    | None =>
        let (ws, e) := compileSteps path_join string_properties t d 0
                         (glob_of t RULESET_GLOB) in
        match e with
        | None => Done (map wroteLine ws) ws
        | Some e => Aborted (map wroteLine ws) ws e
        end
    end.
Proof.
  unfold compile. destruct (mkdir_error d); [done|]. by rewrite compileLoop_steps.
Qed.

Lemma outNameOf_named ruleset name :
  outNameOf ruleset = inr name ->
  exists text, id_text ruleset text /\ name = text +:+ ".json".
Proof.
  unfold outNameOf, id_text. destruct ruleset as [| | | | |r].
  1: discriminate.
  1-4: intros [= <-]; by exists "undefined".
  destruct (r !! "id") as [id|]; [|intros [= <-]; by exists "undefined"].
  destruct (ToString id) as [text|]; [|discriminate].
  intros [= <-]. by exists text.
Qed.

Lemma outNameOf_throws ruleset thrown :
  outNameOf ruleset = inl thrown ->
  (ruleset = VNull /\ thrown = NullProperty "id")
  \/ exists r id,
       ruleset = VObj r /\ r !! "id" = Some id /\ ToString id = None
       /\ thrown = NoPrimitive.
Proof.
  unfold outNameOf. destruct ruleset as [| | | | |r]; try discriminate.
  - intros [= <-]. by left.
  - destruct (r !! "id") as [id|] eqn:Hid; [|discriminate].
    destruct (ToString id) as [text|] eqn:Htext; [discriminate|].
    intros [= <-]. right. by exists r, id.
Qed.

Lemma named_outNameOf ruleset text :
  id_text ruleset text -> outNameOf ruleset = inr (text +:+ ".json").
Proof.
  unfold outNameOf, id_text. destruct ruleset as [| | | | |r]; try by intros ->.
  - done.
  - destruct (r !! "id") as [id|]; [by intros ->|by intros ->].
Qed.

(** A turn that writes. *)
Lemma compileFile_wrote t d k file w :
  compileFile path_join string_properties t d k file = inr w ->
  exists ruleset text,
    readYaml_of t file = Parsed ruleset
    /\ id_text ruleset text
    /\ outPath w = path_join "dist" (text +:+ ".json")
    /\ write_error d k (outPath w) = None
    /\ payload w
       = <[ "createdAt" := VStr (clock d k) ]> (spread string_properties ruleset).
Proof.
  unfold compileFile. destruct (readYaml_of t file) as [e|ruleset]; [discriminate|].
  destruct (outNameOf ruleset) as [e|name] eqn:Hname; [discriminate|].
  apply outNameOf_named in Hname as (text & Htext & ->).
  destruct (write_error d k _) as [e|] eqn:Hwrite; [discriminate|].
  intros [= <-]. by exists ruleset, text.
Qed.

(** A turn that throws. *)
Lemma compileFile_threw t d k file thrown :
  compileFile path_join string_properties t d k file = inl thrown ->
  (exists e, readYaml_of t file = Threw e /\ thrown = Rejected e)
  \/ (readYaml_of t file = Parsed VNull /\ thrown = NullProperty "id")
  \/ (exists r id,
         readYaml_of t file = Parsed (VObj r) /\ r !! "id" = Some id
         /\ ToString id = None /\ thrown = NoPrimitive)
  \/ (exists ruleset text e,
         readYaml_of t file = Parsed ruleset /\ id_text ruleset text
         /\ write_error d k (path_join "dist" (text +:+ ".json")) = Some e
         /\ thrown = Rejected e).
Proof.
  unfold compileFile. destruct (readYaml_of t file) as [e|ruleset].
  { intros [= <-]. left. by exists e. }
  destruct (outNameOf ruleset) as [e|name] eqn:Hname.
  { intros [= <-]. right.
    apply outNameOf_throws in Hname as [[-> ->]|(r & id & -> & Hid & Htext & ->)].
    - by left.
    - right. left. by exists r, id. }
  apply outNameOf_named in Hname as (text & Htext & ->).
  destruct (write_error d k _) as [e|] eqn:Hwrite; [|discriminate].
  intros [= <-]. right. right. right. by exists ruleset, text, e.
Qed.

(** The writes of the turns that returned a file. *)
Lemma imap_inr_lookup {A B C} (f : nat -> A -> B + C) (l : list A) (ws : list C) :
  imap f l = map inr ws ->
  length ws = length l
  /\ forall k w, ws !! k = Some w -> exists x, l !! k = Some x /\ f k x = inr w.
Proof.
  intros Heq. split.
  - apply (f_equal length) in Heq. by rewrite length_imap, length_fmap in Heq.
  - intros k w Hw. apply (f_equal (fun xs => xs !! k)) in Heq.
    rewrite list_lookup_imap, list_lookup_fmap, Hw in Heq. cbn in Heq.
    destruct (l !! k) as [x|]; [|discriminate]. exists x. split; [done|].
    by injection Heq.
Qed.

Lemma compileFile_write_of t d k file w :
  glob_of t RULESET_GLOB !! k = Some file ->
  compileFile path_join string_properties t d k file = inr w ->
  write_of path_join t d k w.
Proof.
  intros Hfile (ruleset & text & Hread & Htext & Hpath & Hwrite & Hpayload)%compileFile_wrote.
  exists file, ruleset, text. do 5 (split; [done|]). rewrite Hpayload. split.
  - apply lookup_insert_eq.
  - by intros r ->.
Qed.

End CompilerLemmas.

(** X7.  The compiler.  However it ends, it has printed one line for each
    write, in the order of the writes, and the write of turn [k] is the one
    of the [k]-th matched file: at the directory joined with the name taken
    from the top-level id of the document, with the time of the turn at
    [createdAt].  It ends normally exactly when the directory could be made
    and every matched file got its write.  Otherwise it ends by the
    exception of the directory, with nothing written, or at the turn after
    the last write: by the exception of a read or a parse, because the
    document is null, because its id cannot be converted to a string, or by
    the exception of the write.  The writes of the turns before stay. *)
Theorem compile_outcome {host : Host} (path_join : string -> string -> string)
    (string_properties : string -> gmap string value) (t : tree) (d : disk) :
  match compile path_join string_properties t d with
  | Done out writes =>
      mkdir_error d = None
      /\ out = map (fun w => Log ("Wrote " +:+ outPath w)) writes
      /\ length writes = length (glob_of t RULESET_GLOB)
      /\ forall k w, writes !! k = Some w -> write_of path_join t d k w
  | Aborted out writes thrown =>
      out = map (fun w => Log ("Wrote " +:+ outPath w)) writes
      /\ (forall k w, writes !! k = Some w -> write_of path_join t d k w)
      /\ ((exists e, mkdir_error d = Some e /\ thrown = Rejected e /\ writes = [])
          \/ (mkdir_error d = None
              /\ abort_of path_join t d (length writes) thrown))
  end.
Proof.
  rewrite compile_eq. destruct (mkdir_error d) as [e|] eqn:Hmkdir.
  { split; [done|]. split; [by intros k w [=]|]. left. by exists e. }
  destruct (compileSteps path_join string_properties t d 0 (glob_of t RULESET_GLOB))
    as [ws e] eqn:Hsteps.
  apply compileSteps_spec in Hsteps. destruct e as [e|].
  - destruct Hsteps as (done & file & rest & Heq & Hdone & Hfile).
    apply imap_inr_lookup in Hdone as [Hlen Hdone].
    split; [done|]. split.
    + intros k w Hw. destruct (Hdone k w Hw) as (f & Hf & Hturn).
      apply (compileFile_write_of path_join string_properties t d k f); [|done].
      rewrite Heq. by apply lookup_app_l_Some.
    + right. split; [done|]. rewrite Hlen. exists file. split.
      * rewrite Heq. by apply list_lookup_middle.
      * by apply (compileFile_threw path_join string_properties) in Hfile.
  - apply imap_inr_lookup in Hsteps as [Hlen Hall].
    split; [done|]. split; [done|]. split; [done|].
    intros k w Hw. destruct (Hall k w Hw) as (f & Hf & Hturn).
    by apply (compileFile_write_of path_join string_properties t d k f).
Qed.

(** ** The scripts together *)

Lemma lintYaml_exit_0 t out :
  lintYaml t = Exited out 0 ->
  Forall (fun f => loads t f = true) (glob_of t LINT_GLOB).
Proof.
  unfold lintYaml. destruct (glob_of t LINT_GLOB) as [|f files]; [constructor|].
  change (length (f :: files) =? 0)%nat with false. cbv iota.
  destruct (first_failure (readable t) (f :: files))
    as [Hall|(done & file & rest & -> & Hdone & Hfile)].
  - rewrite lintLoop_readable by done. cbn [orb].
    destruct (forallb (loads t) (f :: files)) eqn:Hloads; [|discriminate].
    intros _. apply Forall_forall. intros x Hx. rewrite forallb_forall in Hloads.
    apply Hloads. by apply list_elem_of_In.
  - apply readable_false in Hfile as [e He].
    by rewrite (lintLoop_unreadable t done file rest e).
Qed.

Lemma validateSchema_loads compileSchema t out thrown :
  Forall (fun f => loads t f = true) (glob_of t RULESET_GLOB) ->
  validateSchema compileSchema t = Uncaught out thrown ->
  out = []
  /\ exists e,
       thrown = Rejected e
       /\ (readFile t SCHEMA_PATH = ReadError e
           \/ exists raw, readFile t SCHEMA_PATH = Content raw
                          /\ compileSchema raw = SchemaThrew e).
Proof.
  intros Hloads. unfold validateSchema.
  destruct (readFile t SCHEMA_PATH) as [e|raw] eqn:Hschema.
  { intros [= <- <-]. split; [done|]. exists e. split; [done|]. by left. }
  destruct (compileSchema raw) as [e|validate] eqn:Hcompile.
  { intros [= <- <-]. split; [done|]. exists e. split; [done|]. right. by exists raw. }
  destruct (length (glob_of t RULESET_GLOB) =? 0)%nat; [discriminate|].
  by rewrite schemaLoop_loads.
Qed.

(** X8.  When the linter exits with code 0 and every ruleset is among the
    files it looked at, every ruleset can be read and parsed.  The semantic
    validator then gets a document for each of them, and the schema
    validator can end by an exception only while it loads the schema.  The
    compiler can still end by an exception: at the directory, or at the turn
    after its last write because the document is null, because its id
    cannot be converted to a string, or because the write throws; never by
    the exception of a read or a parse. *)
Theorem lint_pass_protects {host : Host} (path_join : string -> string -> string)
    (string_properties : string -> gmap string value)
    (compileSchema : string -> schema_load) (t : tree) (d : disk) (out : list line) :
  lintYaml t = Exited out 0 ->
  (forall f, f ∈ glob_of t RULESET_GLOB -> f ∈ glob_of t LINT_GLOB) ->
  Forall (fun f => exists v, readYaml (world_of t) f = Parsed v) (glob (world_of t))
  /\ (forall out' thrown,
        validateSchema compileSchema t = Uncaught out' thrown ->
        out' = []
        /\ exists e,
             thrown = Rejected e
             /\ (readFile t SCHEMA_PATH = ReadError e
                 \/ exists raw, readFile t SCHEMA_PATH = Content raw
                                /\ compileSchema raw = SchemaThrew e))
  /\ (forall out' writes thrown,
        compile path_join string_properties t d = Aborted out' writes thrown ->
        (exists e, mkdir_error d = Some e /\ thrown = Rejected e)
        \/ exists file,
             glob_of t RULESET_GLOB !! length writes = Some file
             /\ ((readYaml_of t file = Parsed VNull /\ thrown = NullProperty "id")
                 \/ (exists r id,
                        readYaml_of t file = Parsed (VObj r) /\ r !! "id" = Some id
                        /\ ToString id = None /\ thrown = NoPrimitive)
                 \/ (exists path e,
                        write_error d (length writes) path = Some e
                        /\ thrown = Rejected e))).
Proof.
  intros Hlint Hsub.
  assert (Hloads : Forall (fun f => loads t f = true) (glob_of t RULESET_GLOB)).
  { apply lintYaml_exit_0 in Hlint. rewrite Forall_forall in Hlint |- *.
    intros f Hf. by apply Hlint, Hsub. }
  split; [|split].
  - cbn [glob world_of readYaml]. eapply Forall_impl; [exact Hloads|].
    intros f Hf. by apply loads_true.
  - intros out' thrown. by apply validateSchema_loads.
  - intros out' writes thrown. rewrite compile_eq.
    destruct (mkdir_error d) as [e|] eqn:Hmkdir.
    { intros [= <- <- <-]. left. by exists e. }
    destruct (compileSteps path_join string_properties t d 0 (glob_of t RULESET_GLOB))
      as [ws e] eqn:Hsteps.
    apply compileSteps_spec in Hsteps.
    destruct e as [e|]; [|discriminate]. intros [= <- <- <-].
    destruct Hsteps as (done & file & rest & Heq & Hdone & Hfile).
    apply imap_inr_lookup in Hdone as [Hlen _]. rewrite Hlen.
    right. exists file. split; [rewrite Heq; by apply list_lookup_middle|].
    assert (Hparsed : exists v, readYaml_of t file = Parsed v).
    { apply loads_true. rewrite Forall_forall in Hloads. apply Hloads. rewrite Heq.
      apply elem_of_app. right. apply list_elem_of_here. }
    destruct Hparsed as [v Hv].
    apply (compileFile_threw path_join string_properties) in Hfile
      as [(e' & Hthrew & _)|[Hnull|[Hid|(ruleset & text & e' & _ & _ & Hwrite & ->)]]].
    + congruence.
    + by left.
    + right. by left.
    + right. right. eauto.
Qed.

Lemma lint_pass_protects_witness :
  lintYaml tree_one = Exited [Log "OK  rules/a/ruleset.yml"] 0
  /\ Forall (fun f => exists v, readYaml (world_of tree_one) f = Parsed v)
            (glob (world_of tree_one)).
Proof.
  split; [reflexivity|].
  apply (lint_pass_protects (host := ascii_host) (fun a b => a +:+ "/" +:+ b) (fun _ => ∅)
           (fun _ => SchemaThrew "SyntaxError") tree_one disk_one
           [Log "OK  rules/a/ruleset.yml"]).
  - reflexivity.
  - intros f Hf. exact Hf.
Defined.

(** ** Where the errors are located *)

Lemma append_nil_r (s : string) : s +:+ "" = s.
Proof.
  induction s as [|x s IH]; [reflexivity|].
  change (String x (s +:+ "") = String x s). by rewrite IH.
Qed.

Lemma append_inj_l (base a b : string) : base +:+ a = base +:+ b -> a = b.
Proof.
  induction base as [|x base IH]; [done|].
  change (String x (base +:+ a) = String x (base +:+ b) -> a = b).
  intros [= H]. by apply IH.
Qed.

(** Digits followed by a closing bracket can be read back in one way. *)
Lemma digits_bracket a : forall b s s',
  Str.all_chars Str.is_digit a = true -> Str.all_chars Str.is_digit b = true ->
  a +:+ String "]" s = b +:+ String "]" s' -> a = b /\ s = s'.
Proof.
  induction a as [|x a IH]; intros [|y b] s s' Ha Hb.
  - by intros [= ->].
  - change (String "]" s = String y (b +:+ String "]" s') -> "" = String y b /\ s = s').
    intros [= <- _]. cbn in Hb. discriminate.
  - change (String x (a +:+ String "]" s) = String "]" s' -> String x a = "" /\ s = s').
    intros [= -> _]. cbn in Ha. discriminate.
  - change (String x (a +:+ String "]" s) = String y (b +:+ String "]" s')
            -> String x a = String y b /\ s = s').
    intros [= -> H]. cbn [Str.all_chars] in Ha, Hb.
    apply andb_true_iff in Ha as [_ Ha]. apply andb_true_iff in Hb as [_ Hb].
    destruct (IH b s s' Ha Hb H) as [-> ->]. done.
Qed.

Lemma pretty_N_char_digit x : Str.is_digit (pretty_N_char x) = true.
Proof. unfold pretty_N_char. by repeat case_match. Qed.

Lemma pretty_N_go_digits x : forall s,
  Str.all_chars Str.is_digit s = true ->
  Str.all_chars Str.is_digit (pretty_N_go x s) = true.
Proof.
  induction (N.lt_wf_0 x) as [x _ IH]; intros s Hs.
  destruct (decide (x = 0)%N) as [->|Hx]; [by rewrite pretty_N_go_0|].
  rewrite pretty_N_go_step by lia. apply IH.
  - apply N.div_lt; lia.
  - cbn [Str.all_chars]. by rewrite pretty_N_char_digit.
Qed.

Lemma pretty_nat_digits (n : nat) : Str.all_chars Str.is_digit (pretty n) = true.
Proof.
  unfold pretty, pretty_nat, pretty, pretty_N.
  destruct (decide (N.of_nat n = 0)%N); [done|]. by apply pretty_N_go_digits.
Qed.

(** The path of an entry can be read back from any path below it. *)
Lemma basePath_inj i j s s' :
  basePath i +:+ s = basePath j +:+ s' -> i = j /\ s = s'.
Proof.
  unfold basePath. rewrite !append_assoc. intros H%append_inj_l.
  change ("]" +:+ s) with (String "]" s) in H.
  change ("]" +:+ s') with (String "]" s') in H.
  apply digits_bracket in H as [H ->]; try apply pretty_nat_digits.
  split; [|done]. by apply (inj pretty).
Qed.

Lemma located_nil file base master : located file base master [].
Proof. exists []. split; [apply sublist_nil_l | done]. Qed.

Lemma located_one file base suffix message :
  located file base [suffix] [Diag file (base +:+ suffix) message].
Proof. exists [suffix]. by split. Qed.

Lemma located_app file base m1 m2 l1 l2 :
  located file base m1 l1 -> located file base m2 l2 ->
  located file base (m1 ++ m2) (l1 ++ l2).
Proof.
  intros (s1 & Hs1 & H1) (s2 & Hs2 & H2). exists (s1 ++ s2).
  split; [by apply sublist_app|]. by rewrite !fmap_app, H1, H2.
Qed.

Lemma located_weaken file base m m' l :
  sublist m m' -> located file base m l -> located file base m' l.
Proof. intros Hm (ss & Hss & Hl). exists ss. split; [by etrans|done]. Qed.

Ltac located :=
  repeat (case_match; try apply located_nil);
  first [ apply located_nil
        | apply located_one
        | apply (located_app _ _ [_] _ [_]); located ].

Section Locations.

Context {host : Host}.
Variable fs : string -> bool.
Variable allowed : gset string.
Variable file : string.

Lemma idErrors_located base id seen :
  located file base [".id"] (idErrors file base id seen).
Proof. unfold idErrors. located. Qed.

Lemma plainFieldErrors_located base c :
  located file base fieldSuffixes (plainFieldErrors file base c).
Proof.
  unfold plainFieldErrors, fieldSuffixes.
  apply (located_app _ _ [_]); [unfold severityErrors; located|].
  apply (located_app _ _ [_]); [unfold dimensionErrors; located|].
  apply (located_app _ _ [_]); [unfold penaltyErrors; located|].
  unfold messageErrors; located.
Qed.

Lemma countErrors_located base rule :
  located file base countSuffixes (countErrors allowed file base rule).
Proof.
  unfold countErrors, countSuffixes.
  apply (located_app _ _ [_]); [unfold selectorErrors; located|].
  apply (located_app _ _ [_]); [unfold minErrors; located|].
  apply (located_app _ _ [_]); [unfold maxErrors; located|].
  unfold rangeErrors; located.
Qed.

Lemma termDensityErrors_located base rule :
  located file base termDensitySuffixes (termDensityErrors file base rule).
Proof.
  unfold termDensityErrors, termDensitySuffixes.
  apply (located_app _ _ [_]); [unfold termsErrors; located|].
  unfold maxDensityErrors; located.
Qed.

Lemma llmErrors_located base rule :
  located file base llmSuffixes (llmErrors fs file base rule).
Proof.
  unfold llmErrors, llmSuffixes.
  apply (located_app _ _ [_]); [unfold promptRefErrors; located|].
  unfold introBlocksErrors; located.
Qed.

Lemma ruleErrors_located base rule :
  located file base ruleSuffixes (ruleErrors fs allowed file base rule).
Proof.
  unfold ruleErrors, ruleSuffixes.
  destruct (allowed_string ALLOWED_OPS (rule !! "op")).
  - apply (located_app _ _ [_] _ []); [apply located_nil|].
    apply located_app; [|apply located_app].
    + destruct (is_string _ "count"); [apply countErrors_located | apply located_nil].
    + destruct (is_string _ "term_density");
        [apply termDensityErrors_located | apply located_nil].
    + destruct (is_string _ "llm"); [apply llmErrors_located | apply located_nil].
  - eapply located_weaken; [|apply located_one].
    apply (sublist_inserts_r _ [_] [_]). reflexivity.
Qed.

Lemma entryErrors_located i c seen :
  located file (basePath i) entrySuffixes (entryErrors fs allowed file i c seen).
Proof.
  unfold entryErrors, entrySuffixes. destruct c as [| | | | |fields].
  1-5: eapply located_weaken;
         [|rewrite <- (append_nil_r (basePath i)) at 2; apply located_one];
         apply (sublist_inserts_r _ [_] [_]); reflexivity.
  apply (located_app _ _ [_] _ []); [apply located_nil|].
  apply located_app; [apply idErrors_located|].
  apply located_app; [apply plainFieldErrors_located|].
  destruct (fields !! "rule") as [[| | | | |rule]|]; try apply ruleErrors_located.
  all: eapply located_weaken; [|apply located_one].
  all: apply (sublist_inserts_l [_; _; _; _]), (sublist_inserts_r _ [_] [_]); reflexivity.
Qed.

Lemma entrySuffixes_NoDup : NoDup entrySuffixes.
Proof. apply (bool_decide_unpack _). by vm_compute. Qed.

(** The errors of the entries from [i] on: no two at the same path, and each
    at a suffix of [entrySuffixes] below the path of its entry. *)
Lemma loopErrors_located checks : forall i seen,
  NoDup (d_path <$> loopErrors fs allowed file i checks seen)
  /\ Forall (fun d => d_file d = file
                      /\ exists j suffix,
                           (i <= j < i + length checks)%nat
                           /\ suffix ∈ entrySuffixes
                           /\ d_path d = basePath j +:+ suffix)
            (loopErrors fs allowed file i checks seen).
Proof.
  induction checks as [|c rest IH]; intros i seen.
  { cbn. split; constructor. }
  cbn [loopErrors length].
  destruct (IH (S i) (entrySeen c seen)) as [IHnodup IHall].
  destruct (entryErrors_located i c seen) as (ss & Hss & Hpaths).
  assert (Hentry : Forall (fun d => d_file d = file
                      /\ exists suffix, suffix ∈ entrySuffixes
                                        /\ d_path d = basePath i +:+ suffix)
                     (entryErrors fs allowed file i c seen)).
  { revert Hpaths. generalize (entryErrors fs allowed file i c seen) as l.
    clear -Hss. induction Hss as [|s ss m Hss IH|s ss m Hss IH]; intros l Hl.
    - destruct l; [constructor | discriminate].
    - destruct l as [|d l]; [discriminate|]. injection Hl as Hfile Hpath Hl.
      constructor.
      + split; [done|]. exists s. split; [apply list_elem_of_here | done].
      + eapply Forall_impl; [apply (IH l Hl)|].
        intros d' (? & s' & ? & ?). split; [done|]. exists s'.
        split; [by apply list_elem_of_further | done].
    - eapply Forall_impl; [apply (IH l Hl)|].
      intros d' (? & s' & ? & ?). split; [done|]. exists s'.
      split; [by apply list_elem_of_further | done]. }
  split.
  - rewrite fmap_app. apply NoDup_app. split; [|split; [|done]].
    + assert (Hmap : d_path <$> entryErrors fs allowed file i c seen
                     = (fun s => basePath i +:+ s) <$> ss).
      { apply (f_equal (fmap snd)) in Hpaths.
        by rewrite <- !list_fmap_compose in Hpaths. }
      rewrite Hmap. apply NoDup_fmap_2.
      * intros a b Hab. by apply append_inj_l in Hab.
      * eapply sublist_NoDup; [apply entrySuffixes_NoDup | done].
    + intros path (d & -> & Hd)%list_elem_of_fmap (d' & Heq & Hd')%list_elem_of_fmap.
      rewrite Forall_forall in Hentry, IHall.
      destruct (Hentry d Hd) as (_ & s & _ & Hpath).
      destruct (IHall d' Hd') as (_ & j & s' & Hj & _ & Hpath').
      rewrite Hpath, Hpath' in Heq. apply basePath_inj in Heq as [-> _]. lia.
  - apply Forall_app. split.
    + eapply Forall_impl; [exact Hentry|].
      intros d (? & s & ? & ?). split; [done|]. exists i, s. split; [lia | done].
    + eapply Forall_impl; [exact IHall|].
      intros d (? & j & s & ? & ? & ?). split; [done|]. exists j, s. split; [lia | done].
Qed.

Lemma basePath_not_checks i suffix : basePath i +:+ suffix ≠ "checks".
Proof.
  unfold basePath. rewrite append_assoc.
  change ("checks[" +:+ ?x) with (String "c" (String "h" (String "e" (String "c"
            (String "k" (String "s" (String "[" x))))))).
  discriminate.
Qed.

Lemma basePath_not_weights i suffix : basePath i +:+ suffix ≠ "weights".
Proof.
  unfold basePath. rewrite append_assoc.
  change ("checks[" +:+ ?x) with (String "c" (String "h" (String "e" (String "c"
            (String "k" (String "s" (String "[" x))))))).
  discriminate.
Qed.

Lemma documentErrors_located r :
  NoDup (d_path <$> documentErrors fs allowed file r)
  /\ Forall (fun d => d_file d = file /\ document_location (checksOf r) (d_path d))
            (documentErrors fs allowed file r).
Proof.
  unfold documentErrors.
  destruct (loopErrors_located (checksOf r) 0 ∅) as [Hnodup Hall].
  assert (Hloop : Forall (fun d => d_file d = file
                                   /\ document_location (checksOf r) (d_path d))
                    (loopErrors fs allowed file 0 (checksOf r) ∅)).
  { eapply Forall_impl; [exact Hall|].
    intros d (? & j & s & ? & ? & ?). split; [done|]. right. right.
    exists j, s. split; [lia | done]. }
  assert (Hw : weightsErrors file (r !! "weights") = []
               \/ exists m, weightsErrors file (r !! "weights") = [Diag file "weights" m]).
  { unfold weightsErrors. repeat case_match; eauto. }
  assert (Hc : checksErrors file (r !! "checks") = []
               \/ exists m, checksErrors file (r !! "checks") = [Diag file "checks" m]).
  { unfold checksErrors. case_match; eauto. }
  assert (Hnotin : forall path, path = "weights" \/ path = "checks" ->
            path ∉ d_path <$> loopErrors fs allowed file 0 (checksOf r) ∅).
  { intros path Hpath (d & -> & Hd)%list_elem_of_fmap.
    rewrite Forall_forall in Hall. destruct (Hall d Hd) as (_ & j & s & _ & _ & Heq).
    rewrite Heq in Hpath.
    destruct Hpath as [H|H]; [by apply basePath_not_weights in H
                             | by apply basePath_not_checks in H]. }
  destruct Hw as [->|[mw ->]], Hc as [->|[mc ->]]; cbn [app fmap list_fmap d_path].
  - done.
  - split.
    + apply NoDup_cons. split; [apply Hnotin; by right | done].
    + constructor; [|done]. split; [done|]. right. by left.
  - split.
    + apply NoDup_cons. split; [apply Hnotin; by left | done].
    + constructor; [|done]. split; [done|]. by left.
  - split.
    + apply NoDup_cons. split.
      * intros [?|Hin]%elem_of_cons; [done|]. revert Hin. apply Hnotin. by left.
      * apply NoDup_cons. split; [apply Hnotin; by right | done].
    + constructor; [split; [done|]; by left|].
      constructor; [split; [done|]; right; by left | done].
Qed.

End Locations.

(** X9.  Every error of a file carries the name of the file.  When the
    read or the parse throws, or the document is not an object, the errors
    are at the root.  For a document that is an object, every error is at
    [weights], at [checks], or below the path of an entry that exists, at
    one of the fifteen places an entry can be wrong at, and no two errors
    have the same path: each place is reported at most once. *)
Theorem error_locations {host : Host} (w : world) (allowed : gset string)
    (file : string) :
  let found := errors (diagnose w allowed file) in
  match readYaml w file with
  | Parsed (VObj r) =>
      NoDup (d_path <$> found)
      /\ Forall (fun d => d_file d = file
                          /\ document_location (checksOf r) (d_path d)) found
  | _ => Forall (fun d => d_file d = file /\ d_path d = "(root)") found
  end.
Proof.
  intros found. subst found. rewrite diagnose_eq.
  destruct (readYaml w file) as [e|[| | | | |r]]; cbn [errors rootErrors].
  all: try (repeat constructor).
  all: apply documentErrors_located.
Qed.

(** ** More selectors and more files never add an error *)

Section Monotone.

Context {host : Host}.
Variables fs fs' : string -> bool.
Variables allowed allowed' : gset string.
Variable file : string.
Hypothesis fs_more : forall path, fs path = true -> fs' path = true.
Hypothesis allowed_more : allowed ⊆ allowed'.

Lemma selectorErrors_mono base x :
  sublist (selectorErrors allowed' file base x) (selectorErrors allowed file base x).
Proof.
  unfold selectorErrors. destruct x as [[| | |sel| |]|]; try reflexivity.
  destruct (Str.blank sel); [reflexivity|].
  destruct (decide (sel ∈ allowed)) as [Hin|Hout].
  - rewrite (bool_decide_eq_true_2 (sel ∈ allowed)) by done.
    rewrite (bool_decide_eq_true_2 (sel ∈ allowed'))
      by exact (proj1 (elem_of_subseteq allowed allowed') allowed_more sel Hin).
    reflexivity.
  - rewrite (bool_decide_eq_false_2 (sel ∈ allowed)) by done.
    destruct (bool_decide (sel ∈ allowed')); [apply sublist_nil_l | reflexivity].
Qed.

Lemma promptRefErrors_mono base x :
  sublist (promptRefErrors fs' file base x) (promptRefErrors fs file base x).
Proof.
  unfold promptRefErrors. destruct x as [[| | |ref| |]|]; try reflexivity.
  destruct (Str.blank ref); [reflexivity|].
  destruct (fs ref) eqn:Hfs.
  - by rewrite (fs_more ref Hfs).
  - destruct (fs' ref); [apply sublist_nil_l | reflexivity].
Qed.

Lemma ruleErrors_mono base rule :
  sublist (ruleErrors fs' allowed' file base rule) (ruleErrors fs allowed file base rule).
Proof.
  unfold ruleErrors. destruct (allowed_string ALLOWED_OPS _); [|reflexivity].
  apply sublist_app; [|apply sublist_app].
  - destruct (is_string _ "count"); [|reflexivity]. unfold countErrors.
    apply sublist_app; [apply selectorErrors_mono | reflexivity].
  - reflexivity.
  - destruct (is_string _ "llm"); [|reflexivity]. unfold llmErrors.
    apply sublist_app; [apply promptRefErrors_mono | reflexivity].
Qed.

Lemma loopErrors_mono checks : forall i seen,
  sublist (loopErrors fs' allowed' file i checks seen)
          (loopErrors fs allowed file i checks seen).
Proof.
  induction checks as [|c rest IH]; intros i seen; [reflexivity|].
  cbn [loopErrors]. apply sublist_app; [|apply IH].
  destruct c as [| | | | |fields]; try reflexivity. cbn [entryErrors].
  apply sublist_app; [reflexivity|]. apply sublist_app; [reflexivity|].
  destruct (fields !! "rule") as [[| | | | |rule]|]; try reflexivity.
  apply ruleErrors_mono.
Qed.

Lemma documentErrors_mono r :
  sublist (documentErrors fs' allowed' file r) (documentErrors fs allowed file r).
Proof.
  unfold documentErrors. apply sublist_app; [reflexivity|].
  apply sublist_app; [reflexivity | apply loopErrors_mono].
Qed.

End Monotone.

(** X10.  Adding selectors to the table and files to the tree never adds an
    error: with a larger table and more paths that can be accessed, the
    errors of a file are those it had before with some of them left out, in
    the same order, and its warnings and the paths it probes are the same.
    A file that passed still passes. *)
Theorem more_resources_fewer_errors {host : Host} (w w' : world)
    (allowed allowed' : gset string) (file : string) :
  readYaml w' file = readYaml w file ->
  allowed ⊆ allowed' ->
  (forall path, fs_access w path = true -> fs_access w' path = true) ->
  sublist (errors (diagnose w' allowed' file)) (errors (diagnose w allowed file))
  /\ warnings (diagnose w' allowed' file) = warnings (diagnose w allowed file)
  /\ probes (diagnose w' allowed' file) = probes (diagnose w allowed file)
  /\ (errors (diagnose w allowed file) = [] -> errors (diagnose w' allowed' file) = []).
Proof.
  intros Hread Hallowed Hfs. rewrite !diagnose_eq, Hread.
  assert (Hsub : forall r,
            sublist (documentErrors (fs_access w') allowed' file r)
                    (documentErrors (fs_access w) allowed file r))
    by (intros r; by apply documentErrors_mono).
  destruct (readYaml w file) as [e|[| | | | |r]]; cbn [errors warnings probes].
  all: try (split; [reflexivity|]; split; [done|]; split; done).
  split; [apply Hsub|]. split; [done|]. split; [done|].
  intros Hnil. specialize (Hsub r). rewrite Hnil in Hsub.
  by apply sublist_nil_r in Hsub.
Qed.

Lemma more_resources_fewer_errors_witness :
  sublist (errors (diagnose (host := ascii_host) world_all_prompts {[ "h1"; "p" ]}
                     "rules/a/ruleset.yml"))
          (errors (diagnose (host := ascii_host) world_one {[ "h1" ]}
                     "rules/a/ruleset.yml")).
Proof.
  refine (proj1 (more_resources_fewer_errors (host := ascii_host)
                   world_one world_all_prompts {[ "h1" ]} {[ "h1"; "p" ]}
                   "rules/a/ruleset.yml" eq_refl _ (fun _ _ => eq_refl))).
  apply union_subseteq_l.
Defined.

(** ** From the semantic validator to the compiler *)

(** X11.  When the semantic validator exits with code 0, every document
    the other scripts meet is an object.  The schema validator can end by an
    exception only while it loads the schema.  The compiler can end by an
    exception only at the directory, or at the turn after its last write
    because the top-level id of the document, which the semantic validator
    never looks at, cannot be converted to a string, or because the write
    throws.  When it ends normally it has made one write for each ruleset,
    in the order of the match: to the directory joined with the text of the
    top-level id, or [undefined] when there is none, and [.json]; of the
    document with [createdAt] set to the time of the turn in place of
    whatever the document had there.  Documents with the same id are
    written to the same path. *)
Theorem semantic_pass_then_compile {host : Host}
    (path_join : string -> string -> string)
    (string_properties : string -> gmap string value)
    (compileSchema : string -> schema_load) (t : tree) (d : disk) :
  snd (main (world_of t)) = 0 ->
  (forall out thrown,
      validateSchema compileSchema t = Uncaught out thrown ->
      out = []
      /\ exists e,
           thrown = Rejected e
           /\ (readFile t SCHEMA_PATH = ReadError e
               \/ exists raw, readFile t SCHEMA_PATH = Content raw
                              /\ compileSchema raw = SchemaThrew e))
  /\ match compile path_join string_properties t d with
     | Done out writes =>
         length writes = length (glob_of t RULESET_GLOB)
         /\ forall k file,
              glob_of t RULESET_GLOB !! k = Some file ->
              exists r text,
                readYaml_of t file = Parsed (VObj r)
                /\ match r !! "id" with
                   | Some id => ToString id = Some text
                   | None => text = "undefined"
                   end
                /\ writes !! k
                   = Some (WriteFile (path_join "dist" (text +:+ ".json"))
                             (<[ "createdAt" := VStr (clock d k) ]> r))
     | Aborted out writes thrown =>
         (exists e, mkdir_error d = Some e /\ thrown = Rejected e)
         \/ exists file r,
              glob_of t RULESET_GLOB !! length writes = Some file
              /\ readYaml_of t file = Parsed (VObj r)
              /\ ((exists id, r !! "id" = Some id /\ ToString id = None
                              /\ thrown = NoPrimitive)
                  \/ (exists path e,
                         write_error d (length writes) path = Some e
                         /\ thrown = Rejected e))
     end.
Proof.
  intros (selectors & _ & Hall)%main_exit_0_iff.
  assert (Hobj : forall file, file ∈ glob_of t RULESET_GLOB ->
            exists r, readYaml_of t file = Parsed (VObj r)).
  { intros file Hfile. rewrite Forall_forall in Hall.
    apply (Hall file) in Hfile. apply diagnose_nil_iff in Hfile as (r & Hr & _).
    by exists r. }
  clear Hall. split.
  { intros out thrown. apply validateSchema_loads. apply Forall_forall.
    intros file [r Hr]%Hobj. apply loads_true. eauto. }
  rewrite compile_eq. destruct (mkdir_error d) as [e|] eqn:Hmkdir.
  { left. by exists e. }
  destruct (compileSteps path_join string_properties t d 0 (glob_of t RULESET_GLOB))
    as [ws e] eqn:Hsteps.
  apply compileSteps_spec in Hsteps. destruct e as [e|].
  - destruct Hsteps as (done & file & rest & Heq & Hdone & Hfile).
    apply imap_inr_lookup in Hdone as [Hlen _]. rewrite Hlen.
    destruct (Hobj file) as [r Hr].
    { rewrite Heq. apply elem_of_app. right. apply list_elem_of_here. }
    right. exists file, r. split; [rewrite Heq; by apply list_lookup_middle|].
    split; [done|].
    apply (compileFile_threw path_join string_properties) in Hfile
      as [(e' & Hthrew & _)|[[Hnull _]
          |[(r' & id & Hr' & Hid & Htext & ->)
           |(ruleset & text & e' & _ & _ & Hwrite & ->)]]].
    + congruence.
    + congruence.
    + left. exists id. assert (r' = r) as -> by congruence. done.
    + right. eauto.
  - apply imap_inr_lookup in Hsteps as [Hlen Hall]. split; [done|].
    intros k file Hk. destruct (Hobj file) as [r Hr].
    { by apply list_elem_of_lookup_2 in Hk. }
    destruct (ws !! k) as [w|] eqn:Hw.
    2: { apply lookup_ge_None in Hw. apply lookup_lt_Some in Hk. lia. }
    destruct (Hall k w Hw) as (file' & Hk' & Hturn).
    assert (file' = file) as -> by congruence.
    apply (compileFile_wrote path_join string_properties) in Hturn
      as (ruleset & text & Hread & Htext & Hpath & _ & Hpayload).
    assert (ruleset = VObj r) as -> by congruence.
    exists r, text. split; [done|]. split; [exact Htext|].
    f_equal. destruct w as [p x]. cbn in Hpath, Hpayload. by subst.
Qed.

Lemma semantic_pass_then_compile_witness :
  snd (main (host := ascii_host) (world_of tree_two)) = 0
  /\ match compile (host := ascii_host) join_paths (fun _ => ∅) tree_two disk_one with
     | Done out writes => length writes = 1%nat
     | Aborted _ _ _ => False
     end.
Proof.
  assert (Hmain : snd (main (host := ascii_host) (world_of tree_two)) = 0)
    by reflexivity.
  split; [exact Hmain|].
  pose proof (proj2 (semantic_pass_then_compile (host := ascii_host) join_paths
                       (fun _ => ∅) (fun _ => SchemaThrew "SyntaxError")
                       tree_two disk_one Hmain)) as Hcompile.
  exact (proj1 Hcompile).
Defined.

(** ** What the validator reads of a document *)

Section Frame.

Context {host : Host}.
Variable fs : string -> bool.
Variable allowed : gset string.
Variable file : string.

Lemma ruleErrors_same base a b :
  same_rule a b ->
  ruleErrors fs allowed file base a = ruleErrors fs allowed file base b
  /\ ruleProbes a = ruleProbes b.
Proof.
  intros (Hop & Hcount & Hterm & Hllm). unfold ruleErrors, ruleProbes.
  rewrite <- Hop.
  assert (Hc : (if is_string (a !! "op") "count"
                then countErrors allowed file base a else [])
               = if is_string (a !! "op") "count"
                 then countErrors allowed file base b else []).
  { destruct (is_string (a !! "op") "count"); [|done].
    destruct (Hcount eq_refl) as (Hsel & Hmin & Hmax).
    unfold countErrors. by rewrite Hsel, Hmin, Hmax. }
  assert (Ht : (if is_string (a !! "op") "term_density"
                then termDensityErrors file base a else [])
               = if is_string (a !! "op") "term_density"
                 then termDensityErrors file base b else []).
  { destruct (is_string (a !! "op") "term_density"); [|done].
    destruct (Hterm eq_refl) as (Hterms & Hmax).
    unfold termDensityErrors. by rewrite Hterms, Hmax. }
  assert (Hl : (if is_string (a !! "op") "llm"
                then llmErrors fs file base a else [])
               = (if is_string (a !! "op") "llm"
                  then llmErrors fs file base b else [])
               /\ (if is_string (a !! "op") "llm"
                   then promptRefProbes (a !! "promptRef") else [])
                  = if is_string (a !! "op") "llm"
                    then promptRefProbes (b !! "promptRef") else []).
  { destruct (is_string (a !! "op") "llm"); [|done].
    destruct (Hllm eq_refl) as (Href & Hintro).
    unfold llmErrors. by rewrite Href, Hintro. }
  destruct Hl as [Hl Hp]. by rewrite Hc, Ht, Hl, Hp.
Qed.

Lemma entry_same i c c' seen :
  same_entry c c' ->
  entryErrors fs allowed file i c seen = entryErrors fs allowed file i c' seen
  /\ entrySeen c seen = entrySeen c' seen
  /\ entryProbes c = entryProbes c'.
Proof.
  destruct c as [|?|?|?|?|ca], c' as [|?|?|?|?|cb]; try done.
  intros (Hid & Hsev & Hdim & Hpen & Hmsg & Hrule).
  unfold entryErrors, entrySeen, entryProbes, plainFieldErrors.
  rewrite Hid, Hsev, Hdim, Hpen, Hmsg.
  destruct (ca !! "rule") as [[|?|?|?|?|ra]|], (cb !! "rule") as [[|?|?|?|?|rb]|];
    try done.
  destruct (ruleErrors_same (basePath i) ra rb Hrule) as [-> ->]. done.
Qed.

Lemma loop_same checks checks' :
  Forall2 same_entry checks checks' ->
  forall i seen,
    loopErrors fs allowed file i checks seen = loopErrors fs allowed file i checks' seen
    /\ loopSeen checks seen = loopSeen checks' seen
    /\ loopProbes checks = loopProbes checks'.
Proof.
  induction 1 as [|c c' rest rest' Hc _ IH]; intros i seen; [done|].
  cbn [loopErrors loopSeen loopProbes].
  destruct (entry_same i c c' seen Hc) as (-> & -> & ->).
  destruct (IH (S i) (entrySeen c' seen)) as (-> & -> & ->). done.
Qed.

End Frame.

(** X12.  The validator reads of a document only [language], [weights] and
    [checks]; of an entry only its six fields; of a rule only [op] and the
    fields of that operator.  Two documents that agree on these get the same
    errors, the same warnings and the same probes, whatever else they hold:
    a top-level id, a misspelt key, or a [promptRef] in a rule that counts
    are never looked at. *)
Theorem validator_reads_only {host : Host} (fs : string -> bool)
    (allowed : gset string) (file : string) (r r' : gmap string value) (s : vstate) :
  same_document r r' ->
  exec (validateRuleset fs allowed file r) s
  = exec (validateRuleset fs allowed file r') s.
Proof.
  intros (Hlang & Hweights & Hchecks). rewrite !validateRuleset_exec.
  unfold documentErrors, documentWarnings, checksErrors, checksOf, isArray.
  rewrite Hlang, Hweights.
  destruct (r !! "checks") as [[| | | |cs|]|], (r' !! "checks") as [[| | | |cs'|]|];
    try done.
  destruct (loop_same fs allowed file cs cs' Hchecks 0%nat ∅) as (-> & -> & ->).
  done.
Qed.

Lemma validator_reads_only_witness :
  exec (validateRuleset (host := ascii_host) (fun _ => false) ∅ "f.yml"
          {[ "checks" := VArr [] ]}) start
  = exec (validateRuleset (host := ascii_host) (fun _ => false) ∅ "f.yml"
            namedRuleset) start.
Proof.
  apply (validator_reads_only (host := ascii_host)).
  repeat split; constructor.
Defined.

(** The document [wellFormedRuleset] is well formed when the selector [h1]
    is in the table and its prompt can be accessed. *)
Example wellFormedRuleset_is_well_formed :
  well_formed (fun path => bool_decide (path = "prompts/x.md")) {[ "h1" ]}
              wellFormedRuleset.
Proof. by apply (documentErrors_nil (host := ascii_host) _ _ "f.yml"). Qed.

(** ** Numbers and objects in the text of a message or a name *)

(** Integers from [2^53] on are printed with the fewest digits that read
    back as the number, followed by zeros; below, with their own digits. *)
Example Number_toString_of_integers {host : Host} :
  Number_toString (Num.of_Z (2 ^ 60)) = "1152921504606847000"
  /\ Number_toString (Num.of_Z (2 ^ 55)) = "36028797018963970"
  /\ Number_toString (Num.of_Z (- 2 ^ 64)) = "-18446744073709552000"
  /\ Number_toString (Num.of_Z 123456789012345678901) = "123456789012345680000"
  /\ Number_toString (Num.of_Z (2 ^ 53)) = "9007199254740992"
  /\ Number_toString (Num.of_Z (- 12)) = "-12"
  /\ Number_toString (Num.of_Z 0) = "0".
Proof. repeat split; by vm_compute. Qed.

(** The error of the range with [min = 2^60] and [max = 5]. *)
Example rangeErrors_of_large_min {host : Host} (file base : string) :
  rangeErrors file base (Some (VNum (Num.of_Z (2 ^ 60)))) (Some (VNum (Num.of_Z 5)))
  = [Diag file (base +:+ ".rule") "min (1152921504606847000) must be <= max (5)."].
Proof. reflexivity. Qed.

(** A mapping with a key [toString] has no conversion to a string, alone or
    in an array; one without has. *)
Example ToString_of_objects {host : Host} :
  ToString (obj [("toString", VNum Num.one)]) = None
  /\ ToString (VArr [VStr "a"; obj [("toString", VNull)]]) = None
  /\ ToString (obj [("valueOf", VNum Num.one)]) = Some "[object Object]"
  /\ ToString (VArr [VStr "a"; VNull; VArr [VBool true; VNum (Num.of_Z 2)]])
     = Some "a,,true,2".
Proof. repeat split; by vm_compute. Qed.

(** The semantic validator passes [rulesetWithOddId], and the compiler ends
    at it, before any write, because the id cannot be converted. *)
Example compile_of_odd_id :
  snd (main (host := ascii_host) (world_of tree_odd_id)) = 0
  /\ compile (host := ascii_host) join_paths (fun _ => ∅) tree_odd_id disk_one
     = Aborted [] [] NoPrimitive.
Proof. split; by vm_compute. Qed.
